(** * An interview pad: SQL and Python challenges checked in the browser

    The development embeds the handlers of the SQL pad (session state,
    challenge generation, question switching, query checking), the text
    cleaning of the response parser, the comparison of query results
    through their JSON text, the generation proxy and the Python pad.

    The SQL engine (sql.js), the Python interpreter (Pyodide), JSON.parse
    and the answer of the network are collaborators of the code: they enter
    as parameters. A handler is modelled as one step on the session state;
    the answer of the network is an argument of that step. A number of a
    query result is given by the digits and the exponent that
    Number::toString writes it with; blobs are outside the embedding.
    Confetti and console output are left out. *)

From Stdlib Require Import List String Ascii ZArith NArith Bool Lia Permutation.
From Stdlib Require Import DecimalString DecimalZ DecimalN DecimalPos DecimalFacts.
Import ListNotations.
Open Scope string_scope.
Open Scope list_scope.

Module Text.

Definition text := list ascii.

Definition is_ws (c : ascii) : bool :=
  existsb (Ascii.eqb c)
    [" "; "009"; "010"; "011"; "012"; "013"; "160"]%char.

Fixpoint drop_ws (s : text) : text :=
  match s with
  | c :: s' => if is_ws c then drop_ws s' else s
  | [] => []
  end.

Fixpoint count_ws (s : text) : nat :=
  match s with
  | c :: s' => if is_ws c then S (count_ws s') else 0
  | [] => 0
  end.

Fixpoint rtrim (s : text) : text :=
  match s with
  | [] => []
  | c :: s' =>
      match rtrim s' with
      | [] => if is_ws c then [] else [c]
      | r => c :: r
      end
  end.

Definition trim (s : text) : text := rtrim (drop_ws s).

Fixpoint starts_with (p s : text) : bool :=
  match p, s with
  | [], _ => true
  | a :: p', b :: s' => Ascii.eqb a b && starts_with p' s'
  | _ :: _, [] => false
  end.

Fixpoint replace_from (re : text -> option nat) (by_ : text)
         (skip : nat) (s : text) : text :=
  match s with
  | [] => match skip, re [] with
          | O, Some _ => by_
          | _, _ => []
          end
  | c :: s' =>
      match skip with
      | S k => replace_from re by_ k s'
      | O =>
          match re s with
          | Some (S k) => by_ ++ replace_from re by_ k s'
          | Some O => by_ ++ c :: replace_from re by_ 0 s'
          | None => c :: replace_from re by_ 0 s'
          end
      end
  end.

Definition replace_all (re : text -> option nat) (by_ s : text) : text :=
  replace_from re by_ 0 s.

End Text.
Import Text.

Definition fence_open : text := list_ascii_of_string "```json".
Definition fence_close : text := list_ascii_of_string "```".

Definition re_fence (s : text) : option nat :=
  if starts_with fence_open s
  then Some (List.length fence_open + count_ws (skipn (List.length fence_open) s))
  else if starts_with fence_close (drop_ws s)
       then Some (count_ws s + List.length fence_close)
       else None.

(** The first replacement of cleanJson: every fence marker removed. *)
Definition strip (s : text) : text := replace_all re_fence [] s.

Definition re_escaped_quote (s : text) : option nat :=
  match s with
  | "\"%char :: "'"%char :: _ => Some 2
  | _ => None
  end.

Definition cleanJson (text : string) : string :=
  let cleaned := trim (strip (list_ascii_of_string text)) in
  string_of_list_ascii (replace_all re_escaped_quote ["'"%char] cleaned).

Definition nl : string := String "010" EmptyString.

Definition fenced (t : string) : string :=
  ("```json" ++ nl ++ t ++ nl ++ "```")%string.


(** A JSON text starts, after white space, with the first character of a
    value. *)
Definition json_value_start (c : ascii) : bool :=
  existsb (Ascii.eqb c) ["{"; "["; "034"; "-"; "t"; "f"; "n"]%char
  || ((48 <=? N_of_ascii c)%N && (N_of_ascii c <=? 57)%N).

Definition begins_json_value (t : string) : bool :=
  match drop_ws (list_ascii_of_string t) with
  | c :: _ => json_value_start c
  | [] => false
  end.

(** * Query results and their JSON text *)

(** ** Numbers

    sql.js hands every number of SQLite over as a JavaScript number. A
    finite number other than zero is given by what Number::toString works
    with: the decimal digits [s] and the exponent [n] such that the number
    is s * 10^(n - k), where k is the number of digits of s and s is the
    shortest digit string that reads back as the number. *)
Inductive jsnumber : Type :=
| NaN
| Infinity (negative : bool)
| Zero (negative : bool)
| Finite (negative : bool) (s : positive) (n : Z).

Definition digits (p : positive) : text :=
  list_ascii_of_string (NilZero.string_of_uint (Pos.to_uint p)).

Definition exponent (e : Z) : text :=
  "e"%char :: (if (e <? 0)%Z then "-"%char else "+"%char)
    :: list_ascii_of_string (NilZero.string_of_uint (N.to_uint (Z.abs_N e))).

(** The five layouts of Number::toString, for the digits [s] and the
    exponent [n]. *)
Definition magnitude (s : positive) (n : Z) : text :=
  let ds := digits s in
  let k := Z.of_nat (List.length ds) in
  if ((k <=? n) && (n <=? 21))%Z
  then ds ++ repeat "0"%char (Z.to_nat (n - k))
  else if ((0 <? n) && (n <=? 21))%Z
  then firstn (Z.to_nat n) ds ++ "."%char :: skipn (Z.to_nat n) ds
  else if ((-6 <? n) && (n <=? 0))%Z
  then "0"%char :: "."%char :: repeat "0"%char (Z.to_nat (- n)) ++ ds
  else match ds with
       | [] => []
       | [d] => d :: exponent (n - 1)
       | d :: rest => d :: "."%char :: rest ++ exponent (n - 1)
       end.

Definition Number_toString (x : jsnumber) : text :=
  match x with
  | NaN => list_ascii_of_string "NaN"
  | Infinity false => list_ascii_of_string "Infinity"
  | Infinity true => list_ascii_of_string "-Infinity"
  | Zero _ => list_ascii_of_string "0"
  | Finite false s n => magnitude s n
  | Finite true s n => "-"%char :: magnitude s n
  end.

(** The number of an integer that a JavaScript number holds exactly and
    writes with all its digits. *)
Fixpoint shortest (fuel : nat) (p : positive) : positive :=
  match fuel with
  | O => p
  | S fuel' =>
      if (Z.pos p mod 10 =? 0)%Z
      then shortest fuel' (Z.to_pos (Z.pos p / 10))
      else p
  end.

Definition integer (z : Z) : jsnumber :=
  match z with
  | Z0 => Zero false
  | Zpos p =>
      Finite false (shortest (Pos.size_nat p) p) (Z.of_nat (List.length (digits p)))
  | Zneg p =>
      Finite true (shortest (Pos.size_nat p) p) (Z.of_nat (List.length (digits p)))
  end.

(** ** Values *)

Inductive sqlval : Type :=
| SqlNull
| SqlNum (x : jsnumber)
| SqlText (s : string).

Definition jsobj : Type := list (string * sqlval).

Record QueryResult : Type := mkQueryResult {
  columns : list string;
  values : list (list sqlval)
}.

Module Json.

Definition dquote : ascii := "034".
Definition backslash : ascii := "\".

Definition hex_digit (n : N) : ascii :=
  nth (N.to_nat n) (list_ascii_of_string "0123456789abcdef") "0"%char.

Definition escape_char (c : ascii) : text :=
  if Ascii.eqb c dquote then [backslash; dquote]
  else if Ascii.eqb c backslash then [backslash; backslash]
  else if Ascii.eqb c "008" then [backslash; "b"%char]
  else if Ascii.eqb c "012" then [backslash; "f"%char]
  else if Ascii.eqb c "010" then [backslash; "n"%char]
  else if Ascii.eqb c "013" then [backslash; "r"%char]
  else if Ascii.eqb c "009" then [backslash; "t"%char]
  else if (N_of_ascii c <? 32)%N
       then [backslash; "u"%char; "0"%char; "0"%char;
             hex_digit (N_of_ascii c / 16); hex_digit (N_of_ascii c mod 16)]
       else [c].

Definition quote (s : string) : text :=
  dquote :: flat_map escape_char (list_ascii_of_string s) ++ [dquote].

(** A number that is not finite is written as null. *)
Definition number (x : jsnumber) : text :=
  match x with
  | NaN | Infinity _ => list_ascii_of_string "null"
  | _ => Number_toString x
  end.

Definition value (v : sqlval) : text :=
  match v with
  | SqlNull => list_ascii_of_string "null"
  | SqlNum n => number n
  | SqlText s => quote s
  end.

Fixpoint join {A} (item : A -> text) (xs : list A) : text :=
  match xs with
  | [] => []
  | [x] => item x
  | x :: xs' => item x ++ ","%char :: join item xs'
  end.

Definition member (kv : string * sqlval) : text :=
  quote (fst kv) ++ ":"%char :: value (snd kv).

Definition object (o : jsobj) : text :=
  "{"%char :: join member o ++ ["}"%char].

Definition array (rows : list jsobj) : text :=
  "["%char :: join object rows ++ ["]"%char].

(** *** Reading the text back, one token at a time *)

Definition hex_value (c : ascii) : N :=
  let n := N_of_ascii c in
  if (n <? 58)%N then (n - 48)%N else (n - 87)%N.

(** Reads back one escaped character from the head of a text. *)
Definition unescape_head (s : text) : option (ascii * text) :=
  match s with
  | [] => None
  | c :: r =>
      if Ascii.eqb c dquote then None
      else if Ascii.eqb c backslash then
        match r with
        | e :: r' =>
            if Ascii.eqb e "u" then
              match r' with
              | _ :: _ :: h :: l :: r'' =>
                  Some (ascii_of_N (16 * hex_value h + hex_value l), r'')
              | _ => None
              end
            else if Ascii.eqb e "b" then Some ("008"%char, r')
            else if Ascii.eqb e "f" then Some ("012"%char, r')
            else if Ascii.eqb e "n" then Some ("010"%char, r')
            else if Ascii.eqb e "r" then Some ("013"%char, r')
            else if Ascii.eqb e "t" then Some ("009"%char, r')
            else Some (e, r')
        | [] => None
        end
      else Some (c, r)
  end.

(** The characters of a value that is written without quotes: a number
    or null. *)
Definition is_bare_char (c : ascii) : bool :=
  Ascii.eqb c "-" || Ascii.eqb c "+" || Ascii.eqb c "." || Ascii.eqb c "e"
  || Ascii.eqb c "n" || Ascii.eqb c "u" || Ascii.eqb c "l"
  || ((48 <=? N_of_ascii c)%N && (N_of_ascii c <=? 57)%N).

Definition closes (c : ascii) : bool :=
  Ascii.eqb c "," || Ascii.eqb c "}" || Ascii.eqb c "]".

(** A value that is no string is written without quotes. *)
Definition bare (v : sqlval) : bool :=
  match v with SqlText _ => false | _ => true end.

(** What the text shows of a member: its key and the text of its value. *)
Definition member_text (kv : string * sqlval) : string * text :=
  (fst kv, value (snd kv)).

End Json.

Definition JSON_stringify (rows : list jsobj) : string :=
  string_of_list_ascii (Json.array rows).

(** What the JSON text shows of a row: its keys in their order, each with
    the text of its value. *)
Definition json_members (o : jsobj) : list (string * text) :=
  map Json.member_text o.

(** [userStr === solStr] in handleRunQuery. *)
Definition results_match (user solution : list jsobj) : bool :=
  String.eqb (JSON_stringify user) (JSON_stringify solution).

(** ** Building row objects: [obj[col] = row[i]] *)

Definition array_index (k : string) : option N :=
  match NilZero.uint_of_string k with
  | Some d =>
      let n := N.of_uint d in
      if String.eqb (NilZero.string_of_uint (N.to_uint n)) k && (n <? 4294967295)%N
      then Some n else None
  | None => None
  end.

Fixpoint obj_insert_index {V} (o : list (string * V)) (n : N) (k : string) (v : V)
  : list (string * V) :=
  match o with
  | [] => [(k, v)]
  | (k', v') :: o' =>
      match array_index k' with
      | Some n' => if (n <? n')%N then (k, v) :: o
                   else (k', v') :: obj_insert_index o' n k v
      | None => (k, v) :: o
      end
  end.

Definition obj_has {V} (o : list (string * V)) (k : string) : bool :=
  existsb (fun kv => String.eqb (fst kv) k) o.

(** [o[k] = v] for a key that names a property of the object itself (any
    key but __proto__ on an object with its first prototype), with the
    property order of JavaScript objects: integer-like keys first in
    ascending order, the other keys in creation order. *)
Definition obj_set {V} (o : list (string * V)) (k : string) (v : V)
  : list (string * V) :=
  if obj_has o k
  then map (fun kv => if String.eqb (fst kv) k then (k, v) else kv) o
  else match array_index k with
       | Some n => obj_insert_index o n k v
       | None => o ++ [(k, v)]
       end.

(** [o[k] = undefined]. A property that holds undefined reads like one
    that was never set, and JSON.stringify leaves both out: a [jsobj]
    lists the properties that hold a value. *)
Definition obj_unset {V} (o : list (string * V)) (k : string)
  : list (string * V) :=
  filter (fun kv => negb (String.eqb (fst kv) k)) o.

(** [columns.forEach((col, i) => { obj[col] = row[i]; })]: past the end
    of a short row, [row[i]] is undefined. While the object has the
    prototype it was created with ([plain]), the name __proto__ is not a
    property of its own but the accessor of Object.prototype, whose setter
    takes the prototype away when it is given null and ignores every other
    value met here; on an object without prototype the name is a property
    like any other. *)
Fixpoint fill_row (plain : bool) (obj : jsobj) (cols : list string)
         (row : list sqlval) : jsobj :=
  match cols with
  | [] => obj
  | col :: cols' =>
      let v := hd_error row in
      if String.eqb col "__proto__" && plain
      then fill_row (match v with Some SqlNull => false | _ => true end)
                    obj cols' (tl row)
      else fill_row plain
                    (match v with
                     | Some x => obj_set obj col x
                     | None => obj_unset obj col
                     end)
                    cols' (tl row)
  end.

Definition parseSqlResult (res : list QueryResult) : list jsobj :=
  match res with
  | [] => []
  | r :: _ => map (fill_row true [] (columns r)) (values r)
  end.


(** * Shared vocabulary *)

(** A JavaScript call either returns or throws; [Threw] carries
    [e.message]. *)
Inductive outcome (A : Type) : Type :=
| Returned (a : A)
| Threw (msg : string).
Arguments Returned {A} a.
Arguments Threw {A} msg.

Definition truthy (s : option string) : bool :=
  match s with
  | Some v => negb (String.eqb v "")
  | None => false
  end.

(** What lines 196-208 of the SQL pad (174-186 of the Python pad) obtain
    from the proxy. *)
Inductive Reply : Type :=
| FetchRejected (msg : string)
| ErrorEnvelope (msg : string)
| NoCandidateText (msg : string)
| CandidateText (text : string).

Definition reply_text (r : Reply) : outcome string :=
  match r with
  | FetchRejected msg => Threw msg
  | ErrorEnvelope msg => Threw msg
  | NoCandidateText msg => Threw msg
  | CandidateText text => Returned text
  end.

(** ** Challenge documents (SQL variant) *)

Record Question : Type := mkQuestion {
  title : option string;
  difficulty : option string;
  tags : option (list string);
  question : option string;
  solution_sql : option string;
  explanation : option string
}.

Record ChallengeDoc : Type := mkChallengeDoc {
  schema_sql : option string;
  data_sql : option string;
  questions : option (list Question);
  flat : Question
}.

Definition normalizeChallenge (challengeData : ChallengeDoc) : ChallengeDoc :=
  match questions challengeData with
  | Some _ => challengeData
  | None =>
      if truthy (question (flat challengeData))
      then mkChallengeDoc
             (schema_sql challengeData) (data_sql challengeData)
             (Some [mkQuestion
                      (title (flat challengeData))
                      (difficulty (flat challengeData))
                      (Some (match tags (flat challengeData) with
                             | Some l => l
                             | None => []
                             end))
                      (question (flat challengeData))
                      (solution_sql (flat challengeData))
                      (explanation (flat challengeData))])
             (flat challengeData)
      else challengeData
  end.

(** ** The SQL engine *)

Record Engine : Type := mkEngine {
  DB : Type;
  newDatabase : DB;
  db_run : DB -> option string -> option string * DB;
  db_exec : DB -> option string -> outcome (list QueryResult) * DB
}.

Definition split_on (sep : ascii) (s : string) : list string :=
  let fix go (cur : text) (rest : text) : list string :=
    match rest with
    | [] => [string_of_list_ascii (rev cur)]
    | c :: rest' =>
        if Ascii.eqb c sep
        then string_of_list_ascii (rev cur) :: go [] rest'
        else go (c :: cur) rest'
    end in
  go [] (list_ascii_of_string s).

Definition is_blank (s : string) : bool :=
  match trim (list_ascii_of_string s) with
  | [] => true
  | _ :: _ => false
  end.

Definition sqlval_text (v : option sqlval) : string :=
  match v with
  | None => "undefined"
  | Some SqlNull => "null"
  | Some (SqlNum x) => string_of_list_ascii (Number_toString x)
  | Some (SqlText s) => s
  end.

(** [previews[tableName] = rows] on the object created at line 238. Under
    the name __proto__ the assignment goes to the accessor of
    Object.prototype, which makes the array the prototype of the object:
    the object gets no property of its own. *)
Definition previews_set (previews : list (string * list jsobj)) (k : string)
           (rows : list jsobj) : list (string * list jsobj) :=
  if String.eqb k "__proto__" then previews else obj_set previews k rows.

(** * The SQL pad: session state and handlers *)

Module SqlPad.

Inductive Mode : Type := manual | auto | company.
Inductive FeedbackType : Type := success | error.
Inductive Tab : Type := editor | solution.

Record Feedback : Type := mkFeedback {
  type : FeedbackType;
  message : string
}.

Definition Mode_eqb (a b : Mode) : bool :=
  match a, b with
  | manual, manual | auto, auto | company, company => true
  | _, _ => false
  end.

Definition null_read (prop : string) : string :=
  ("Cannot read properties of null (reading '" ++ prop ++ "')")%string.
Definition undefined_read (prop : string) : string :=
  ("Cannot read properties of undefined (reading '" ++ prop ++ "')")%string.

Inductive EngineLoad : Type :=
| InitSqlJsFailed
| DatabaseFailed
| EngineLoaded.

Section WithEngine.

Variable E : Engine.
Variable JSON_parse : string -> outcome ChallengeDoc.

Record AppState : Type := mkAppState {
  apiKey : string;
  mode : Mode;
  topic : string;
  companyName : string;
  difficulty : string;
  isLoading : bool;
  isSqlReady : bool;
  dbRef : option (DB E);
  sqlJsRef : bool;
  challenge : option ChallengeDoc;
  currentQIndex : Z;
  tablePreviews : list (string * list jsobj);
  expectedResult : option (list jsobj);
  expectedError : option string;
  userQuery : string;
  queryResult : option (list jsobj);
  feedback : option Feedback;
  activeTab : Tab;
  showApiKey : bool
}.

Definition set_apiKey (v : string) (s : AppState) : AppState :=
  mkAppState v (mode s) (topic s) (companyName s) (difficulty s) (isLoading s) (isSqlReady s) (dbRef s) (sqlJsRef s) (challenge s) (currentQIndex s) (tablePreviews s) (expectedResult s) (expectedError s) (userQuery s) (queryResult s) (feedback s) (activeTab s) (showApiKey s).
Definition set_mode (v : Mode) (s : AppState) : AppState :=
  mkAppState (apiKey s) v (topic s) (companyName s) (difficulty s) (isLoading s) (isSqlReady s) (dbRef s) (sqlJsRef s) (challenge s) (currentQIndex s) (tablePreviews s) (expectedResult s) (expectedError s) (userQuery s) (queryResult s) (feedback s) (activeTab s) (showApiKey s).
Definition set_topic (v : string) (s : AppState) : AppState :=
  mkAppState (apiKey s) (mode s) v (companyName s) (difficulty s) (isLoading s) (isSqlReady s) (dbRef s) (sqlJsRef s) (challenge s) (currentQIndex s) (tablePreviews s) (expectedResult s) (expectedError s) (userQuery s) (queryResult s) (feedback s) (activeTab s) (showApiKey s).
Definition set_companyName (v : string) (s : AppState) : AppState :=
  mkAppState (apiKey s) (mode s) (topic s) v (difficulty s) (isLoading s) (isSqlReady s) (dbRef s) (sqlJsRef s) (challenge s) (currentQIndex s) (tablePreviews s) (expectedResult s) (expectedError s) (userQuery s) (queryResult s) (feedback s) (activeTab s) (showApiKey s).
Definition set_difficulty (v : string) (s : AppState) : AppState :=
  mkAppState (apiKey s) (mode s) (topic s) (companyName s) v (isLoading s) (isSqlReady s) (dbRef s) (sqlJsRef s) (challenge s) (currentQIndex s) (tablePreviews s) (expectedResult s) (expectedError s) (userQuery s) (queryResult s) (feedback s) (activeTab s) (showApiKey s).
Definition set_isLoading (v : bool) (s : AppState) : AppState :=
  mkAppState (apiKey s) (mode s) (topic s) (companyName s) (difficulty s) v (isSqlReady s) (dbRef s) (sqlJsRef s) (challenge s) (currentQIndex s) (tablePreviews s) (expectedResult s) (expectedError s) (userQuery s) (queryResult s) (feedback s) (activeTab s) (showApiKey s).
Definition set_isSqlReady (v : bool) (s : AppState) : AppState :=
  mkAppState (apiKey s) (mode s) (topic s) (companyName s) (difficulty s) (isLoading s) v (dbRef s) (sqlJsRef s) (challenge s) (currentQIndex s) (tablePreviews s) (expectedResult s) (expectedError s) (userQuery s) (queryResult s) (feedback s) (activeTab s) (showApiKey s).
Definition set_dbRef (v : option (DB E)) (s : AppState) : AppState :=
  mkAppState (apiKey s) (mode s) (topic s) (companyName s) (difficulty s) (isLoading s) (isSqlReady s) v (sqlJsRef s) (challenge s) (currentQIndex s) (tablePreviews s) (expectedResult s) (expectedError s) (userQuery s) (queryResult s) (feedback s) (activeTab s) (showApiKey s).
Definition set_sqlJsRef (v : bool) (s : AppState) : AppState :=
  mkAppState (apiKey s) (mode s) (topic s) (companyName s) (difficulty s) (isLoading s) (isSqlReady s) (dbRef s) v (challenge s) (currentQIndex s) (tablePreviews s) (expectedResult s) (expectedError s) (userQuery s) (queryResult s) (feedback s) (activeTab s) (showApiKey s).
Definition set_challenge (v : option ChallengeDoc) (s : AppState) : AppState :=
  mkAppState (apiKey s) (mode s) (topic s) (companyName s) (difficulty s) (isLoading s) (isSqlReady s) (dbRef s) (sqlJsRef s) v (currentQIndex s) (tablePreviews s) (expectedResult s) (expectedError s) (userQuery s) (queryResult s) (feedback s) (activeTab s) (showApiKey s).
Definition set_currentQIndex (v : Z) (s : AppState) : AppState :=
  mkAppState (apiKey s) (mode s) (topic s) (companyName s) (difficulty s) (isLoading s) (isSqlReady s) (dbRef s) (sqlJsRef s) (challenge s) v (tablePreviews s) (expectedResult s) (expectedError s) (userQuery s) (queryResult s) (feedback s) (activeTab s) (showApiKey s).
Definition set_tablePreviews (v : list (string * list jsobj)) (s : AppState) : AppState :=
  mkAppState (apiKey s) (mode s) (topic s) (companyName s) (difficulty s) (isLoading s) (isSqlReady s) (dbRef s) (sqlJsRef s) (challenge s) (currentQIndex s) v (expectedResult s) (expectedError s) (userQuery s) (queryResult s) (feedback s) (activeTab s) (showApiKey s).
Definition set_expectedResult (v : option (list jsobj)) (s : AppState) : AppState :=
  mkAppState (apiKey s) (mode s) (topic s) (companyName s) (difficulty s) (isLoading s) (isSqlReady s) (dbRef s) (sqlJsRef s) (challenge s) (currentQIndex s) (tablePreviews s) v (expectedError s) (userQuery s) (queryResult s) (feedback s) (activeTab s) (showApiKey s).
Definition set_expectedError (v : option string) (s : AppState) : AppState :=
  mkAppState (apiKey s) (mode s) (topic s) (companyName s) (difficulty s) (isLoading s) (isSqlReady s) (dbRef s) (sqlJsRef s) (challenge s) (currentQIndex s) (tablePreviews s) (expectedResult s) v (userQuery s) (queryResult s) (feedback s) (activeTab s) (showApiKey s).
Definition set_userQuery (v : string) (s : AppState) : AppState :=
  mkAppState (apiKey s) (mode s) (topic s) (companyName s) (difficulty s) (isLoading s) (isSqlReady s) (dbRef s) (sqlJsRef s) (challenge s) (currentQIndex s) (tablePreviews s) (expectedResult s) (expectedError s) v (queryResult s) (feedback s) (activeTab s) (showApiKey s).
Definition set_queryResult (v : option (list jsobj)) (s : AppState) : AppState :=
  mkAppState (apiKey s) (mode s) (topic s) (companyName s) (difficulty s) (isLoading s) (isSqlReady s) (dbRef s) (sqlJsRef s) (challenge s) (currentQIndex s) (tablePreviews s) (expectedResult s) (expectedError s) (userQuery s) v (feedback s) (activeTab s) (showApiKey s).
Definition set_feedback (v : option Feedback) (s : AppState) : AppState :=
  mkAppState (apiKey s) (mode s) (topic s) (companyName s) (difficulty s) (isLoading s) (isSqlReady s) (dbRef s) (sqlJsRef s) (challenge s) (currentQIndex s) (tablePreviews s) (expectedResult s) (expectedError s) (userQuery s) (queryResult s) v (activeTab s) (showApiKey s).
Definition set_activeTab (v : Tab) (s : AppState) : AppState :=
  mkAppState (apiKey s) (mode s) (topic s) (companyName s) (difficulty s) (isLoading s) (isSqlReady s) (dbRef s) (sqlJsRef s) (challenge s) (currentQIndex s) (tablePreviews s) (expectedResult s) (expectedError s) (userQuery s) (queryResult s) (feedback s) v (showApiKey s).
Definition set_showApiKey (v : bool) (s : AppState) : AppState :=
  mkAppState (apiKey s) (mode s) (topic s) (companyName s) (difficulty s) (isLoading s) (isSqlReady s) (dbRef s) (sqlJsRef s) (challenge s) (currentQIndex s) (tablePreviews s) (expectedResult s) (expectedError s) (userQuery s) (queryResult s) (feedback s) (activeTab s) v.

Definition initialState : AppState :=
  mkAppState "" manual "" "" "Medium" false false None false
             None 0 [] None None "" None None editor true.

(** [initEngine] of the mount effect. *)
Definition initEngine (o : EngineLoad) (s : AppState) : AppState :=
  match o with
  | InitSqlJsFailed => s
  | DatabaseFailed => set_sqlJsRef true s
  | EngineLoaded =>
      set_isSqlReady true
        (set_dbRef (Some (newDatabase E)) (set_sqlJsRef true s))
  end.

(** ** State and exceptions inside a [try] block *)

Definition M (A : Type) : Type := AppState -> outcome A * AppState.

Definition ret {A} (a : A) : M A := fun s => (Returned a, s).
Definition throw {A} (msg : string) : M A := fun s => (Threw msg, s).
Definition bind {A B} (m : M A) (k : A -> M B) : M B :=
  fun s => match m s with
           | (Returned a, s') => k a s'
           | (Threw msg, s') => (Threw msg, s')
           end.
Definition modify (f : AppState -> AppState) : M unit :=
  fun s => (Returned tt, f s).
Definition lift {A} (o : outcome A) : M A := fun s => (o, s).

Notation "x <- m ;; k" := (bind m (fun x => k))
  (at level 61, m at next level, right associativity).
Notation "m ;;; k" := (bind m (fun _ => k))
  (at level 61, right associativity).

(** A method call on [dbRef.current]. *)
Definition onDb {A} (method : string) (f : DB E -> outcome A * DB E) : M A :=
  fun s => match dbRef s with
           | None => (Threw (null_read method), s)
           | Some db => let (r, db') := f db in (r, set_dbRef (Some db') s)
           end.

Definition run (sql : option string) (db : DB E) : outcome unit * DB E :=
  let (e, db') := db_run E db sql in
  (match e with Some msg => Threw msg | None => Returned tt end, db').

Definition exec (sql : option string) (db : DB E)
  : outcome (list QueryResult) * DB E :=
  db_exec E db sql.

Definition executeSql (query : string) (s : AppState)
  : (string + list jsobj) * AppState :=
  match dbRef s with
  | None => (inl "SQL Engine not loaded yet.", s)
  | Some db =>
      let (r, db') := exec (Some query) db in
      (match r with
       | Returned res => inr (parseSqlResult res)
       | Threw msg => inl msg
       end, set_dbRef (Some db') s)
  end.

(** ** generateChallenge *)

Definition insertStmts (data_sql : string) : list string :=
  filter (fun stmt => negb (is_blank stmt)) (split_on ";" data_sql).

(** [insertStmts.forEach(stmt => { try { run(stmt) } catch {} })] *)
Definition applyData (db : DB E) (stmts : list string) : DB E :=
  fold_left (fun d stmt => snd (db_run E d (Some stmt))) stmts db.

Definition executeData (stmts : list string) : M unit :=
  modify (fun s => match dbRef s with
                   | None => s
                   | Some db => set_dbRef (Some (applyData db stmts)) s
                   end).

Definition is_sqlite_sequence (tableName : option sqlval) : bool :=
  match tableName with
  | Some (SqlText n) => String.eqb n "sqlite_sequence"
  | _ => false
  end.

Definition previewQuery (tableName : option sqlval) : string :=
  ("SELECT * FROM " ++ sqlval_text tableName ++ " LIMIT 5")%string.

Fixpoint previewTables (tables : list (list sqlval))
         (previews : list (string * list jsobj)) (db : DB E)
  : outcome (list (string * list jsobj)) * DB E :=
  match tables with
  | [] => (Returned previews, db)
  | row :: rest =>
      let tableName := hd_error row in
      if is_sqlite_sequence tableName then previewTables rest previews db
      else match exec (Some (previewQuery tableName)) db with
           | (Returned res, db') =>
               previewTables rest
                 (previews_set previews (sqlval_text tableName) (parseSqlResult res))
                 db'
           | (Threw msg, db') => (Threw msg, db')
           end
  end.

Definition loadPreviews (db : DB E)
  : outcome (list (string * list jsobj)) * DB E :=
  match exec (Some "SELECT name FROM sqlite_master WHERE type='table'") db with
  | (Returned [], db') => (Returned [], db')
  | (Returned (r :: _), db') => previewTables (values r) [] db'
  | (Threw msg, db') => (Threw msg, db')
  end.

Definition fetchPreviews : M (list (string * list jsobj)) :=
  onDb "exec" loadPreviews.

(** The [try { exec(q.solution_sql) ... } catch { ... }] block shared by
    generateChallenge and handleQuestionChange. *)
Definition computeExpected (q : Question) (s : AppState) : AppState :=
  match dbRef s with
  | None =>
      set_expectedError (Some (null_read "exec")) (set_expectedResult None s)
  | Some db =>
      let (r, db') := exec (solution_sql q) db in
      let s' := set_dbRef (Some db') s in
      match r with
      | Returned res =>
          set_expectedError None
            (set_expectedResult (Some (parseSqlResult res)) s')
      | Threw msg =>
          set_expectedError (Some msg) (set_expectedResult None s')
      end
  end.

(** What the block above leaves in [dbRef], [expectedResult] and
    [expectedError], given the content of [dbRef]. *)
Definition referenceRun (q : Question) (d : option (DB E))
  : option (DB E) * option (list jsobj) * option string :=
  match d with
  | None => (None, None, Some (null_read "exec"))
  | Some db =>
      let (r, db') := exec (solution_sql q) db in
      match r with
      | Returned res => (Some db', Some (parseSqlResult res), None)
      | Threw msg => (Some db', None, Some msg)
      end
  end.

Definition resetSession (s : AppState) : AppState :=
  set_userQuery ""
    (set_feedback None
       (set_queryResult None
          (set_expectedError None
             (set_expectedResult None
                (set_tablePreviews []
                   (set_currentQIndex 0
                      (set_challenge None
                         (set_isLoading true s)))))))).

Definition readyMessage (m : Mode) : string :=
  if Mode_eqb m company then "Interview Loop Ready!" else "Challenge generated!".

(** Lines 222-269: everything after the document has been parsed and
    normalised. *)
Definition loadChallenge (m : Mode) (challengeData : ChallengeDoc) : M unit :=
  modify (fun s => if sqlJsRef s then set_dbRef (Some (newDatabase E)) s else s) ;;;
  onDb "run" (run (schema_sql challengeData)) ;;;
  stmts <- match data_sql challengeData with
           | Some d => ret (insertStmts d)
           | None => throw (undefined_read "split")
           end ;;
  executeData stmts ;;;
  previews <- fetchPreviews ;;
  modify (set_tablePreviews previews) ;;;
  modify (set_challenge (Some challengeData)) ;;;
  match questions challengeData with
  | None => throw (undefined_read "length")
  | Some [] => ret tt
  | Some (firstQ :: _) => modify (computeExpected firstQ)
  end ;;;
  modify (set_userQuery "SELECT * FROM ...") ;;;
  modify (set_feedback (Some (mkFeedback success (readyMessage m)))).

Definition generateBody (m : Mode) (reply : Reply) : M unit :=
  text <- lift (reply_text reply) ;;
  parsed <- lift (JSON_parse (cleanJson text)) ;;
  loadChallenge m (normalizeChallenge parsed).

Definition generateChallenge (reply : Reply) (s : AppState) : AppState :=
  if Mode_eqb (mode s) manual && String.eqb (topic s) ""
  then set_feedback (Some (mkFeedback error "Please enter a topic.")) s
  else if Mode_eqb (mode s) company && String.eqb (companyName s) ""
  then set_feedback (Some (mkFeedback error "Please enter a company name.")) s
  else
    let (r, s') := generateBody (mode s) reply (resetSession s) in
    set_isLoading false
      (match r with
       | Returned _ => s'
       | Threw msg =>
           set_feedback
             (Some (mkFeedback error ("Generation failed: " ++ msg)%string)) s'
       end).

(** ** handleQuestionChange *)

Definition nth_question (qs : list Question) (i : Z) : option Question :=
  if (i <? 0)%Z then None else nth_error qs (Z.to_nat i).

Definition handleQuestionChange (newIndex : Z) (s : AppState) : AppState :=
  match challenge s with
  | None => s
  | Some ch =>
      match questions ch with
      | None => s
      | Some qs =>
          if (newIndex <? 0)%Z || (newIndex >=? Z.of_nat (List.length qs))%Z
          then s
          else
            let s1 :=
              set_activeTab editor
                (set_feedback None
                   (set_queryResult None
                      (set_userQuery "SELECT * FROM ..."
                         (set_currentQIndex newIndex s)))) in
            match nth_question qs newIndex with
            | Some newQ => computeExpected newQ s1
            | None =>
                set_expectedError (Some (undefined_read "solution_sql"))
                  (set_expectedResult None s1)
            end
      end
  end.

(** ** handleRunQuery *)

Definition correctMessage : string :=
  "🎉 Correct! Your output matches the solution.".
Definition incorrectMessage : string :=
  "❌ Incorrect. Output differs from the expected solution.".

(** [userStr === solStr]. When executeSql handed back an error object
    whose message is empty, [result.data] is undefined and so is its JSON
    text, which equals no string. *)
Definition same_text (data : option (list jsobj)) (solutionData : list jsobj)
  : bool :=
  match data with
  | Some d => results_match d solutionData
  | None => false
  end.

Definition validate (currentQ : option Question) (data : option (list jsobj))
           (s : AppState) : AppState :=
  match currentQ, dbRef s with
  | Some q, Some db =>
      let (r, db') := exec (solution_sql q) db in
      let s' := set_dbRef (Some db') s in
      match r with
      | Returned solutionRes =>
          if same_text data (parseSqlResult solutionRes)
          then set_feedback (Some (mkFeedback success correctMessage)) s'
          else set_feedback (Some (mkFeedback error incorrectMessage)) s'
      | Threw _ =>
          set_feedback
            (Some (mkFeedback error "Could not validate. Check logic manually.")) s'
      end
  | _, _ =>
      set_feedback
        (Some (mkFeedback error "Could not validate. Check logic manually.")) s
  end.

Definition handleRunQuery (s : AppState) : AppState :=
  match challenge s with
  | None => s
  | Some ch =>
      match questions ch with
      | None => s
      | Some qs =>
          let currentQ := nth_question qs (currentQIndex s) in
          match executeSql (userQuery s) s with
          | (inl err, s1) =>
              if String.eqb err ""
              then validate currentQ None (set_queryResult None s1)
              else
                set_queryResult None
                  (set_feedback
                     (Some (mkFeedback error ("SQL Error: " ++ err)%string)) s1)
          | (inr data, s1) =>
              validate currentQ (Some data) (set_queryResult (Some data) s1)
          end
      end
  end.

(** ** The render *)

(** Line 359: [challenge ? challenge.questions[currentQIndex] : null]. *)
Definition currentQuestion (s : AppState) : outcome (option Question) :=
  match challenge s with
  | None => Returned None
  | Some ch =>
      match questions ch with
      | None =>
          Threw (undefined_read
                   (NilZero.string_of_int (Z.to_int (currentQIndex s))))
      | Some qs => Returned (nth_question qs (currentQIndex s))
      end
  end.

(** ** Vocabulary for the statements about generateChallenge *)

(** Neither of the two input checks at the top of generateChallenge
    rejects the request. *)
Definition inputsComplete (s : AppState) : bool :=
  negb (Mode_eqb (mode s) manual && String.eqb (topic s) "")
  && negb (Mode_eqb (mode s) company && String.eqb (companyName s) "").

(** The database the schema is run on: a new one when sql.js is loaded. *)
Definition databaseForLoad (s : AppState) : option (DB E) :=
  if sqlJsRef s then Some (newDatabase E) else dbRef s.

Definition failedWith (msg : string) (s : AppState) : Prop :=
  feedback s = Some (mkFeedback error ("Generation failed: " ++ msg)%string).

Definition succeeded (s : AppState) : Prop :=
  exists msg, feedback s = Some (mkFeedback success msg).

(** The three ways a generation attempt fails that the specification
    names: the proxy call, the parse, the schema. *)
Inductive earlyFailure (reply : Reply) (s : AppState) : string -> Prop :=
| generation_fails msg :
    reply_text reply = Threw msg ->
    earlyFailure reply s msg
| parsing_fails text msg :
    reply_text reply = Returned text ->
    JSON_parse (cleanJson text) = Threw msg ->
    earlyFailure reply s msg
| schema_fails text parsed db msg db' :
    reply_text reply = Returned text ->
    JSON_parse (cleanJson text) = Returned parsed ->
    databaseForLoad s = Some db ->
    db_run E db (schema_sql (normalizeChallenge parsed)) = (Some msg, db') ->
    earlyFailure reply s msg.

(** The database a document builds when loaded into [db]: schema, data,
    preview queries, first reference solution. *)
Definition builtFrom (db : DB E) (doc : ChallengeDoc) (d : string) : DB E :=
  let db1 := snd (db_run E db (schema_sql doc)) in
  let db2 := applyData db1 (insertStmts d) in
  let db3 := snd (loadPreviews db2) in
  match questions doc with
  | Some (firstQ :: _) => snd (exec (solution_sql firstQ) db3)
  | _ => db3
  end.

(** The verdict the specification describes: the user's rows compared
    with the reference rows computed on the database as it is before the
    user's query runs. *)
Definition verdictAgainstPriorState (s : AppState) : option bool :=
  match challenge s, dbRef s with
  | Some ch, Some db =>
      match questions ch with
      | Some qs =>
          match nth_question qs (currentQIndex s) with
          | Some q =>
              match exec (solution_sql q) db, exec (Some (userQuery s)) db with
              | (Returned sol, _), (Returned res, _) =>
                  Some (results_match (parseSqlResult res) (parseSqlResult sol))
              | _, _ => None
              end
          | None => None
          end
      | None => None
      end
  | _, _ => None
  end.

Definition engineConsistent (s : AppState) : Prop :=
  dbRef s <> None -> sqlJsRef s = true.

(** ** What can happen to a session *)

Inductive Action : Type :=
| EngineInit (o : EngineLoad)
| SetApiKey (v : string)
| SetMode (v : Mode)
| SetTopic (v : string)
| SetCompanyName (v : string)
| SetDifficulty (v : string)
| SetUserQuery (v : string)
| SetActiveTab (v : Tab)
| SetShowApiKey (v : bool)
| Generate (reply : Reply)
| ChangeQuestion (newIndex : Z)
| RunQuery.

Definition step (a : Action) (s : AppState) : AppState :=
  match a with
  | EngineInit o => initEngine o s
  | SetApiKey v => set_apiKey v s
  | SetMode v => set_mode v s
  | SetTopic v => set_topic v s
  | SetCompanyName v => set_companyName v s
  | SetDifficulty v => set_difficulty v s
  | SetUserQuery v => set_userQuery v s
  | SetActiveTab v => set_activeTab v s
  | SetShowApiKey v => set_showApiKey v s
  | Generate reply => generateChallenge reply s
  | ChangeQuestion i => handleQuestionChange i s
  | RunQuery => handleRunQuery s
  end.

Definition run_actions (l : list Action) (s : AppState) : AppState :=
  fold_left (fun st a => step a st) l s.

Inductive reachable : AppState -> Prop :=
| reach_initial : reachable initialState
| reach_step a s : reachable s -> reachable (step a s).

End WithEngine.

Arguments apiKey {E} _.
Arguments set_apiKey {E} v s.
Arguments mode {E} _.
Arguments set_mode {E} v s.
Arguments topic {E} _.
Arguments set_topic {E} v s.
Arguments companyName {E} _.
Arguments set_companyName {E} v s.
Arguments difficulty {E} _.
Arguments set_difficulty {E} v s.
Arguments isLoading {E} _.
Arguments set_isLoading {E} v s.
Arguments isSqlReady {E} _.
Arguments set_isSqlReady {E} v s.
Arguments dbRef {E} _.
Arguments set_dbRef {E} v s.
Arguments sqlJsRef {E} _.
Arguments set_sqlJsRef {E} v s.
Arguments challenge {E} _.
Arguments set_challenge {E} v s.
Arguments currentQIndex {E} _.
Arguments set_currentQIndex {E} v s.
Arguments tablePreviews {E} _.
Arguments set_tablePreviews {E} v s.
Arguments expectedResult {E} _.
Arguments set_expectedResult {E} v s.
Arguments expectedError {E} _.
Arguments set_expectedError {E} v s.
Arguments userQuery {E} _.
Arguments set_userQuery {E} v s.
Arguments queryResult {E} _.
Arguments set_queryResult {E} v s.
Arguments feedback {E} _.
Arguments set_feedback {E} v s.
Arguments activeTab {E} _.
Arguments set_activeTab {E} v s.
Arguments showApiKey {E} _.
Arguments set_showApiKey {E} v s.
Arguments initEngine {E} o s.
Arguments executeSql {E} query s.
Arguments applyData {E} db stmts.
Arguments run {E} sql db.
Arguments exec {E} sql db.
Arguments previewTables {E} tables previews db.
Arguments loadPreviews {E} db.
Arguments computeExpected {E} q s.
Arguments referenceRun {E} q d.
Arguments resetSession {E} s.
Arguments loadChallenge {E} m challengeData _.
Arguments generateBody {E} JSON_parse m reply _.
Arguments generateChallenge {E} JSON_parse reply s.
Arguments handleQuestionChange {E} newIndex s.
Arguments validate {E} currentQ data s.
Arguments handleRunQuery {E} s.
Arguments currentQuestion {E} s.
Arguments inputsComplete {E} s.
Arguments databaseForLoad {E} s.
Arguments failedWith {E} msg s.
Arguments succeeded {E} s.
Arguments earlyFailure {E} JSON_parse reply s _.
Arguments builtFrom {E} db doc d.
Arguments verdictAgainstPriorState {E} s.
Arguments engineConsistent {E} s.
Arguments step {E} JSON_parse a s.
Arguments run_actions {E} JSON_parse l s.
Arguments reachable {E} JSON_parse _.

End SqlPad.

(** * The generation proxy (route.ts) *)

Module Proxy.

Record RequestBody : Type := mkRequestBody {
  prompt : string;
  apiKey : option string
}.

(** The one outgoing request: its URL and the prompt placed in
    [contents[0].parts[0].text]. *)
Record Call : Type := mkCall {
  url : string;
  text : string
}.

Definition endpoint : string :=
  "https://generativelanguage.googleapis.com/v1beta/models/gemini-2.0-flash-exp:generateContent?key=".

Section WithProvider.

Variable Payload : Type.

Record ProviderResponse : Type := mkProviderResponse {
  provider_status : nat;
  json : outcome Payload
}.

(** [response.ok] *)
Definition ok (response : ProviderResponse) : bool :=
  (200 <=? provider_status response)%nat && (provider_status response <=? 299)%nat.

(** The message of the error that the constructor of a response throws
    for a status it cannot carry. *)
Variable statusError : nat -> string.

Variable fetch : Call -> outcome ProviderResponse.

Inductive Body : Type :=
| ErrorBody (message : string)
| Relayed (data : Payload).

Record NextResponse : Type := mkNextResponse {
  status : nat;
  body : Body
}.

Definition null_body_status (status : nat) : bool :=
  existsb (Nat.eqb status) [101; 103; 204; 205; 304]%nat.

(** The statuses that a response with a body may be given. *)
Definition carries_body (status : nat) : bool :=
  (200 <=? status)%nat && (status <=? 599)%nat && negb (null_body_status status).

(** [NextResponse.json(data, { status })] *)
Definition NextResponse_json (data : Payload) (status : nat) : outcome NextResponse :=
  if carries_body status
  then Returned (mkNextResponse status (Relayed data))
  else Threw (statusError status).

Definition keyToUse (apiKey GEMINI_API_KEY : option string) : option string :=
  if truthy apiKey then apiKey else GEMINI_API_KEY.

Definition internalError (msg : string) : NextResponse :=
  mkNextResponse 500
    (ErrorBody (if String.eqb msg "" then "Internal Server Error" else msg)).

Definition missingKey : NextResponse :=
  mkNextResponse 400
    (ErrorBody "API Key is missing. Please provide one or configure the server.").

(** The response, and the requests sent to the AI provider on the way. *)
Definition POST (GEMINI_API_KEY : option string)
           (request_json : outcome RequestBody) : NextResponse * list Call :=
  match request_json with
  | Threw msg => (internalError msg, [])
  | Returned req =>
      let key := keyToUse (apiKey req) GEMINI_API_KEY in
      if negb (truthy key) then (missingKey, [])
      else
        let call :=
          mkCall (endpoint ++ match key with Some k => k | None => "undefined" end)%string
                 (prompt req) in
        match fetch call with
        | Threw msg => (internalError msg, [call])
        | Returned response =>
            match json response with
            | Threw msg => (internalError msg, [call])
            | Returned data =>
                if ok response
                then (mkNextResponse 200 (Relayed data), [call])
                else match NextResponse_json data (provider_status response) with
                     | Returned relayed => (relayed, [call])
                     | Threw msg => (internalError msg, [call])
                     end
            end
        end
  end.

End WithProvider.

Arguments mkProviderResponse {Payload} provider_status json.
Arguments ok {Payload} _.
Arguments NextResponse_json {Payload} statusError data status.
Arguments provider_status {Payload} _.
Arguments json {Payload} _.
Arguments mkNextResponse {Payload} status body.
Arguments status {Payload} _.
Arguments body {Payload} _.
Arguments ErrorBody {Payload} message.
Arguments Relayed {Payload} data.
Arguments POST {Payload} statusError fetch GEMINI_API_KEY request_json.
Arguments missingKey {Payload}.
Arguments internalError {Payload} msg.

End Proxy.

(** * The Python pad *)

Module PythonPad.

Record Dataset : Type := mkDataset {
  id : string;
  name : string;
  url : string;
  description : string
}.

Definition DATASETS : list Dataset :=
  [ mkDataset "titanic" "Titanic Survival"
      "https://raw.githubusercontent.com/datasciencedojo/datasets/master/titanic.csv"
      "Predict survival on the Titanic based on passenger demographics.";
    mkDataset "housing" "California Housing"
      "https://raw.githubusercontent.com/ageron/handson-ml/master/datasets/housing/housing.csv"
      "Predict median house values in California districts.";
    mkDataset "iris" "Iris Flowers"
      "https://raw.githubusercontent.com/mwaskom/seaborn-data/master/iris.csv"
      "Classify iris flowers into three species." ].

Record Challenge : Type := mkChallenge {
  title : string;
  dataset_description : string;
  task_details : string;
  question : string;
  starter_code : string;
  solution_code : string;
  explanation : string
}.

Inductive Tab : Type := editor | solution.

(** The Pyodide interpreter. *)
Record Runtime : Type := mkRuntime {
  Py : Type;
  runPythonAsync : Py -> string -> outcome string * Py;
  FS_writeFile : Py -> string -> string -> option string * Py
}.

Definition resetStdout : string :=
  ("import sys" ++ nl ++ "import io" ++ nl ++ "sys.stdout = io.StringIO()" ++ nl
     ++ "plt.clf() # Clear previous plots")%string.

Definition plotCheckCode : string :=
  ("img_str = " ++ String Json.dquote (String Json.dquote "") ++ nl
     ++ "if plt.get_fignums():" ++ nl
     ++ "    buf = io.BytesIO()" ++ nl
     ++ "    plt.savefig(buf, format='png')" ++ nl
     ++ "    buf.seek(0)" ++ nl
     ++ "    img_str = base64.b64encode(buf.read()).decode('utf-8')" ++ nl
     ++ "img_str")%string.

Section WithRuntime.

Variable R : Runtime.
Variable JSON_parse : string -> outcome Challenge.

Record PadState : Type := mkPadState {
  apiKey : string;
  pyodide : option (Py R);
  isEnvReady : bool;
  envLoadingText : string;
  selectedDataset : string;
  selectedStage : string;
  challenge : option Challenge;
  userCode : string;
  output : string;
  plotImage : option string;
  isRunning : bool;
  isGenerating : bool;
  activeTab : Tab;
  showApiKey : bool
}.

Definition set_pyodide (v : option (Py R)) (s : PadState) : PadState :=
  mkPadState (apiKey s) v (isEnvReady s) (envLoadingText s) (selectedDataset s) (selectedStage s) (challenge s) (userCode s) (output s) (plotImage s) (isRunning s) (isGenerating s) (activeTab s) (showApiKey s).
Definition set_challenge (v : option Challenge) (s : PadState) : PadState :=
  mkPadState (apiKey s) (pyodide s) (isEnvReady s) (envLoadingText s) (selectedDataset s) (selectedStage s) v (userCode s) (output s) (plotImage s) (isRunning s) (isGenerating s) (activeTab s) (showApiKey s).
Definition set_userCode (v : string) (s : PadState) : PadState :=
  mkPadState (apiKey s) (pyodide s) (isEnvReady s) (envLoadingText s) (selectedDataset s) (selectedStage s) (challenge s) v (output s) (plotImage s) (isRunning s) (isGenerating s) (activeTab s) (showApiKey s).
Definition set_output (v : string) (s : PadState) : PadState :=
  mkPadState (apiKey s) (pyodide s) (isEnvReady s) (envLoadingText s) (selectedDataset s) (selectedStage s) (challenge s) (userCode s) v (plotImage s) (isRunning s) (isGenerating s) (activeTab s) (showApiKey s).
Definition set_plotImage (v : option string) (s : PadState) : PadState :=
  mkPadState (apiKey s) (pyodide s) (isEnvReady s) (envLoadingText s) (selectedDataset s) (selectedStage s) (challenge s) (userCode s) (output s) v (isRunning s) (isGenerating s) (activeTab s) (showApiKey s).
Definition set_isRunning (v : bool) (s : PadState) : PadState :=
  mkPadState (apiKey s) (pyodide s) (isEnvReady s) (envLoadingText s) (selectedDataset s) (selectedStage s) (challenge s) (userCode s) (output s) (plotImage s) v (isGenerating s) (activeTab s) (showApiKey s).
Definition set_isGenerating (v : bool) (s : PadState) : PadState :=
  mkPadState (apiKey s) (pyodide s) (isEnvReady s) (envLoadingText s) (selectedDataset s) (selectedStage s) (challenge s) (userCode s) (output s) (plotImage s) (isRunning s) v (activeTab s) (showApiKey s).
Definition set_activeTab (v : Tab) (s : PadState) : PadState :=
  mkPadState (apiKey s) (pyodide s) (isEnvReady s) (envLoadingText s) (selectedDataset s) (selectedStage s) (challenge s) (userCode s) (output s) (plotImage s) (isRunning s) (isGenerating s) v (showApiKey s).

Definition loadDatasetToPython (dataset : Dataset) (csv : outcome string)
           (s : PadState) : PadState :=
  match pyodide s with
  | None => s
  | Some py =>
      match csv with
      | Threw msg => set_output ("Error loading dataset: " ++ msg)%string s
      | Returned csvText =>
          let (e, py') := FS_writeFile R py (id dataset ++ ".csv")%string csvText in
          let s' := set_pyodide (Some py') s in
          match e with
          | Some msg => set_output ("Error loading dataset: " ++ msg)%string s'
          | None => s'
          end
      end
  end.

Definition generateChallenge (csv : outcome string) (reply : Reply)
           (s : PadState) : PadState :=
  let s0 :=
    set_activeTab editor
      (set_plotImage None
         (set_output ""
            (set_challenge None (set_isGenerating true s)))) in
  let s1 :=
    match find (fun d => String.eqb (id d) (selectedDataset s)) DATASETS with
    | Some dataset => loadDatasetToPython dataset csv s0
    | None => s0
    end in
  let parsed :=
    match reply_text reply with
    | Threw msg => Threw msg
    | Returned text =>
        JSON_parse
          (string_of_list_ascii
             (trim (replace_all re_fence [] (list_ascii_of_string text))))
    end in
  set_isGenerating false
    (match parsed with
     | Returned json => set_userCode (starter_code json) (set_challenge (Some json) s1)
     | Threw msg => set_output ("Generation Error: " ++ msg)%string s1
     end).

Definition handleRunCode (s : PadState) : PadState :=
  match pyodide s with
  | None => s
  | Some py =>
      let s0 := set_plotImage None (set_output "" (set_isRunning true s)) in
      set_isRunning false
        (match runPythonAsync R py resetStdout with
         | (Threw msg, py1) =>
             set_output ("Traceback:" ++ nl ++ msg)%string (set_pyodide (Some py1) s0)
         | (Returned _, py1) =>
             match runPythonAsync R py1 (userCode s) with
             | (Threw msg, py2) =>
                 set_output ("Traceback:" ++ nl ++ msg)%string
                   (set_pyodide (Some py2) s0)
             | (Returned _, py2) =>
                 match runPythonAsync R py2 "sys.stdout.getvalue()" with
                 | (Threw msg, py3) =>
                     set_output ("Traceback:" ++ nl ++ msg)%string
                       (set_pyodide (Some py3) s0)
                 | (Returned stdout, py3) =>
                     let s1 := set_output stdout (set_pyodide (Some py3) s0) in
                     match runPythonAsync R py3 plotCheckCode with
                     | (Threw msg, py4) =>
                         set_output ("Traceback:" ++ nl ++ msg)%string
                           (set_pyodide (Some py4) s1)
                     | (Returned plotCheck, py4) =>
                         let s2 := set_pyodide (Some py4) s1 in
                         if String.eqb plotCheck "" then s2
                         else set_plotImage
                                (Some ("data:image/png;base64," ++ plotCheck)%string) s2
                     end
                 end
             end
         end)
  end.

End WithRuntime.

Arguments apiKey {R} _.
Arguments pyodide {R} _.
Arguments isEnvReady {R} _.
Arguments envLoadingText {R} _.
Arguments selectedDataset {R} _.
Arguments selectedStage {R} _.
Arguments challenge {R} _.
Arguments userCode {R} _.
Arguments output {R} _.
Arguments plotImage {R} _.
Arguments isRunning {R} _.
Arguments isGenerating {R} _.
Arguments activeTab {R} _.
Arguments showApiKey {R} _.
Arguments set_challenge {R} v s.
Arguments set_userCode {R} v s.
Arguments set_output {R} v s.
Arguments set_plotImage {R} v s.
Arguments set_isRunning {R} v s.
Arguments set_isGenerating {R} v s.
Arguments set_activeTab {R} v s.
Arguments set_pyodide {R} v s.
Arguments loadDatasetToPython {R} dataset csv s.
Arguments generateChallenge {R} JSON_parse csv reply s.
Arguments handleRunCode {R} s.

End PythonPad.

(** * Stand-ins for the external collaborators, used in the examples *)

Module Toy.

(** A database with at most one table [t(a INT)]. *)
Definition db : Type := option (list Z).

Definition select (rows : list Z) : list QueryResult :=
  match rows with
  | [] => []
  | _ :: _ => [mkQueryResult ["a"] (map (fun n => [SqlNum (integer n)]) rows)]
  end.

(** The statements the table understands. *)
Definition on_table (rows : list Z) (q : string)
  : option (list QueryResult * list Z) :=
  if String.eqb q "INSERT INTO t VALUES (1)" then Some ([], rows ++ [1%Z])
  else if String.eqb q "INSERT INTO t VALUES (2)" then Some ([], rows ++ [2%Z])
  else if String.eqb q "INSERT INTO t VALUES (3)" then Some ([], rows ++ [3%Z])
  else if String.eqb q "DELETE FROM t" then Some ([], [])
  else if String.eqb q "SELECT a FROM t" then Some (select rows, rows)
  else if String.eqb q "SELECT * FROM t LIMIT 5" then Some (select (firstn 5 rows), rows)
  else None.

Definition statement (d : db) (sql : option string)
  : outcome (list QueryResult) * db :=
  match sql with
  | None => (Returned [], d)
  | Some q =>
      let q' := string_of_list_ascii (trim (list_ascii_of_string q)) in
      if String.eqb q' "CREATE TABLE t(a INT)" then
        match d with
        | None => (Returned [], Some [])
        | Some _ => (Threw "table t already exists", d)
        end
      else if String.eqb q' "SELECT name FROM sqlite_master WHERE type='table'" then
        match d with
        | None => (Returned [], d)
        | Some _ => (Returned [mkQueryResult ["name"] [[SqlText "t"]]], d)
        end
      else
        match on_table [] q', d with
        | None, _ => (Threw "syntax error", d)
        | Some _, None => (Threw "no such table: t", d)
        | Some _, Some rows =>
            match on_table rows q' with
            | Some (res, rows') => (Returned res, Some rows')
            | None => (Threw "syntax error", d)
            end
        end
  end.

Definition sqljs : Engine :=
  mkEngine db None
    (fun d sql => match statement d sql with
                  | (Returned _, d') => (None, d')
                  | (Threw msg, d') => (Some msg, d')
                  end)
    statement.

Definition allRows : Question :=
  mkQuestion (Some "All rows") (Some "Easy") (Some ["select"])
             (Some "Return every value of a.") (Some "SELECT a FROM t")
             (Some "A plain projection.").

Definition noFlat : Question := mkQuestion None None None None None None.

Definition docA : ChallengeDoc :=
  mkChallengeDoc (Some "CREATE TABLE t(a INT)")
    (Some "INSERT INTO t VALUES (1); INSERT INTO t VALUES (oops); INSERT INTO t VALUES (2)")
    (Some [allRows]) noFlat.

Definition docB : ChallengeDoc :=
  mkChallengeDoc (Some "CREATE TABLE t(a INT)")
    (Some "INSERT INTO t VALUES (3)")
    (Some [allRows]) noFlat.

Definition docBadSchema : ChallengeDoc :=
  mkChallengeDoc (Some "CREATE TABEL t(a INT)")
    (Some "INSERT INTO t VALUES (3)")
    (Some [allRows]) noFlat.

Definition docEmptyQuestion : ChallengeDoc :=
  mkChallengeDoc (Some "CREATE TABLE t(a INT)") (Some "INSERT INTO t VALUES (1)") None
    (mkQuestion (Some "All rows") (Some "Easy") None (Some "")
                (Some "SELECT a FROM t") None).

Definition docFlat : ChallengeDoc :=
  mkChallengeDoc (Some "CREATE TABLE t(a INT)") (Some "INSERT INTO t VALUES (1)") None
    (mkQuestion (Some "All rows") (Some "Easy") None (Some "Return every value of a.")
                (Some "SELECT a FROM t") None).

(** [JSON.parse] on the few texts the examples use. *)
Definition parse (text : string) : outcome ChallengeDoc :=
  if String.eqb text "{A}" then Returned docA
  else if String.eqb text "{B}" then Returned docB
  else if String.eqb text "{bad schema}" then Returned docBadSchema
  else Threw "Unexpected token".

(** An interpreter that remembers assigned names and written files. *)
Record py : Type := mkPy {
  globals : list string;
  files : list string
}.

Definition pyodide : PythonPad.Runtime :=
  PythonPad.mkRuntime py
    (fun p code =>
       if String.eqb code "x = 1"
       then (Returned "", mkPy ("x" :: globals p) (files p))
       else (Returned "", p))
    (fun p path _ => (None, mkPy (globals p) (path :: files p))).

Definition exercise : PythonPad.Challenge :=
  PythonPad.mkChallenge "Missing values" "Passengers of the Titanic."
    "Count the missing values per column." "How many values are missing?"
    "import pandas as pd" "print(df.isna().sum())" "isna marks missing cells.".

Definition parsePy (text : string) : outcome PythonPad.Challenge :=
  if String.eqb text "{exercise}" then Returned exercise
  else Threw "Unexpected token".

(** A session with challenge A loaded. *)
Definition loaded : SqlPad.AppState sqljs :=
  SqlPad.run_actions parse
    [SqlPad.EngineInit SqlPad.EngineLoaded; SqlPad.SetTopic "joins";
     SqlPad.Generate (CandidateText (fenced "{A}"))]
    (SqlPad.initialState sqljs).

Definition padStart : PythonPad.PadState pyodide :=
  PythonPad.mkPadState pyodide "" (Some (mkPy [] [])) true "Ready"
    "titanic" "Exploratory Data Analysis (EDA)" None "" "" None false false
    PythonPad.editor true.

(** Challenge A generated, [x = 1] typed and run, challenge B generated. *)
Definition padAfterSecondChallenge : PythonPad.PadState pyodide :=
  PythonPad.generateChallenge parsePy (Returned "PassengerId,Survived")
    (CandidateText (fenced "{exercise}"))
    (PythonPad.handleRunCode
       (PythonPad.set_userCode "x = 1"
          (PythonPad.generateChallenge parsePy (Returned "PassengerId,Survived")
             (CandidateText (fenced "{exercise}")) padStart))).

End Toy.

(** A second stand-in for sql.js: one table [t(a TEXT)] of notes. *)
Module Notes.

Definition db : Type := option (list string).

Definition opening : string := "INSERT INTO t VALUES ('".
Definition closing : string := "')".

(** The note an insert statement holds: the text between the opening and
    the closing of the statement, which must hold no quote. *)
Definition inserted (q : string) : option string :=
  let inner :=
    (String.length q - String.length opening - String.length closing)%nat in
  let note := substring (String.length opening) inner q in
  if String.prefix opening q
     && (String.length opening + String.length closing <=? String.length q)%nat
     && String.eqb (substring (String.length opening + inner)%nat
                              (String.length closing) q) closing
     && negb (existsb (Ascii.eqb "'") (list_ascii_of_string note))
  then Some note
  else None.

Definition select (rows : list string) : list QueryResult :=
  match rows with
  | [] => []
  | _ :: _ => [mkQueryResult ["a"] (map (fun note => [SqlText note]) rows)]
  end.

Definition statement (d : db) (sql : option string)
  : outcome (list QueryResult) * db :=
  match sql with
  | None => (Returned [], d)
  | Some q =>
      let q' := string_of_list_ascii (trim (list_ascii_of_string q)) in
      if String.eqb q' "CREATE TABLE t(a TEXT)" then
        match d with
        | None => (Returned [], Some [])
        | Some _ => (Threw "table t already exists", d)
        end
      else if String.eqb q' "SELECT name FROM sqlite_master WHERE type='table'" then
        match d with
        | None => (Returned [], d)
        | Some _ => (Returned [mkQueryResult ["name"] [[SqlText "t"]]], d)
        end
      else if String.eqb q' "SELECT a FROM t" || String.eqb q' "SELECT * FROM t LIMIT 5" then
        match d with
        | None => (Threw "no such table: t", d)
        | Some rows => (Returned (select (firstn 5 rows)), d)
        end
      else
        match inserted q', d with
        | None, _ => (Threw "syntax error", d)
        | Some _, None => (Threw "no such table: t", d)
        | Some note, Some rows => (Returned [], Some (rows ++ [note]))
        end
  end.

Definition sqljs : Engine :=
  mkEngine db None
    (fun d sql => match statement d sql with
                  | (Returned _, d') => (None, d')
                  | (Threw msg, d') => (Some msg, d')
                  end)
    statement.

Definition allNotes : Question :=
  mkQuestion (Some "All notes") (Some "Easy") (Some ["select"])
             (Some "Return every note.") (Some "SELECT a FROM t")
             (Some "A plain projection.").

(** Two valid insert statements; the note of the first holds a semicolon. *)
Definition twoNotes : string :=
  "INSERT INTO t VALUES ('a;b'); INSERT INTO t VALUES ('c')".

Definition docNotes : ChallengeDoc :=
  mkChallengeDoc (Some "CREATE TABLE t(a TEXT)") (Some twoNotes)
    (Some [allNotes]) Toy.noFlat.

Definition parse (text : string) : outcome ChallengeDoc :=
  if String.eqb text "{notes}" then Returned docNotes
  else Threw "Unexpected token".

(** The session in which the document is asked for. *)
Definition ready : SqlPad.AppState sqljs :=
  SqlPad.run_actions parse
    [SqlPad.EngineInit SqlPad.EngineLoaded; SqlPad.SetTopic "notes"]
    (SqlPad.initialState sqljs).

End Notes.


(** * Reading a row object *)

(** The property of its own that [o] has under the key [k], if any. *)
Fixpoint obj_get {V} (o : list (string * V)) (k : string) : option V :=
  match o with
  | [] => None
  | (k', v) :: o' => if String.eqb k' k then Some v else obj_get o' k
  end.

(** [Object.keys(o)], for properties that hold a value. *)
Definition obj_keys {V} (o : list (string * V)) : list string := map fst o.

(** * What holds in every session *)

(** The properties of a session state that every handler keeps. *)
Definition sessionInvariant {E : Engine} (s : SqlPad.AppState E) : Prop :=
  (SqlPad.expectedResult s = None \/ SqlPad.expectedError s = None)
  /\ (SqlPad.isSqlReady s = true ->
      SqlPad.dbRef s <> None /\ SqlPad.sqlJsRef s = true)
  /\ (forall ch qs,
         SqlPad.challenge s = Some ch -> questions ch = Some qs -> qs <> [] ->
         (0 <= SqlPad.currentQIndex s < Z.of_nat (List.length qs))%Z)
  /\ (SqlPad.challenge s = None ->
      SqlPad.tablePreviews s = [] /\ SqlPad.expectedResult s = None
      /\ SqlPad.expectedError s = None /\ SqlPad.queryResult s = None
      /\ SqlPad.currentQIndex s = 0%Z)
  /\ (forall ch, SqlPad.challenge s = Some ch -> normalizeChallenge ch = ch)
  /\ obj_has (SqlPad.tablePreviews s) "sqlite_sequence" = false.

(** * More documents and sessions for the examples *)

Module ToyMore.

Definition docNoQuestions : ChallengeDoc :=
  mkChallengeDoc (Some "CREATE TABLE t(a INT)") (Some "INSERT INTO t VALUES (1)")
    None Toy.noFlat.

Definition docNoData : ChallengeDoc :=
  mkChallengeDoc (Some "CREATE TABLE t(a INT)") None (Some [Toy.allRows]) Toy.noFlat.

Definition badSolution : Question :=
  mkQuestion (Some "Broken") (Some "Easy") (Some []) (Some "Return every value of a.")
             (Some "SELECT nothing") None.

Definition docBadSolution : ChallengeDoc :=
  mkChallengeDoc (Some "CREATE TABLE t(a INT)") (Some "INSERT INTO t VALUES (1)")
    (Some [badSolution]) Toy.noFlat.

Definition parse (text : string) : outcome ChallengeDoc :=
  if String.eqb text "{no questions}" then Returned docNoQuestions
  else if String.eqb text "{no data}" then Returned docNoData
  else if String.eqb text "{bad solution}" then Returned docBadSolution
  else Toy.parse text.

(** A session that shows the challenge whose reference solution fails. *)
Definition brokenLoaded : SqlPad.AppState Toy.sqljs :=
  SqlPad.run_actions parse
    [SqlPad.EngineInit SqlPad.EngineLoaded; SqlPad.SetMode SqlPad.auto;
     SqlPad.Generate (CandidateText "{bad solution}");
     SqlPad.SetUserQuery "SELECT a FROM t"]
    (SqlPad.initialState Toy.sqljs).

(** An interpreter in which dividing by zero raises. *)
Definition pyodideRaising : PythonPad.Runtime :=
  PythonPad.mkRuntime Toy.py
    (fun p code =>
       if String.eqb code "1/0"
       then (Threw "ZeroDivisionError: division by zero", p)
       else (Returned "", p))
    (fun p path _ => (None, Toy.mkPy (Toy.globals p) (path :: Toy.files p))).

Definition padDividing : PythonPad.PadState pyodideRaising :=
  PythonPad.mkPadState pyodideRaising "" (Some (Toy.mkPy [] [])) true "Ready"
    "titanic" "Exploratory Data Analysis (EDA)" (Some Toy.exercise) "1/0"
    "" None false false PythonPad.editor true.

End ToyMore.

(** * Proofs *)

(** * Fence stripping *)
Lemma is_ws_backtick : is_ws "`" = false.
Proof. reflexivity. Qed.

Lemma drop_ws_app_l (w s : text) :
  drop_ws w = [] -> drop_ws (w ++ s) = drop_ws s.
Proof.
  induction w as [|c w IH]; simpl; [reflexivity|].
  destruct (is_ws c); [exact IH | discriminate].
Qed.

Lemma drop_ws_app_r (s r : text) :
  drop_ws s <> [] -> drop_ws (s ++ r) = drop_ws s ++ r.
Proof.
  induction s as [|c s IH]; simpl; [congruence|].
  destruct (is_ws c); [exact IH | reflexivity].
Qed.

Lemma drop_ws_idem (s : text) : drop_ws (drop_ws s) = drop_ws s.
Proof.
  induction s as [|c s IH]; simpl; [reflexivity|].
  destruct (is_ws c) eqn:E; [exact IH | simpl; now rewrite E].
Qed.

Lemma drop_ws_length (s : text) : List.length (drop_ws s) <= List.length s.
Proof.
  induction s as [|c s IH]; simpl; [lia|].
  destruct (is_ws c); simpl; lia.
Qed.

Lemma skipn_count_ws (s : text) : skipn (count_ws s) s = drop_ws s.
Proof.
  induction s as [|c s IH]; simpl; [reflexivity|].
  destruct (is_ws c); [exact IH | reflexivity].
Qed.

Lemma rtrim_ws (s : text) : drop_ws s = [] -> rtrim s = [].
Proof.
  induction s as [|c s IH]; simpl; [reflexivity|].
  destruct (is_ws c); [|discriminate].
  intros H. now rewrite (IH H).
Qed.

Lemma rtrim_cons (c : ascii) (a b : text) :
  rtrim a = rtrim b -> rtrim (c :: a) = rtrim (c :: b).
Proof. simpl. now intros ->. Qed.

Lemma drop_ws_rtrim (s : text) : rtrim (drop_ws s) = drop_ws (rtrim s).
Proof.
  induction s as [|c s IH]; [reflexivity|].
  cbn [drop_ws]. destruct (is_ws c) eqn:E.
  - rewrite IH. cbn [rtrim]. destruct (rtrim s) as [|d r] eqn:R.
    + now rewrite E.
    + cbn [drop_ws]. now rewrite E.
  - cbn [rtrim]. destruct (rtrim s); rewrite ?E; cbn [drop_ws]; now rewrite E.
Qed.

Lemma starts_with_app (p s : text) :
  starts_with p s = true -> s = p ++ skipn (List.length p) s.
Proof.
  revert s. induction p as [|a p IH]; intros [|b s]; simpl; try easy.
  intros H. apply andb_prop in H as [Hab Hp].
  apply Ascii.eqb_eq in Hab. subst b. f_equal. now apply IH.
Qed.

(** Appending text that begins with a character foreign to the pattern
    neither creates nor destroys a match of the pattern at the head. *)
Lemma starts_with_app_foreign (p s r : text) (d : ascii) :
  ~ In d p ->
  starts_with p (s ++ d :: r) = starts_with p s.
Proof.
  revert s. induction p as [|a p IH]; intros s Hd; [reflexivity|].
  destruct s as [|b s]; simpl.
  - destruct (Ascii.eqb_spec a d) as [->|_]; [|reflexivity].
    exfalso. apply Hd. now left.
  - rewrite IH; [reflexivity|]. intros Hin. apply Hd. now right.
Qed.

Lemma replace_from_skip (k : nat) (s : text) :
  replace_from re_fence [] k s = strip (skipn k s).
Proof.
  revert s. induction k as [|k IH]; intros s; [reflexivity|].
  destruct s as [|c s]; [reflexivity|]. simpl. apply IH.
Qed.

Lemma strip_nil : strip [] = [].
Proof. reflexivity. Qed.

Lemma starts_with_nonempty (p s : text) :
  p <> [] -> starts_with p s = true -> s <> [].
Proof. destruct p, s; simpl; congruence. Qed.

Lemma replace_from_hit re by_ (c : ascii) (s : text) (n : nat) :
  re (c :: s) = Some (S n) ->
  replace_from re by_ 0 (c :: s) = by_ ++ replace_from re by_ n s.
Proof. intros H. simpl. now rewrite H. Qed.

Lemma replace_from_miss re by_ (c : ascii) (s : text) :
  re (c :: s) = None ->
  replace_from re by_ 0 (c :: s) = c :: replace_from re by_ 0 s.
Proof. intros H. simpl. now rewrite H. Qed.

Lemma strip_open (s : text) :
  starts_with fence_open s = true ->
  strip s = strip (drop_ws (skipn 7 s)).
Proof.
  intros H. destruct s as [|c s]; [discriminate|].
  unfold strip, replace_all.
  rewrite (replace_from_hit _ _ _ _ (6 + count_ws (skipn 7 (c :: s)))).
  - rewrite replace_from_skip, <- skipn_count_ws.
    rewrite Nat.add_comm, <- skipn_skipn. reflexivity.
  - unfold re_fence. rewrite H. reflexivity.
Qed.

Lemma strip_close (s : text) :
  starts_with fence_open s = false ->
  starts_with fence_close (drop_ws s) = true ->
  strip s = strip (skipn 3 (drop_ws s)).
Proof.
  intros H1 H2. destruct s as [|c s]; [discriminate|].
  unfold strip, replace_all.
  rewrite (replace_from_hit _ _ _ _ (count_ws (c :: s) + 2)).
  - rewrite replace_from_skip, <- skipn_count_ws.
    rewrite (skipn_skipn 3). 
    replace (3 + count_ws (c :: s)) with (S (count_ws (c :: s) + 2)) by lia.
    reflexivity.
  - unfold re_fence. rewrite H1, H2. f_equal.
    change (List.length fence_close) with 3. lia.
Qed.

Lemma strip_keep (c : ascii) (s : text) :
  starts_with fence_open (c :: s) = false ->
  starts_with fence_close (drop_ws (c :: s)) = false ->
  strip (c :: s) = c :: strip s.
Proof.
  intros H1 H2. unfold strip, replace_all.
  apply replace_from_miss. unfold re_fence. now rewrite H1, H2.
Qed.

Lemma ws_not_backtick (c : ascii) : is_ws c = true -> Ascii.eqb "`" c = false.
Proof.
  intros H. destruct (Ascii.eqb_spec "`" c) as [<-|]; [discriminate|reflexivity].
Qed.

Lemma ws_not_in_fence_open (d : ascii) : is_ws d = true -> ~ In d fence_open.
Proof.
  intros H Hin. simpl in Hin.
  repeat (destruct Hin as [<-|Hin]; [discriminate H|]). exact Hin.
Qed.

Lemma ws_not_in_fence_close (d : ascii) : is_ws d = true -> ~ In d fence_close.
Proof.
  intros H Hin. simpl in Hin.
  repeat (destruct Hin as [<-|Hin]; [discriminate H|]). exact Hin.
Qed.

Lemma open_fails_on_ws (c : ascii) (s : text) :
  is_ws c = true -> starts_with fence_open (c :: s) = false.
Proof.
  intros H. unfold fence_open. cbn [list_ascii_of_string starts_with].
  now rewrite (ws_not_backtick c H).
Qed.

Lemma strip_ws (s : text) : drop_ws s = [] -> strip s = s.
Proof.
  induction s as [|c s IH]; [reflexivity|].
  intros H. pose proof H as H'. simpl in H'.
  destruct (is_ws c) eqn:E; [|discriminate].
  rewrite strip_keep, (IH H'); auto using open_fails_on_ws.
  now rewrite H.
Qed.

Lemma strip_fence_close : strip fence_close = [].
Proof. reflexivity. Qed.

Lemma skipn_app_le {A} (n : nat) (s r : list A) :
  n <= List.length s -> skipn n (s ++ r) = skipn n s ++ r.
Proof.
  intros H. rewrite skipn_app.
  replace (n - List.length s) with 0 by lia. reflexivity.
Qed.

Section ClosingFence.

Variables (d : ascii) (w : text).
Hypothesis d_ws : is_ws d = true.
Hypothesis w_ws : drop_ws w = [].

Let suffix : text := d :: w ++ fence_close.

Lemma drop_ws_suffix : drop_ws suffix = fence_close.
Proof.
  unfold suffix. cbn [drop_ws]. rewrite d_ws.
  now rewrite drop_ws_app_l.
Qed.

Lemma open_with_suffix (s : text) :
  starts_with fence_open (s ++ suffix) = starts_with fence_open s.
Proof. apply starts_with_app_foreign, ws_not_in_fence_open, d_ws. Qed.

Lemma close_with_suffix (s : text) :
  starts_with fence_close (s ++ suffix) = starts_with fence_close s.
Proof. apply starts_with_app_foreign, ws_not_in_fence_close, d_ws. Qed.

Lemma strip_suffix_only : strip suffix = [].
Proof.
  rewrite strip_close.
  - now rewrite drop_ws_suffix.
  - apply (open_with_suffix []).
  - now rewrite drop_ws_suffix.
Qed.

Lemma strip_drop_ws_suffix (s : text) :
  drop_ws s = [] -> strip (drop_ws (s ++ suffix)) = [].
Proof.
  intros H. now rewrite drop_ws_app_l, drop_ws_suffix.
Qed.

(** The closing fence (with the white space before it) only removes
    white space from the end of what the scan produces. *)
Lemma strip_closing_fence (s : text) :
  rtrim (strip (s ++ suffix)) = rtrim (strip s).
Proof.
  remember (List.length s) as n eqn:Hn.
  revert s Hn. induction n as [n IH] using lt_wf_ind. intros s Hn.
  destruct s as [|c s'] eqn:Es.
  { cbn [app]. now rewrite strip_suffix_only. }
  rewrite <- Es in *. assert (Hlen : List.length s = S (List.length s')) by now subst s.
  destruct (starts_with fence_open s) eqn:E1.
  - (* the opening marker matches here *)
    rewrite (strip_open s E1), (strip_open (s ++ suffix))
      by now rewrite open_with_suffix.
    pose proof (starts_with_app _ _ E1) as Hs.
    change (List.length fence_open) with 7 in Hs.
    assert (L7 : 7 <= List.length s).
    { rewrite Hs, length_app. change (List.length fence_open) with 7. lia. }
    rewrite (skipn_app_le 7) by exact L7.
    destruct (drop_ws (skipn 7 s)) as [|x r] eqn:Er.
    + rewrite strip_drop_ws_suffix by exact Er. reflexivity.
    + rewrite drop_ws_app_r by congruence. rewrite Er.
      apply (IH (List.length (x :: r))); [|reflexivity].
      rewrite <- Er. pose proof (drop_ws_length (skipn 7 s)).
      rewrite length_skipn in *. lia.
  - destruct (starts_with fence_close (drop_ws s)) eqn:E2.
    + (* white space followed by a closing marker matches here *)
      assert (Hne : drop_ws s <> []).
      { eapply starts_with_nonempty; [|exact E2]. discriminate. }
      rewrite (strip_close s E1 E2), (strip_close (s ++ suffix));
        rewrite ?open_with_suffix, ?drop_ws_app_r, ?close_with_suffix; auto.
      pose proof (starts_with_app _ _ E2) as Hs.
      change (List.length fence_close) with 3 in Hs.
      assert (L3 : 3 <= List.length (drop_ws s)).
      { rewrite Hs, length_app. change (List.length fence_close) with 3. lia. }
      rewrite (skipn_app_le 3) by exact L3.
      apply (IH (List.length (skipn 3 (drop_ws s)))); [|reflexivity].
      pose proof (drop_ws_length s). rewrite length_skipn. lia.
    + (* no match at this position in the unfenced text *)
      destruct (drop_ws s) as [|x r] eqn:Er.
      * rewrite (strip_ws s Er), (rtrim_ws s Er).
        rewrite strip_close.
        -- now rewrite drop_ws_app_l, drop_ws_suffix.
        -- now rewrite open_with_suffix.
        -- now rewrite drop_ws_app_l, drop_ws_suffix.
      * subst s. cbn [app].
        rewrite strip_keep, (strip_keep c s'); auto.
        -- apply rtrim_cons. apply (IH (List.length s')); [|reflexivity].
           simpl in Hn. lia.
        -- rewrite Er. exact E2.
        -- change (c :: s' ++ suffix) with ((c :: s') ++ suffix).
           now rewrite open_with_suffix.
        -- change (c :: s' ++ suffix) with ((c :: s') ++ suffix).
           rewrite drop_ws_app_r by congruence.
           now rewrite close_with_suffix, Er.
Qed.

End ClosingFence.

(** Leading white space is kept by the scan as long as what follows it is
    not a fence marker. *)
Lemma strip_leading_ws (t : text) :
  starts_with ["`"%char] (drop_ws t) = false ->
  drop_ws (strip t) = drop_ws (strip (drop_ws t)).
Proof.
  induction t as [|c t IH]; [reflexivity|].
  intros H. cbn [drop_ws] in *. destruct (is_ws c) eqn:E; [|reflexivity].
  rewrite strip_keep.
  - cbn [drop_ws]. rewrite E. now apply IH.
  - now apply open_fails_on_ws.
  - cbn [drop_ws]. rewrite E.
    destruct (drop_ws t) as [|x r]; [reflexivity|].
    unfold fence_close. cbn [list_ascii_of_string starts_with] in H |- *.
    destruct (Ascii.eqb "`" x); [discriminate|reflexivity].
Qed.

Lemma list_ascii_of_string_app (a b : string) :
  list_ascii_of_string (a ++ b) = list_ascii_of_string a ++ list_ascii_of_string b.
Proof. induction a as [|c a IH]; simpl; [reflexivity|now rewrite IH]. Qed.

Theorem strip_fenced (w1 w2 t : text) (d : ascii) :
  drop_ws w1 = [] -> is_ws d = true -> drop_ws w2 = [] ->
  starts_with ["`"%char] (drop_ws t) = false ->
  trim (strip (fence_open ++ w1 ++ t ++ d :: w2 ++ fence_close)) = trim (strip t).
Proof.
  intros H1 Hd H2 Ht. unfold trim.
  rewrite strip_open by reflexivity.
  change (skipn 7 (fence_open ++ ?x)) with x.
  rewrite drop_ws_app_l by assumption.
  rewrite (strip_leading_ws t Ht), !drop_ws_rtrim. f_equal.
  destruct (drop_ws t) as [|x r] eqn:Er.
  - now rewrite (strip_drop_ws_suffix d w2 Hd H2 t Er).
  - rewrite drop_ws_app_r by congruence. rewrite Er.
    now apply strip_closing_fence.
Qed.

(** * The JSON text determines the rows *)
Module JsonFacts.
Import Json.

Lemma unescape_escape (c : ascii) (r : text) :
  unescape_head (escape_char c ++ r) = Some (c, r).
Proof. destruct c as [[] [] [] [] [] [] [] []]; reflexivity. Qed.

Lemma escape_char_prefix (c1 c2 : ascii) (r1 r2 : text) :
  escape_char c1 ++ r1 = escape_char c2 ++ r2 -> c1 = c2 /\ r1 = r2.
Proof.
  intros H. pose proof (unescape_escape c1 r1) as E.
  rewrite H, unescape_escape in E. now inversion E.
Qed.

Lemma escape_char_not_dquote (c : ascii) (r r' : text) :
  escape_char c ++ r <> dquote :: r'.
Proof.
  intros H. pose proof (unescape_escape c r) as E.
  rewrite H in E. discriminate E.
Qed.

Lemma escaped_prefix (s1 s2 r1 r2 : text) :
  flat_map escape_char s1 ++ dquote :: r1
  = flat_map escape_char s2 ++ dquote :: r2 ->
  s1 = s2 /\ r1 = r2.
Proof.
  revert s2. induction s1 as [|c1 s1 IH]; intros [|c2 s2]; cbn [flat_map app].
  - now intros [= ->].
  - rewrite <- app_assoc. intros H. symmetry in H.
    now apply escape_char_not_dquote in H.
  - rewrite <- app_assoc. intros H.
    now apply escape_char_not_dquote in H.
  - rewrite <- !app_assoc. intros H.
    apply escape_char_prefix in H as [-> H].
    apply IH in H as [-> ->]. now split.
Qed.

Lemma list_ascii_of_string_inj (a b : string) :
  list_ascii_of_string a = list_ascii_of_string b -> a = b.
Proof.
  intros H. rewrite <- (string_of_list_ascii_of_string a),
    <- (string_of_list_ascii_of_string b). now rewrite H.
Qed.

Lemma quote_prefix (s1 s2 : string) (r1 r2 : text) :
  quote s1 ++ r1 = quote s2 ++ r2 -> s1 = s2 /\ r1 = r2.
Proof.
  unfold quote. cbn [app]. rewrite <- !app_assoc. cbn [app].
  intros [= H]. apply escaped_prefix in H as [H ->].
  split; [now apply list_ascii_of_string_inj | reflexivity].
Qed.

(** *** Numbers *)

Lemma span_unique {A} (P : A -> bool) (l1 l2 r1 r2 : list A) (c1 c2 : A) :
  forallb P l1 = true -> forallb P l2 = true ->
  P c1 = false -> P c2 = false ->
  l1 ++ c1 :: r1 = l2 ++ c2 :: r2 ->
  l1 = l2 /\ c1 :: r1 = c2 :: r2.
Proof.
  revert l2. induction l1 as [|a l1 IH]; intros [|b l2]; cbn [forallb app];
    intros H1 H2 N1 N2 E.
  - now split.
  - injection E as -> _. apply andb_prop in H2 as [H2 _]. congruence.
  - injection E as -> _. apply andb_prop in H1 as [H1 _]. congruence.
  - injection E as -> E. apply andb_prop in H1 as [_ H1].
    apply andb_prop in H2 as [_ H2].
    destruct (IH l2 H1 H2 N1 N2 E) as [-> ?]. now split.
Qed.

Lemma uint_bare_chars (d : Decimal.uint) :
  forallb is_bare_char (list_ascii_of_string (NilEmpty.string_of_uint d)) = true.
Proof. induction d; simpl; auto. Qed.

Lemma uint_zero_bare_chars (d : Decimal.uint) :
  forallb is_bare_char (list_ascii_of_string (NilZero.string_of_uint d)) = true.
Proof. destruct d; try reflexivity; apply uint_bare_chars. Qed.

Lemma digits_bare_chars (p : positive) : forallb is_bare_char (digits p) = true.
Proof. apply uint_zero_bare_chars. Qed.

Lemma exponent_bare_chars (e : Z) : forallb is_bare_char (exponent e) = true.
Proof.
  unfold exponent. cbn [forallb]. rewrite uint_zero_bare_chars.
  now destruct (e <? 0)%Z.
Qed.

Lemma forallb_firstn {A} (P : A -> bool) (n : nat) (l : list A) :
  forallb P l = true -> forallb P (firstn n l) = true.
Proof.
  revert n. induction l as [|a l IH]; intros [|n]; cbn; auto.
  intros H. apply andb_prop in H as [-> H]. now apply IH.
Qed.

Lemma forallb_skipn {A} (P : A -> bool) (n : nat) (l : list A) :
  forallb P l = true -> forallb P (skipn n l) = true.
Proof.
  revert n. induction l as [|a l IH]; intros [|n]; cbn; auto.
  intros H. apply andb_prop in H as [_ H]. now apply IH.
Qed.

Lemma zeros_bare_chars (n : nat) :
  forallb is_bare_char (repeat "0"%char n) = true.
Proof. induction n; cbn; auto. Qed.

Lemma magnitude_bare_chars (s : positive) (n : Z) :
  forallb is_bare_char (magnitude s n) = true.
Proof.
  unfold magnitude. pose proof (digits_bare_chars s) as Hd.
  destruct ((Z.of_nat (List.length (digits s)) <=? n) && (n <=? 21))%Z.
  { now rewrite forallb_app, Hd, zeros_bare_chars. }
  destruct ((0 <? n) && (n <=? 21))%Z.
  { rewrite forallb_app. cbn [forallb].
    now rewrite forallb_firstn, forallb_skipn. }
  destruct ((-6 <? n) && (n <=? 0))%Z.
  { cbn [forallb]. now rewrite forallb_app, Hd, zeros_bare_chars. }
  destruct (digits s) as [|d [|d' rest]]; [reflexivity| |].
  - cbn [forallb] in *. apply andb_prop in Hd as [-> _].
    apply exponent_bare_chars.
  - cbn [forallb] in Hd. apply andb_prop in Hd as [Hd1 Hd2].
    change (forallb is_bare_char (d' :: rest) = true) in Hd2.
    change (forallb is_bare_char
              (([d; "."%char] ++ d' :: rest) ++ exponent (n - 1)) = true).
    rewrite !forallb_app, Hd2, exponent_bare_chars. cbn [forallb].
    rewrite Hd1. reflexivity.
Qed.

Lemma number_bare_chars (x : jsnumber) : forallb is_bare_char (number x) = true.
Proof.
  destruct x as [|neg|neg|[] s n]; try reflexivity; cbn [number Number_toString];
    [cbn [forallb]|]; now rewrite magnitude_bare_chars.
Qed.

(** *** Values, members, objects, arrays *)

Lemma closes_not_bare (c : ascii) : closes c = true -> is_bare_char c = false.
Proof.
  unfold closes. intros H.
  repeat (apply orb_prop in H as [H|H]);
    apply Ascii.eqb_eq in H; subst; reflexivity.
Qed.

Lemma bare_value_chars (v : sqlval) :
  bare v = true -> forallb is_bare_char (value v) = true.
Proof.
  destruct v as [|x|s]; [reflexivity| |discriminate].
  intros _. apply number_bare_chars.
Qed.

Lemma bare_value_not_quote (v : sqlval) (s : string) (c : ascii) (r1 r2 : text) :
  bare v = true -> closes c = true ->
  value v ++ c :: r1 <> quote s ++ r2.
Proof.
  intros Hv Hc E. pose proof (bare_value_chars v Hv) as Hall.
  unfold quote in E. cbn [app] in E.
  destruct (value v) as [|h t]; cbn [app] in E; injection E as -> _.
  - discriminate Hc.
  - cbn [forallb] in Hall. discriminate Hall.
Qed.

Lemma value_prefix (v1 v2 : sqlval) (c1 c2 : ascii) (r1 r2 : text) :
  closes c1 = true -> closes c2 = true ->
  value v1 ++ c1 :: r1 = value v2 ++ c2 :: r2 ->
  value v1 = value v2 /\ c1 :: r1 = c2 :: r2.
Proof.
  intros C1 C2 E.
  destruct (bare v1) eqn:B1, (bare v2) eqn:B2.
  - apply (span_unique is_bare_char) in E;
      auto using bare_value_chars, closes_not_bare.
  - destruct v2 as [| |s2]; try discriminate. cbn [value] in E.
    now apply bare_value_not_quote in E.
  - destruct v1 as [| |s1]; try discriminate. cbn [value] in E.
    symmetry in E. now apply bare_value_not_quote in E.
  - destruct v1 as [| |s1], v2 as [| |s2]; try discriminate. cbn [value] in *.
    apply quote_prefix in E as [-> E]. now split.
Qed.

Lemma member_prefix (m1 m2 : string * sqlval) (c1 c2 : ascii) (r1 r2 : text) :
  closes c1 = true -> closes c2 = true ->
  member m1 ++ c1 :: r1 = member m2 ++ c2 :: r2 ->
  member_text m1 = member_text m2 /\ c1 :: r1 = c2 :: r2.
Proof.
  intros C1 C2. destruct m1 as [k1 v1], m2 as [k2 v2]. unfold member, member_text.
  cbn [fst snd]. rewrite <- !app_assoc. intros E.
  apply quote_prefix in E as [-> E]. cbn [app] in E. injection E as E.
  apply value_prefix in E as [-> E]; auto.
Qed.

Section Joined.

Context {A B : Type} (item : A -> text) (view : A -> B) (close : ascii).
Hypothesis close_closes : closes close = true.
Hypothesis close_not_comma : Ascii.eqb close "," = false.
Hypothesis item_prefix :
  forall a1 a2 c1 c2 r1 r2,
    closes c1 = true -> closes c2 = true ->
    item a1 ++ c1 :: r1 = item a2 ++ c2 :: r2 ->
    view a1 = view a2 /\ c1 :: r1 = c2 :: r2.
Hypothesis item_head :
  forall a r, exists c r', item a ++ r = c :: r' /\ closes c = false.

Lemma join_cons (x : A) (xs : list A) (r : text) :
  exists c r', join item (x :: xs) ++ close :: r = item x ++ c :: r'
               /\ closes c = true
               /\ (xs = [] -> c :: r' = close :: r)
               /\ (xs <> [] -> c :: r' = ","%char :: join item xs ++ close :: r).
Proof.
  destruct xs as [|y ys].
  - exists close, r. cbn [join]. repeat split; auto. congruence.
  - exists ","%char, (join item (y :: ys) ++ close :: r).
    change (join item (x :: y :: ys))
      with (item x ++ ","%char :: join item (y :: ys)).
    rewrite <- app_assoc. cbn [app]. repeat split; auto. discriminate.
Qed.

Lemma join_prefix (xs ys : list A) (r1 r2 : text) :
  join item xs ++ close :: r1 = join item ys ++ close :: r2 ->
  map view xs = map view ys /\ r1 = r2.
Proof.
  revert ys. induction xs as [|x xs IH]; intros [|y ys] E.
  - cbn [join app] in E. injection E as ->. now split.
  - destruct (join_cons y ys r2) as (c & r' & Ey & _).
    rewrite Ey in E. cbn [join app] in E.
    destruct (item_head y (c :: r')) as (h & t & Eh & Hh).
    rewrite Eh in E. injection E as <- _. congruence.
  - destruct (join_cons x xs r1) as (c & r' & Ex & _).
    rewrite Ex in E. cbn [join app] in E.
    destruct (item_head x (c :: r')) as (h & t & Eh & Hh).
    rewrite Eh in E. injection E as <- _. congruence.
  - destruct (join_cons x xs r1) as (c1 & t1 & Ex & C1 & N1 & M1).
    destruct (join_cons y ys r2) as (c2 & t2 & Ey & C2 & N2 & M2).
    rewrite Ex, Ey in E.
    apply item_prefix in E as [Hv E]; auto.
    cbn [map]. rewrite Hv.
    destruct xs as [|x' xs'], ys as [|y' ys'].
    + rewrite N1, N2 in E by reflexivity. injection E as ->. now split.
    + rewrite N1, M2 in E by (reflexivity || discriminate).
      injection E as E _. rewrite E in close_not_comma. discriminate.
    + rewrite M1, N2 in E by (reflexivity || discriminate).
      injection E as E _. rewrite <- E in close_not_comma. discriminate.
    + rewrite M1, M2 in E by discriminate. injection E as E.
      apply (IH (y' :: ys')) in E as [E ->]. rewrite E. now split.
Qed.

End Joined.

(** The joined text is made of the texts of the items. *)
Lemma join_map {A B} (item : B -> text) (view : A -> B) (xs : list A) :
  join (fun x => item (view x)) xs = join item (map view xs).
Proof.
  induction xs as [|x [|y ys] IH]; try reflexivity.
  change (item (view x) ++ ","%char :: join (fun x => item (view x)) (y :: ys)
          = item (view x) ++ ","%char :: join item (map view (y :: ys))).
  now rewrite IH.
Qed.

Lemma member_head (m : string * sqlval) (r : text) :
  exists c r', member m ++ r = c :: r' /\ closes c = false.
Proof.
  exists dquote. eexists. split; [|reflexivity].
  unfold member, quote. cbn [app]. reflexivity.
Qed.

Lemma object_prefix (o1 o2 : jsobj) (r1 r2 : text) :
  object o1 ++ r1 = object o2 ++ r2 ->
  json_members o1 = json_members o2 /\ r1 = r2.
Proof.
  unfold object. cbn [app]. rewrite <- !app_assoc. cbn [app].
  intros [= E].
  apply (join_prefix member member_text "}"%char) in E;
    auto using member_prefix, member_head.
Qed.

Lemma object_of_members (o1 o2 : jsobj) :
  json_members o1 = json_members o2 -> object o1 = object o2.
Proof.
  pose (written := fun m : string * text => quote (fst m) ++ ":"%char :: snd m).
  assert (E : forall o, join member o = join written (json_members o)).
  { intros o. exact (join_map written member_text o). }
  intros H. unfold object. now rewrite !E, H.
Qed.

Lemma object_head (o : jsobj) (r : text) :
  exists c r', object o ++ r = c :: r' /\ closes c = false.
Proof. exists "{"%char. eexists. split; reflexivity. Qed.

Lemma object_prefix_closed (o1 o2 : jsobj) (c1 c2 : ascii) (r1 r2 : text) :
  closes c1 = true -> closes c2 = true ->
  object o1 ++ c1 :: r1 = object o2 ++ c2 :: r2 ->
  json_members o1 = json_members o2 /\ c1 :: r1 = c2 :: r2.
Proof. intros _ _. apply object_prefix. Qed.

Lemma array_members (rows1 rows2 : list jsobj) :
  array rows1 = array rows2 <-> map json_members rows1 = map json_members rows2.
Proof.
  unfold array. split.
  - intros [= E].
    apply (join_prefix object json_members "]"%char) in E;
      auto using object_prefix_closed, object_head.
    now destruct E.
  - intros H. f_equal. f_equal.
    revert rows2 H.
    induction rows1 as [|o1 [|o1' rows1] IH]; intros [|o2 [|o2' rows2]] H;
      try discriminate; try reflexivity.
    + cbn [map] in H. injection H as H. cbn [join]. now apply object_of_members.
    + cbn [map] in H. injection H as H1 H2 H3.
      change (object o1 ++ ","%char :: join object (o1' :: rows1)
              = object o2 ++ ","%char :: join object (o2' :: rows2)).
      rewrite (object_of_members o1 o2 H1). f_equal. f_equal.
      apply IH. cbn [map]. now rewrite H2, H3.
Qed.

End JsonFacts.

Lemma string_of_list_ascii_inj (a b : text) :
  string_of_list_ascii a = string_of_list_ascii b -> a = b.
Proof.
  intros H. rewrite <- (list_ascii_of_string_of_list_ascii a),
    <- (list_ascii_of_string_of_list_ascii b). now rewrite H.
Qed.

Lemma results_match_iff (user solution : list jsobj) :
  results_match user solution = true
  <-> map json_members user = map json_members solution.
Proof.
  unfold results_match, JSON_stringify. rewrite String.eqb_eq.
  rewrite <- JsonFacts.array_members. split.
  - apply string_of_list_ascii_inj.
  - now intros ->.
Qed.

Lemma results_match_same (rows : list jsobj) : results_match rows rows = true.
Proof. now apply results_match_iff. Qed.

(** * Facts about the SQL pad *)

Section SqlPadFacts.

Import SqlPad.

Variable E : Engine.
Variable JSON_parse : string -> outcome ChallengeDoc.

Ltac fields :=
  cbn [apiKey mode topic companyName difficulty isLoading isSqlReady dbRef sqlJsRef challenge currentQIndex tablePreviews expectedResult expectedError userQuery queryResult feedback activeTab showApiKey
       set_apiKey set_mode set_topic set_companyName set_difficulty set_isLoading set_isSqlReady set_dbRef set_sqlJsRef set_challenge set_currentQIndex set_tablePreviews set_expectedResult set_expectedError set_userQuery set_queryResult set_feedback set_activeTab set_showApiKey
       resetSession initEngine fst snd] in *.

Lemma state_ext (s s' : AppState E) :
  apiKey s = apiKey s' ->
  mode s = mode s' ->
  topic s = topic s' ->
  companyName s = companyName s' ->
  difficulty s = difficulty s' ->
  isLoading s = isLoading s' ->
  isSqlReady s = isSqlReady s' ->
  dbRef s = dbRef s' ->
  sqlJsRef s = sqlJsRef s' ->
  challenge s = challenge s' ->
  currentQIndex s = currentQIndex s' ->
  tablePreviews s = tablePreviews s' ->
  expectedResult s = expectedResult s' ->
  expectedError s = expectedError s' ->
  userQuery s = userQuery s' ->
  queryResult s = queryResult s' ->
  feedback s = feedback s' ->
  activeTab s = activeTab s' ->
  showApiKey s = showApiKey s' ->
  s = s'.
Proof.
  destruct s, s'. cbn. intros. subst. reflexivity.
Qed.

Lemma engineConsistent_same (s s' : AppState E) :
  dbRef s' = dbRef s -> sqlJsRef s' = sqlJsRef s ->
  engineConsistent s -> engineConsistent s'.
Proof. unfold engineConsistent. now intros -> ->. Qed.

(** The monadic text of loadChallenge, stage by stage. *)
Lemma loadChallenge_stages (m : Mode) (doc : ChallengeDoc) (s : AppState E) :
  loadChallenge m doc s =
  let s1 := if sqlJsRef s then set_dbRef (Some (newDatabase E)) s else s in
  match databaseForLoad s with
  | None => (Threw (null_read "run"), s1)
  | Some db0 =>
      match db_run E db0 (schema_sql doc) with
      | (Some msg, db1) => (Threw msg, set_dbRef (Some db1) s1)
      | (None, db1) =>
          match data_sql doc with
          | None => (Threw (undefined_read "split"), set_dbRef (Some db1) s1)
          | Some d =>
              match loadPreviews (applyData db1 (insertStmts d)) with
              | (Threw msg, db3) => (Threw msg, set_dbRef (Some db3) s1)
              | (Returned previews, db3) =>
                  let s2 :=
                    set_challenge (Some doc)
                      (set_tablePreviews previews (set_dbRef (Some db3) s1)) in
                  let finish (s3 : AppState E) :=
                    (Returned tt,
                     set_feedback (Some (mkFeedback success (readyMessage m)))
                       (set_userQuery "SELECT * FROM ..." s3)) in
                  match questions doc with
                  | None => (Threw (undefined_read "length"), s2)
                  | Some [] => finish s2
                  | Some (firstQ :: _) => finish (computeExpected firstQ s2)
                  end
              end
          end
      end
  end.
Proof.
  cbv beta iota delta [loadChallenge databaseForLoad bind modify onDb run
    executeData fetchPreviews ret throw].
  destruct (sqlJsRef s) eqn:Hjs.
  - cbn [dbRef set_dbRef].
    destruct (db_run E (newDatabase E) (schema_sql doc)) as [[msg|] db1];
      [reflexivity|].
    destruct (data_sql doc) as [d|]; [|reflexivity].
    cbn [dbRef set_dbRef].
    destruct (loadPreviews (applyData db1 (insertStmts d))) as [[previews|msg] db3];
      [|reflexivity].
    destruct (questions doc) as [[|firstQ qs]|]; reflexivity.
  - destruct (dbRef s) as [db0|] eqn:Hdb; [|reflexivity].
    destruct (db_run E db0 (schema_sql doc)) as [[msg|] db1];
      [reflexivity|].
    destruct (data_sql doc) as [d|]; [|reflexivity].
    cbn [dbRef set_dbRef].
    destruct (loadPreviews (applyData db1 (insertStmts d))) as [[previews|msg] db3];
      [|reflexivity].
    destruct (questions doc) as [[|firstQ qs]|]; reflexivity.
Qed.

Lemma computeExpected_frame (q : Question) (s : AppState E) :
  sqlJsRef (computeExpected q s) = sqlJsRef s
  /\ challenge (computeExpected q s) = challenge s
  /\ (dbRef (computeExpected q s) <> None -> dbRef s <> None).
Proof.
  unfold computeExpected. destruct (dbRef s) as [db|] eqn:Hdb.
  - destruct (exec (solution_sql q) db) as [[res|msg] db'];
      cbn; repeat split; congruence.
  - cbn. repeat split. now rewrite Hdb.
Qed.

Lemma generateBody_eval (m : Mode) (reply : Reply) (s : AppState E) :
  generateBody JSON_parse m reply s =
  match reply_text reply with
  | Threw msg => (Threw msg, s)
  | Returned text =>
      match JSON_parse (cleanJson text) with
      | Threw msg => (Threw msg, s)
      | Returned parsed => loadChallenge m (normalizeChallenge parsed) s
      end
  end.
Proof.
  unfold generateBody, bind, lift.
  destruct (reply_text reply) as [text|msg]; [|reflexivity].
  destruct (JSON_parse (cleanJson text)) as [parsed|msg]; reflexivity.
Qed.

Lemma generateChallenge_eval (reply : Reply) (s : AppState E) :
  inputsComplete s = true ->
  generateChallenge JSON_parse reply s =
  set_isLoading false
    (match generateBody JSON_parse (mode s) reply (resetSession s) with
     | (Returned _, s') => s'
     | (Threw msg, s') =>
         set_feedback (Some (mkFeedback error ("Generation failed: " ++ msg)%string)) s'
     end).
Proof.
  unfold inputsComplete, generateChallenge. intros H.
  apply andb_prop in H as [H1 H2].
  apply negb_true_iff in H1, H2. rewrite H1, H2.
  destruct (generateBody JSON_parse (mode s) reply (resetSession s)) as [[u|msg] s'];
    reflexivity.
Qed.

Lemma loadChallenge_engine (m : Mode) (doc : ChallengeDoc) (s : AppState E) :
  engineConsistent s -> engineConsistent (snd (loadChallenge m doc s)).
Proof.
  unfold engineConsistent. intros Hs. rewrite loadChallenge_stages.
  unfold databaseForLoad. cbv zeta.
  destruct (sqlJsRef s) eqn:Hjs.
  - destruct (db_run E (newDatabase E) (schema_sql doc)) as [[msg|] db1];
      [cbn; auto|].
    destruct (data_sql doc) as [d|]; [|cbn; auto].
    destruct (loadPreviews _) as [[previews|msg] db3]; [|cbn; auto].
    destruct (questions doc) as [[|firstQ qs]|]; [cbn; auto| |cbn; auto].
    intros _. cbn [snd]. unfold set_feedback, set_userQuery. cbn [sqlJsRef].
    match goal with
    | |- sqlJsRef (computeExpected _ ?x) = _ =>
        destruct (computeExpected_frame firstQ x) as (-> & _)
    end.
    exact Hjs.
  - destruct (dbRef s) as [db0|] eqn:Hdb.
    + specialize (Hs ltac:(discriminate)). congruence.
    + cbn. now rewrite Hdb.
Qed.

Lemma generateChallenge_engine (reply : Reply) (s : AppState E) :
  engineConsistent s -> engineConsistent (generateChallenge JSON_parse reply s).
Proof.
  intros Hs. unfold generateChallenge.
  destruct (_ && _); [now apply (engineConsistent_same s)|].
  destruct (_ && _); [now apply (engineConsistent_same s)|].
  assert (H0 : engineConsistent (resetSession s))
    by now apply (engineConsistent_same s).
  rewrite generateBody_eval.
  destruct (reply_text reply) as [text|msg];
    [|now apply (engineConsistent_same s)].
  destruct (JSON_parse (cleanJson text)) as [parsed|msg];
    [|now apply (engineConsistent_same s)].
  pose proof (loadChallenge_engine (mode s) (normalizeChallenge parsed) _ H0) as H.
  destruct (loadChallenge _ _ _) as [[u|msg] s']; cbn [snd] in H;
    now apply (engineConsistent_same s').
Qed.

Lemma handleQuestionChange_engine (i : Z) (s : AppState E) :
  engineConsistent s -> engineConsistent (handleQuestionChange i s).
Proof.
  intros Hs. unfold handleQuestionChange.
  destruct (challenge s) as [ch|]; [|exact Hs].
  destruct (questions ch) as [qs|]; [|exact Hs].
  destruct (_ || _); [exact Hs|].
  destruct (nth_question qs i) as [q|];
    [|now apply (engineConsistent_same s)].
  unfold engineConsistent. intros H.
  match goal with
  | |- sqlJsRef (computeExpected _ ?x) = _ =>
      destruct (computeExpected_frame q x) as (-> & _ & Hdb)
  end.
  fields. apply Hs, (Hdb H).
Qed.

Lemma handleRunQuery_engine (s : AppState E) :
  engineConsistent s -> engineConsistent (handleRunQuery s).
Proof.
  intros Hs. unfold handleRunQuery, executeSql, validate, same_text.
  destruct (challenge s) as [ch|]; [|exact Hs].
  destruct (questions ch) as [qs|]; [|exact Hs].
  destruct (dbRef s) as [db|] eqn:Hdb.
  - assert (Hjs : sqlJsRef s = true) by (apply Hs; congruence).
    destruct (exec (Some (userQuery s)) db) as [[res|msg] db1];
      [|destruct (String.eqb msg ""); [|intros _; exact Hjs]];
      (destruct (nth_question qs (currentQIndex s)) as [q|];
       [|intros _; exact Hjs]);
      fields;
      (destruct (exec (solution_sql q) db1) as [[sol|msg'] db2];
       [try destruct (results_match _ _)|]); intros _; exact Hjs.
  - cbn [String.eqb].
    apply (engineConsistent_same s); fields; auto.
Qed.

Lemma reachable_engine (s : AppState E) :
  reachable JSON_parse s -> engineConsistent s.
Proof.
  induction 1 as [|a s Hr IH].
  - intros H. now contradiction H.
  - destruct a; cbn [step];
      auto using generateChallenge_engine, handleQuestionChange_engine,
        handleRunQuery_engine;
      try (now apply (engineConsistent_same s)).
    destruct o; cbn [initEngine]; [exact IH| |]; intros _; reflexivity.
Qed.

Lemma computeExpected_shape (q : Question) (s : AppState E) :
  computeExpected q s =
  set_expectedError (snd (referenceRun q (dbRef s)))
    (set_expectedResult (snd (fst (referenceRun q (dbRef s))))
       (set_dbRef (fst (fst (referenceRun q (dbRef s)))) s)).
Proof.
  unfold computeExpected, referenceRun.
  destruct (dbRef s) as [db|] eqn:Hdb.
  - destruct (exec (solution_sql q) db) as [[res|msg] db']; reflexivity.
  - apply state_ext; fields; congruence.
Qed.

Lemma computeExpected_db (q : Question) (s : AppState E) (db : DB E) :
  dbRef s = Some db ->
  dbRef (computeExpected q s) = Some (snd (exec (solution_sql q) db)).
Proof.
  unfold computeExpected. intros ->.
  destruct (exec (solution_sql q) db) as [[res|msg] db']; reflexivity.
Qed.

Lemma computeExpected_untouched (q : Question) (s : AppState E) :
  challenge (computeExpected q s) = challenge s
  /\ tablePreviews (computeExpected q s) = tablePreviews s
  /\ currentQIndex (computeExpected q s) = currentQIndex s
  /\ userQuery (computeExpected q s) = userQuery s
  /\ queryResult (computeExpected q s) = queryResult s
  /\ feedback (computeExpected q s) = feedback s
  /\ activeTab (computeExpected q s) = activeTab s.
Proof. rewrite computeExpected_shape. repeat split; reflexivity. Qed.

(** ** Out-of-range question changes *)

(** C10. With a challenge loaded, handleQuestionChange called with an
    index below 0 or at or above the number of questions returns the
    state it was given: current question index, user query, query result,
    feedback, active tab and expected result all stay as they were. *)
Theorem C10_out_of_range_question_change_is_noop
    (s : AppState E) (ch : ChallengeDoc) (newIndex : Z) :
  challenge s = Some ch ->
  (newIndex < 0
   \/ Z.of_nat (List.length (match questions ch with
                             | Some qs => qs
                             | None => []
                             end)) <= newIndex)%Z ->
  handleQuestionChange newIndex s = s.
Proof.
  intros Hch Hrange. unfold handleQuestionChange. rewrite Hch.
  destruct (questions ch) as [qs|]; [|reflexivity].
  replace ((newIndex <? 0)%Z || (newIndex >=? Z.of_nat (List.length qs))%Z)
    with true; [reflexivity|].
  symmetry. apply orb_true_iff. rewrite Z.ltb_lt, Z.geb_le. lia.
Qed.

(** ** Selecting the same question again *)

(** C8. Selecting a question and selecting it again, the database being
    the same before both selections, yields the same state: in particular
    the same expected result and expected error. *)
Theorem C8_reselecting_a_question_is_idempotent (s : AppState E) (i : Z) :
  dbRef (handleQuestionChange i s) = dbRef s ->
  handleQuestionChange i (handleQuestionChange i s) = handleQuestionChange i s.
Proof.
  unfold handleQuestionChange.
  destruct (challenge s) as [ch|] eqn:Hch; [|now rewrite Hch].
  destruct (questions ch) as [qs|] eqn:Hqs; [|now rewrite Hch, Hqs].
  destruct ((i <? 0)%Z || (i >=? Z.of_nat (List.length qs))%Z) eqn:Hi;
    [now rewrite Hch, Hqs, Hi|].
  destruct (nth_question qs i) as [q|] eqn:Hq.
  - rewrite !computeExpected_shape. fields. intros Hdb.
    rewrite Hch, Hqs, Hi, Hq, !computeExpected_shape. fields.
    apply state_ext; fields; rewrite ?Hdb; reflexivity.
  - intros _. fields. rewrite Hch, Hqs, Hi, Hq.
    apply state_ext; fields; reflexivity.
Qed.

(** ** Running a query *)

(** C2, as the code has it. The user's query runs first; the reference
    solution of the current question is then executed on the database the
    user's query left behind, and the verdict compares the two results. *)
Theorem C2_reference_runs_on_state_left_by_user_query
    (s : AppState E) (ch : ChallengeDoc) (qs : list Question) (q : Question)
    (db db1 db2 : DB E) (res sol : list QueryResult) :
  challenge s = Some ch ->
  questions ch = Some qs ->
  nth_question qs (currentQIndex s) = Some q ->
  dbRef s = Some db ->
  exec (Some (userQuery s)) db = (Returned res, db1) ->
  exec (solution_sql q) db1 = (Returned sol, db2) ->
  queryResult (handleRunQuery s) = Some (parseSqlResult res)
  /\ dbRef (handleRunQuery s) = Some db2
  /\ feedback (handleRunQuery s) =
     Some (if results_match (parseSqlResult res) (parseSqlResult sol)
           then mkFeedback success correctMessage
           else mkFeedback error incorrectMessage).
Proof.
  intros Hch Hqs Hq Hdb Hu Hs.
  unfold handleRunQuery, executeSql, validate, same_text.
  rewrite Hch, Hqs, Hq, Hdb, Hu. fields. rewrite Hs.
  destruct (results_match _ _); repeat split; reflexivity.
Qed.

(** ** Failed generation *)

(** C1, as the code has it. A generation attempt that passes the input
    checks clears the session first; when the proxy call, the parse or the
    schema then fails, no challenge is displayed any more and the session
    fields hold their initial values, with the failure as feedback. *)
Theorem C1_failed_generation_leaves_no_challenge
    (reply : Reply) (s : AppState E) (msg : string) :
  inputsComplete s = true ->
  earlyFailure JSON_parse reply s msg ->
  challenge (generateChallenge JSON_parse reply s) = None
  /\ currentQIndex (generateChallenge JSON_parse reply s) = 0%Z
  /\ tablePreviews (generateChallenge JSON_parse reply s) = []
  /\ expectedResult (generateChallenge JSON_parse reply s) = None
  /\ expectedError (generateChallenge JSON_parse reply s) = None
  /\ queryResult (generateChallenge JSON_parse reply s) = None
  /\ userQuery (generateChallenge JSON_parse reply s) = ""
  /\ failedWith msg (generateChallenge JSON_parse reply s)
  /\ isLoading (generateChallenge JSON_parse reply s) = false.
Proof.
  intros Hin Hfail. unfold failedWith.
  rewrite (generateChallenge_eval reply s Hin), generateBody_eval.
  destruct Hfail as [msg Hr | text msg Hr Hp | text parsed db msg db' Hr Hp Hdb Hrun].
  - rewrite Hr. repeat split; reflexivity.
  - rewrite Hr, Hp. repeat split; reflexivity.
  - rewrite Hr, Hp, loadChallenge_stages.
    replace (databaseForLoad (resetSession s)) with (Some db)
      by (rewrite <- Hdb; reflexivity).
    rewrite Hrun. cbv zeta. destruct (sqlJsRef (resetSession s));
      repeat split; reflexivity.
Qed.

(** ** Data statements and the schema *)

Lemma applyData_app (db : DB E) (pre post : list string) :
  applyData db (pre ++ post) = applyData (applyData db pre) post.
Proof. apply fold_left_app. Qed.

Lemma generation_success
    (reply : Reply) (s : AppState E) (text d : string) (parsed : ChallengeDoc)
    (qs : list Question) (db1 db3 : DB E) (previews : list (string * list jsobj)) :
  inputsComplete s = true ->
  sqlJsRef s = true ->
  reply_text reply = Returned text ->
  JSON_parse (cleanJson text) = Returned parsed ->
  db_run E (newDatabase E) (schema_sql (normalizeChallenge parsed)) = (None, db1) ->
  data_sql (normalizeChallenge parsed) = Some d ->
  loadPreviews (applyData db1 (insertStmts d)) = (Returned previews, db3) ->
  questions (normalizeChallenge parsed) = Some qs ->
  feedback (generateChallenge JSON_parse reply s)
    = Some (mkFeedback success (readyMessage (mode s)))
  /\ challenge (generateChallenge JSON_parse reply s)
     = Some (normalizeChallenge parsed)
  /\ tablePreviews (generateChallenge JSON_parse reply s) = previews
  /\ isLoading (generateChallenge JSON_parse reply s) = false.
Proof.
  intros Hin Hjs Hr Hp Hschema Hd Hprev Hqs.
  rewrite (generateChallenge_eval reply s Hin), generateBody_eval.
  rewrite Hr, Hp, loadChallenge_stages.
  unfold databaseForLoad.
  replace (sqlJsRef (resetSession s)) with true by (rewrite <- Hjs; reflexivity).
  rewrite Hschema, Hd, Hprev, Hqs. cbv zeta.
  destruct qs as [|firstQ qs'].
  - repeat split; reflexivity.
  - fields.
    match goal with
    | |- context [computeExpected firstQ ?x] =>
        destruct (computeExpected_untouched firstQ x) as (Hc & Ht & _)
    end.
    rewrite Hc, Ht. repeat split; reflexivity.
Qed.


(** ** A new challenge and the database *)

Lemma rejected_inputs_feedback (reply : Reply) (s : AppState E) :
  inputsComplete s = false ->
  exists msg,
    generateChallenge JSON_parse reply s
    = set_feedback (Some (mkFeedback error msg)) s.
Proof.
  unfold inputsComplete, generateChallenge. intros H.
  destruct (Mode_eqb (mode s) manual && String.eqb (topic s) "").
  - now eexists.
  - destruct (Mode_eqb (mode s) company && String.eqb (companyName s) "").
    + now eexists.
    + discriminate H.
Qed.

(** C3, for the SQL pad. In a session reached from the initial state, a
    generation that succeeds leaves in dbRef exactly the database that the
    new document builds from a new, empty database: nothing of what the
    database held before enters it. *)
Theorem C3_sql_generation_starts_from_new_database
    (reply : Reply) (s : AppState E) :
  reachable JSON_parse s ->
  succeeded (generateChallenge JSON_parse reply s) ->
  exists text parsed d,
    reply_text reply = Returned text
    /\ JSON_parse (cleanJson text) = Returned parsed
    /\ data_sql (normalizeChallenge parsed) = Some d
    /\ dbRef (generateChallenge JSON_parse reply s)
       = Some (builtFrom (newDatabase E) (normalizeChallenge parsed) d).
Proof.
  intros Hreach [m Hsucc]. apply reachable_engine in Hreach.
  destruct (inputsComplete s) eqn:Hin.
  2:{ destruct (rejected_inputs_feedback reply s Hin) as [msg Hrej].
      rewrite Hrej in Hsucc. discriminate Hsucc. }
  rewrite (generateChallenge_eval reply s Hin), generateBody_eval in Hsucc |- *.
  destruct (reply_text reply) as [text|msg] eqn:Hr; [|discriminate Hsucc].
  destruct (JSON_parse (cleanJson text)) as [parsed|msg] eqn:Hp;
    [|discriminate Hsucc].
  exists text, parsed.
  rewrite loadChallenge_stages in Hsucc |- *. unfold databaseForLoad in *.
  change (sqlJsRef (resetSession s)) with (sqlJsRef s) in *.
  change (dbRef (resetSession s)) with (dbRef s) in *.
  cbv zeta in *. unfold builtFrom.
  destruct (sqlJsRef s) eqn:Hjs.
  - destruct (db_run E (newDatabase E) (schema_sql (normalizeChallenge parsed)))
      as [[msg|] db1]; [discriminate Hsucc|].
    destruct (data_sql (normalizeChallenge parsed)) as [d|];
      [|discriminate Hsucc].
    exists d. cbn [snd].
    destruct (loadPreviews (applyData db1 (insertStmts d)))
      as [[previews|msg] db3]; [|discriminate Hsucc].
    destruct (questions (normalizeChallenge parsed)) as [[|firstQ qs]|];
      [| |discriminate Hsucc].
    + repeat split; auto.
    + repeat split; auto. fields.
      now apply computeExpected_db.
  - destruct (dbRef s) as [db0|] eqn:Hdb; [|discriminate Hsucc].
    specialize (Hreach ltac:(congruence)). congruence.
Qed.

End SqlPadFacts.

(** * The response parser *)

Lemma json_start_not_fence (t : string) :
  begins_json_value t = true ->
  starts_with ["`"%char] (drop_ws (list_ascii_of_string t)) = false.
Proof.
  unfold begins_json_value.
  destruct (drop_ws (list_ascii_of_string t)) as [|c r]; [discriminate|].
  intros H. cbn [starts_with].
  destruct (Ascii.eqb_spec "`" c) as [<-|]; [discriminate H|reflexivity].
Qed.

Lemma cleanJson_fenced (t : string) :
  begins_json_value t = true -> cleanJson (fenced t) = cleanJson t.
Proof.
  intros H. unfold cleanJson, fenced. cbv zeta. do 2 f_equal.
  rewrite !list_ascii_of_string_app.
  apply (strip_fenced ["010"%char] [] (list_ascii_of_string t) "010"%char);
    auto using json_start_not_fence.
Qed.

Section Parser.

Variable Document : Type.
Variable JSON_parse : string -> Document.

(** C9. For a text that starts like a JSON document, the parser yields
    the same document for the text between fence markers as for the text
    itself. *)
Theorem C9_fenced_text_parses_like_the_text (t : string) :
  begins_json_value t = true ->
  JSON_parse (cleanJson (fenced t)) = JSON_parse (cleanJson t).
Proof. intros H. now rewrite cleanJson_fenced. Qed.

End Parser.

Lemma C9_fenced_questions_document :
  begins_json_value "{questions:[]}" = true
  /\ Toy.parse (cleanJson (fenced "{questions:[]}"))
     = Toy.parse (cleanJson "{questions:[]}").
Proof.
  split; [reflexivity|].
  apply (C9_fenced_text_parses_like_the_text _ Toy.parse "{questions:[]}").
  reflexivity.
Defined.

(** * Comparing results *)

(** C4, at two results that hold the same two rows in different order,
    one row with null and one with a number that is not finite: the
    sequences differ and yet they match, since both values are written as
    null. *)
Lemma C4_null_and_infinity_match_in_either_order :
  [[("a", SqlNull)]; [("a", SqlNum (Infinity false))]]
  <> [[("a", SqlNum (Infinity false))]; [("a", SqlNull)]]
  /\ Permutation [[("a", SqlNull)]; [("a", SqlNum (Infinity false))]]
                 [[("a", SqlNum (Infinity false))]; [("a", SqlNull)]]
  /\ results_match [[("a", SqlNull)]; [("a", SqlNum (Infinity false))]]
                   [[("a", SqlNum (Infinity false))]; [("a", SqlNull)]] = true.
Proof.
  split; [discriminate|]. split; [apply perm_swap|reflexivity].
Qed.

(** C4, as the code has it. The comparison in handleRunQuery is equality
    of the JSON text of the two results: it holds exactly when the results
    have the same number of rows and, position by position, rows with the
    same keys in the same order whose values are written alike. A result
    matches itself; the same rows in another order do not match unless
    they are written alike position by position, as [{a:1},{a:2}] against
    [{a:2},{a:1}] are not; and the same columns in another order do not
    match either. *)
Theorem C4_comparison_is_equality_of_json_text :
  (forall rows : list jsobj, results_match rows rows = true)
  /\ (forall user solution : list jsobj,
         results_match user solution = true
         <-> map json_members user = map json_members solution)
  /\ (forall user solution : list jsobj,
         Permutation user solution ->
         map json_members user <> map json_members solution ->
         results_match user solution = false)
  /\ results_match [[("a", SqlNum (integer 1))]; [("a", SqlNum (integer 2))]]
                   [[("a", SqlNum (integer 2))]; [("a", SqlNum (integer 1))]]
     = false
  /\ results_match [[("a", SqlNum (integer 1)); ("b", SqlNum (integer 2))]]
                   [[("b", SqlNum (integer 2)); ("a", SqlNum (integer 1))]]
     = false.
Proof.
  split; [|split; [|split; [|split]]].
  - apply results_match_same.
  - intros user solution. apply results_match_iff.
  - intros user solution _ Hne.
    destruct (results_match user solution) eqn:Hm; [|reflexivity].
    apply results_match_iff in Hm. contradiction.
  - reflexivity.
  - reflexivity.
Qed.

(** * Normalising the document *)

(** C5, at an empty question text: the flat field is there, there is no
    questions array, and the document is left without one. *)
Lemma C5_empty_flat_question_is_not_wrapped :
  questions Toy.docEmptyQuestion = None
  /\ question (flat Toy.docEmptyQuestion) = Some ""
  /\ questions (normalizeChallenge Toy.docEmptyQuestion) = None.
Proof. repeat split. Qed.

(** C5, as the code has it. A document without a questions array whose
    flat question field is a non-empty text gets a one-element questions
    sequence; its element carries the title, difficulty, question,
    solution_sql and explanation of the document, and its tags, or no tags
    when the document has none. The rest of the document is unchanged. *)
Theorem C5_flat_question_becomes_single_question (doc : ChallengeDoc) (q : string) :
  questions doc = None ->
  question (flat doc) = Some q ->
  q <> "" ->
  questions (normalizeChallenge doc)
  = Some [mkQuestion (title (flat doc)) (difficulty (flat doc))
            (Some (match tags (flat doc) with Some l => l | None => [] end))
            (Some q) (solution_sql (flat doc)) (explanation (flat doc))]
  /\ schema_sql (normalizeChallenge doc) = schema_sql doc
  /\ data_sql (normalizeChallenge doc) = data_sql doc
  /\ flat (normalizeChallenge doc) = flat doc.
Proof.
  intros Hqs Hq Hne. unfold normalizeChallenge. rewrite Hqs, Hq.
  unfold truthy. apply String.eqb_neq in Hne. rewrite Hne. cbn [negb].
  repeat split; reflexivity.
Qed.

Lemma C5_flat_document_example :
  questions (normalizeChallenge Toy.docFlat)
  = Some [mkQuestion (Some "All rows") (Some "Easy") (Some [])
            (Some "Return every value of a.") (Some "SELECT a FROM t") None]
  /\ schema_sql (normalizeChallenge Toy.docFlat) = schema_sql Toy.docFlat
  /\ data_sql (normalizeChallenge Toy.docFlat) = data_sql Toy.docFlat
  /\ flat (normalizeChallenge Toy.docFlat) = flat Toy.docFlat.
Proof.
  apply (C5_flat_question_becomes_single_question Toy.docFlat
           "Return every value of a."); [reflexivity|reflexivity|discriminate].
Defined.

(** * The proxy *)

Section ProxyFacts.

Import Proxy.

Variable Payload : Type.
Variable statusError : nat -> string.
Variable fetch : Call -> outcome (ProviderResponse Payload).

(** C6. Without a key from the caller and without a server key the
    proxy answers 400 with an error message and sends nothing to the AI
    provider; with a key from the caller, the one request that is sent
    carries that key, whatever the server key is. *)
Theorem C6_credential_resolution (GEMINI_API_KEY : option string) (req : RequestBody) :
  (truthy (apiKey req) = false ->
   truthy GEMINI_API_KEY = false ->
   POST statusError fetch GEMINI_API_KEY (Returned req)
   = (mkNextResponse 400
        (ErrorBody "API Key is missing. Please provide one or configure the server."),
      []))
  /\ (forall key : string,
         apiKey req = Some key -> key <> "" ->
         snd (POST statusError fetch GEMINI_API_KEY (Returned req))
         = [mkCall (endpoint ++ key)%string (prompt req)]).
Proof.
  split.
  - intros Hk He. unfold POST, keyToUse. rewrite Hk, He. reflexivity.
  - intros key Hk Hne. unfold POST, keyToUse. rewrite Hk. unfold truthy.
    apply String.eqb_neq in Hne. rewrite Hne. cbn [negb]. rewrite Hne.
    cbn [negb].
    destruct (fetch _) as [response|msg]; [|reflexivity].
    destruct (json response) as [data|msg]; [|reflexivity].
    destruct (ok response); [reflexivity|].
    destruct (NextResponse_json _ _ _); reflexivity.
Qed.

End ProxyFacts.

(** * The statements above on a concrete session *)

Section Examples.

Import SqlPad.

Lemma reachable_run_actions (E : Engine) (parse : string -> outcome ChallengeDoc)
      (l : list Action) (s : AppState E) :
  reachable parse s -> reachable parse (run_actions parse l s).
Proof.
  revert s. induction l as [|a l IH]; intros s Hs; [exact Hs|].
  cbn [run_actions fold_left]. apply IH. now constructor.
Qed.

Lemma loaded_reachable : reachable Toy.parse Toy.loaded.
Proof. apply reachable_run_actions. constructor. Qed.

(** C1, at a session that shows challenge A when the proxy call of the
    next generation is rejected: challenge A is gone. *)
Lemma C1_failed_generation_discards_prior_challenge :
  challenge Toy.loaded = Some Toy.docA
  /\ failedWith "Failed to fetch"
       (generateChallenge Toy.parse (FetchRejected "Failed to fetch") Toy.loaded)
  /\ challenge
       (generateChallenge Toy.parse (FetchRejected "Failed to fetch") Toy.loaded)
     = None.
Proof. vm_compute. repeat split. Qed.

Lemma C1_failed_schema_example :
  challenge (generateChallenge Toy.parse (CandidateText "{bad schema}") Toy.loaded) = None
  /\ currentQIndex (generateChallenge Toy.parse (CandidateText "{bad schema}") Toy.loaded) = 0%Z
  /\ tablePreviews (generateChallenge Toy.parse (CandidateText "{bad schema}") Toy.loaded) = []
  /\ expectedResult (generateChallenge Toy.parse (CandidateText "{bad schema}") Toy.loaded) = None
  /\ expectedError (generateChallenge Toy.parse (CandidateText "{bad schema}") Toy.loaded) = None
  /\ queryResult (generateChallenge Toy.parse (CandidateText "{bad schema}") Toy.loaded) = None
  /\ userQuery (generateChallenge Toy.parse (CandidateText "{bad schema}") Toy.loaded) = ""
  /\ failedWith "syntax error"
       (generateChallenge Toy.parse (CandidateText "{bad schema}") Toy.loaded)
  /\ isLoading (generateChallenge Toy.parse (CandidateText "{bad schema}") Toy.loaded) = false.
Proof.
  apply (C1_failed_generation_leaves_no_challenge Toy.sqljs Toy.parse
           (CandidateText "{bad schema}") Toy.loaded "syntax error").
  - vm_compute; reflexivity.
  - eapply schema_fails; vm_compute; reflexivity.
Defined.

(** C2, at a session whose table holds two rows: the user deletes them
    and gets no rows back; compared with the reference rows of the database
    before the deletion this is no match, yet the code reports a match. *)
Lemma C2_reference_sees_the_user_deletion :
  verdictAgainstPriorState (set_userQuery "DELETE FROM t" Toy.loaded) = Some false
  /\ feedback (handleRunQuery (set_userQuery "DELETE FROM t" Toy.loaded))
     = Some (mkFeedback success correctMessage).
Proof. vm_compute. split; reflexivity. Qed.

Lemma C2_deletion_example :
  queryResult (handleRunQuery (set_userQuery "DELETE FROM t" Toy.loaded))
  = Some (parseSqlResult [])
  /\ dbRef (handleRunQuery (set_userQuery "DELETE FROM t" Toy.loaded))
     = Some (Some [])
  /\ feedback (handleRunQuery (set_userQuery "DELETE FROM t" Toy.loaded))
     = Some (if results_match (parseSqlResult []) (parseSqlResult [])
             then mkFeedback success correctMessage
             else mkFeedback error incorrectMessage).
Proof.
  apply (C2_reference_runs_on_state_left_by_user_query Toy.sqljs
           (set_userQuery "DELETE FROM t" Toy.loaded) Toy.docA [Toy.allRows]
           Toy.allRows (Some [1; 2]%Z) (Some []) (Some []) [] []);
    vm_compute; reflexivity.
Defined.

(** C3, in the Python pad: a name assigned while the first challenge was
    shown is still in the interpreter after the second challenge has been
    generated. *)
Lemma C3_python_interpreter_keeps_earlier_names :
  PythonPad.challenge Toy.padAfterSecondChallenge = Some Toy.exercise
  /\ PythonPad.pyodide Toy.padAfterSecondChallenge
     = Some (Toy.mkPy ["x"] ["titanic.csv"; "titanic.csv"]).
Proof. vm_compute. split; reflexivity. Qed.

Lemma C3_second_challenge_example :
  exists text parsed d,
    reply_text (CandidateText "{B}") = Returned text
    /\ Toy.parse (cleanJson text) = Returned parsed
    /\ data_sql (normalizeChallenge parsed) = Some d
    /\ dbRef (generateChallenge Toy.parse (CandidateText "{B}") Toy.loaded)
       = Some (builtFrom (newDatabase Toy.sqljs) (normalizeChallenge parsed) d).
Proof.
  apply (C3_sql_generation_starts_from_new_database Toy.sqljs Toy.parse
           (CandidateText "{B}") Toy.loaded).
  - exact loaded_reachable.
  - exists "Challenge generated!". vm_compute; reflexivity.
Defined.

Lemma C8_reselecting_example :
  dbRef (handleQuestionChange 0 Toy.loaded) = dbRef Toy.loaded
  /\ handleQuestionChange 0 (handleQuestionChange 0 Toy.loaded)
     = handleQuestionChange 0 Toy.loaded.
Proof.
  split; [vm_compute; reflexivity|].
  apply (C8_reselecting_a_question_is_idempotent Toy.sqljs Toy.loaded 0).
  vm_compute; reflexivity.
Defined.

Lemma C10_index_past_the_end_example :
  handleQuestionChange 1 Toy.loaded = Toy.loaded.
Proof.
  apply (C10_out_of_range_question_change_is_noop Toy.sqljs Toy.loaded Toy.docA 1).
  - vm_compute; reflexivity.
  - right. vm_compute. discriminate.
Defined.

(** The malformed insert of challenge A is passed over and the insert
    after it is applied. *)
Example data_statement_skipped :
  insertStmts "INSERT INTO t VALUES (1); INSERT INTO t VALUES (oops); INSERT INTO t VALUES (2)"
  = ["INSERT INTO t VALUES (1)"; " INSERT INTO t VALUES (oops)"; " INSERT INTO t VALUES (2)"]
  /\ dbRef Toy.loaded = Some (Some [1; 2]%Z).
Proof. vm_compute. split; reflexivity. Qed.

(** C7, at a data_sql of two valid insert statements of which the first
    holds a semicolon inside its text. Run as it is written, the first
    statement inserts its note. The load cuts data_sql at every semicolon,
    runs the two halves of that statement as statements of their own,
    which both fail, and goes on with the second statement: the
    generation succeeds and the first note is missing. *)
Theorem C7_insert_with_semicolon_is_never_applied :
  db_run Notes.sqljs (Some []) (Some "INSERT INTO t VALUES ('a;b')")
  = (None, Some ["a;b"])
  /\ insertStmts Notes.twoNotes
     = ["INSERT INTO t VALUES ('a"; "b')"; " INSERT INTO t VALUES ('c')"]
  /\ @applyData Notes.sqljs (Some []) (insertStmts Notes.twoNotes) = Some ["c"]
  /\ feedback (generateChallenge Notes.parse (CandidateText "{notes}") Notes.ready)
     = Some (mkFeedback success "Challenge generated!")
  /\ tablePreviews
       (generateChallenge Notes.parse (CandidateText "{notes}") Notes.ready)
     = [("t", [[("a", SqlText "c")]])].
Proof. vm_compute. repeat split. Qed.

End Examples.

(** * Row objects *)

Section RowObjects.

Context {V : Type}.
Implicit Types (o : list (string * V)) (k : string) (v : V).

Lemma obj_has_keys o k : obj_has o k = true <-> In k (obj_keys o).
Proof.
  unfold obj_has, obj_keys. rewrite existsb_exists, in_map_iff. split.
  - intros (kv & Hin & Heq). apply String.eqb_eq in Heq. now exists kv.
  - intros (kv & Heq & Hin). exists kv. split; [exact Hin|].
    now apply String.eqb_eq.
Qed.

Lemma obj_get_none o k : obj_has o k = false -> obj_get o k = None.
Proof.
  unfold obj_has. induction o as [|[k' v'] o IH]; [reflexivity|].
  cbn [existsb obj_get fst]. destruct (String.eqb k' k); [discriminate|exact IH].
Qed.

Lemma obj_get_replace o k v k0 :
  obj_get (map (fun kv => if String.eqb (fst kv) k then (k, v) else kv) o) k0
  = if String.eqb k k0
    then (if obj_has o k then Some v else None)
    else obj_get o k0.
Proof.
  unfold obj_has. induction o as [|[k' v'] o IH].
  - cbn. now destruct (String.eqb k k0).
  - cbn [map existsb obj_get fst].
    destruct (String.eqb_spec k' k) as [->|Hk'].
    + cbn [obj_get orb]. destruct (String.eqb k k0); [reflexivity|exact IH].
    + cbn [obj_get orb]. rewrite IH.
      destruct (String.eqb k k0) eqn:E1; [|reflexivity].
      destruct (String.eqb k' k0) eqn:E2; [|reflexivity].
      apply String.eqb_eq in E1, E2. congruence.
Qed.

Lemma obj_get_insert_index o n k v k0 :
  obj_has o k = false ->
  obj_get (obj_insert_index o n k v) k0
  = if String.eqb k k0 then Some v else obj_get o k0.
Proof.
  unfold obj_has. induction o as [|[k' v'] o IH]; intros Hno.
  - reflexivity.
  - cbn [existsb fst] in Hno. apply orb_false_elim in Hno as [Hk' Hno].
    cbn [obj_insert_index].
    destruct (array_index k') as [n'|]; [destruct (n <? n')%N|];
      cbn [obj_get]; try reflexivity.
    rewrite (IH Hno).
    destruct (String.eqb k k0) eqn:E1; [|reflexivity].
    destruct (String.eqb k' k0) eqn:E2; [|reflexivity].
    apply String.eqb_eq in E1, E2. subst. rewrite String.eqb_refl in Hk'.
    discriminate.
Qed.

Lemma obj_get_app o k v k0 :
  obj_has o k = false ->
  obj_get (o ++ [(k, v)]) k0
  = if String.eqb k k0 then Some v else obj_get o k0.
Proof.
  unfold obj_has. induction o as [|[k' v'] o IH]; intros Hno.
  - cbn. now destruct (String.eqb k k0).
  - cbn [existsb fst] in Hno. apply orb_false_elim in Hno as [Hk' Hno].
    cbn [app obj_get]. rewrite (IH Hno).
    destruct (String.eqb k k0) eqn:E1; [|reflexivity].
    destruct (String.eqb k' k0) eqn:E2; [|reflexivity].
    apply String.eqb_eq in E1, E2. subst. rewrite String.eqb_refl in Hk'.
    discriminate.
Qed.

(** Writing a property and reading any property back. *)
Lemma obj_get_set o k v k0 :
  obj_get (obj_set o k v) k0
  = if String.eqb k k0 then Some v else obj_get o k0.
Proof.
  unfold obj_set. destruct (obj_has o k) eqn:Hhas.
  - rewrite obj_get_replace, Hhas. reflexivity.
  - destruct (array_index k) as [n|].
    + now apply obj_get_insert_index.
    + now apply obj_get_app.
Qed.

Lemma obj_keys_insert_index o n k v k0 :
  In k0 (obj_keys (obj_insert_index o n k v)) <-> k0 = k \/ In k0 (obj_keys o).
Proof.
  unfold obj_keys. induction o as [|[k' v'] o IH].
  - cbn. intuition.
  - cbn [obj_insert_index].
    destruct (array_index k') as [n'|]; [destruct (n <? n')%N|];
      cbn [map fst In] in *; intuition.
Qed.

Lemma obj_insert_index_nodup o n k v :
  ~ In k (obj_keys o) -> NoDup (obj_keys o) ->
  NoDup (obj_keys (obj_insert_index o n k v)).
Proof.
  induction o as [|[k' v'] o IH]; intros Hk Hnd.
  - cbn. constructor; [intros []|constructor].
  - cbn [obj_insert_index].
    assert (Hcons : NoDup (obj_keys ((k, v) :: (k', v') :: o))).
    { constructor; assumption. }
    destruct (array_index k') as [n'|]; [destruct (n <? n')%N|]; try exact Hcons.
    unfold obj_keys in *. cbn [map fst] in *. inversion Hnd as [|? ? Hk' Hnd']; subst.
    constructor.
    + intros Hin. apply (obj_keys_insert_index o n k v k') in Hin as [->|Hin].
      * apply Hk. now left.
      * contradiction.
    + apply IH; [|exact Hnd']. intros Hin. apply Hk. now right.
Qed.

Lemma obj_keys_replace o k v :
  obj_keys (map (fun kv => if String.eqb (fst kv) k then (k, v) else kv) o)
  = obj_keys o.
Proof.
  unfold obj_keys. induction o as [|[k' v'] o IH]; [reflexivity|].
  cbn [map fst]. rewrite IH. f_equal.
  destruct (String.eqb_spec k' k) as [->|]; reflexivity.
Qed.

Lemma obj_set_nodup o k v :
  NoDup (obj_keys o) -> NoDup (obj_keys (obj_set o k v)).
Proof.
  intros Hnd. unfold obj_set. destruct (obj_has o k) eqn:Hhas.
  - now rewrite obj_keys_replace.
  - assert (Hk : ~ In k (obj_keys o)).
    { intros Hin. apply obj_has_keys in Hin. congruence. }
    destruct (array_index k) as [n|].
    + now apply obj_insert_index_nodup.
    + unfold obj_keys in *. rewrite map_app. cbn [map fst].
      apply NoDup_app; [exact Hnd|repeat constructor; intros []|].
      intros x Hx [<-|[]]. contradiction.
Qed.

Lemma obj_keys_set o k v k0 :
  In k0 (obj_keys (obj_set o k v)) -> k0 = k \/ In k0 (obj_keys o).
Proof.
  unfold obj_set. destruct (obj_has o k).
  - rewrite obj_keys_replace. now right.
  - destruct (array_index k) as [n|].
    + apply obj_keys_insert_index.
    + unfold obj_keys. rewrite map_app, in_app_iff. cbn [map fst In].
      intuition.
Qed.

Lemma obj_keys_unset o k k0 :
  In k0 (obj_keys (obj_unset o k)) -> In k0 (obj_keys o).
Proof.
  unfold obj_unset, obj_keys. rewrite !in_map_iff.
  intros (kv & Hkv & Hin). apply filter_In in Hin as [Hin _]. now exists kv.
Qed.

Lemma obj_unset_nodup o k :
  NoDup (obj_keys o) -> NoDup (obj_keys (obj_unset o k)).
Proof.
  unfold obj_unset, obj_keys. induction o as [|[k' v'] o IH]; intros Hnd.
  - constructor.
  - inversion Hnd as [|? ? Hk' Hnd']; subst. cbn [filter fst].
    destruct (negb (String.eqb k' k)); [|now apply IH].
    cbn [map fst]. constructor; [|now apply IH].
    intros Hin. apply Hk'. apply in_map_iff in Hin as (kv & Hkv & Hin).
    apply filter_In in Hin as [Hin _]. apply in_map_iff. now exists kv.
Qed.

End RowObjects.

Lemma obj_get_concat (a b : jsobj) (k : string) :
  obj_get (a ++ b) k
  = match obj_get a k with Some w => Some w | None => obj_get b k end.
Proof.
  induction a as [|[k' v'] a IH]; [reflexivity|].
  cbn [app obj_get]. now destruct (String.eqb k' k).
Qed.

Lemma fill_row_get (plain : bool) (o : jsobj) (cols : list string)
      (row : list sqlval) (k : string) :
  k <> "__proto__" ->
  (List.length cols <= List.length row)%nat ->
  obj_get (fill_row plain o cols row) k
  = match obj_get (rev (combine cols row)) k with
    | Some v => Some v
    | None => obj_get o k
    end.
Proof.
  intros Hk. revert plain o row.
  induction cols as [|col cols IH]; intros plain o [|v row] Hlen;
    try reflexivity; cbn [List.length] in Hlen; [lia|].
  cbn [fill_row hd_error tl combine rev]. rewrite obj_get_concat. cbn [obj_get].
  destruct (String.eqb col "__proto__" && plain) eqn:Hc.
  - apply andb_prop in Hc as [Hc _]. apply String.eqb_eq in Hc. subst col.
    rewrite IH by lia.
    apply String.eqb_neq in Hk. rewrite String.eqb_sym, Hk.
    now destruct (obj_get (rev (combine cols row)) k).
  - rewrite IH, obj_get_set by lia.
    destruct (obj_get (rev (combine cols row)) k); [reflexivity|].
    now destruct (String.eqb col k).
Qed.

Lemma fill_row_nodup (plain : bool) (o : jsobj) (cols : list string)
      (row : list sqlval) :
  NoDup (obj_keys o) -> NoDup (obj_keys (fill_row plain o cols row)).
Proof.
  revert plain o row. induction cols as [|col cols IH]; intros plain o row Hnd;
    [exact Hnd|].
  cbn [fill_row]. destruct (String.eqb col "__proto__" && plain);
    apply IH; [exact Hnd|].
  destruct (hd_error row); [now apply obj_set_nodup|now apply obj_unset_nodup].
Qed.

(** X1. Reading a row object built by parseSqlResult from a row that
    holds a value for every column: the property of its own that the
    object has under a column name other than __proto__ is the value of
    the last column of that name, and it has none under a name that is no
    column. *)
Theorem row_object_lookup (cols : list string) (row : list sqlval) (k : string) :
  k <> "__proto__" ->
  (List.length cols <= List.length row)%nat ->
  obj_get (fill_row true [] cols row) k = obj_get (rev (combine cols row)) k.
Proof.
  intros Hk Hlen. rewrite fill_row_get by assumption.
  now destruct (obj_get (rev (combine cols row)) k).
Qed.

Lemma row_object_lookup_example :
  obj_get (fill_row true [] ["id"; "__proto__"; "id"]
             [SqlNum (integer 1); SqlNull; SqlNum (integer 3)]) "id"
  = obj_get (rev (combine ["id"; "__proto__"; "id"]
                    [SqlNum (integer 1); SqlNull; SqlNum (integer 3)])) "id".
Proof.
  apply (row_object_lookup ["id"; "__proto__"; "id"]
           [SqlNum (integer 1); SqlNull; SqlNum (integer 3)] "id").
  - discriminate.
  - cbn. lia.
Defined.

Lemma fill_row_keys (plain : bool) (o : jsobj) (cols : list string)
      (row : list sqlval) (k : string) :
  In k (obj_keys (fill_row plain o cols row)) -> In k (obj_keys o) \/ In k cols.
Proof.
  revert plain o row. induction cols as [|col cols IH]; intros plain o row Hin;
    [now left|].
  cbn [fill_row] in Hin. destruct (String.eqb col "__proto__" && plain);
    apply IH in Hin as [Hin|Hin]; try (right; now right); [now left|].
  destruct (hd_error row).
  - apply obj_keys_set in Hin as [->|Hin]; [right; now left|now left].
  - left. now apply obj_keys_unset in Hin.
Qed.

(** X2. The keys of a row object of parseSqlResult are column names of
    the first result set, and none occurs twice, whatever the column names
    and the lengths of the rows are. *)
Theorem parsed_rows_have_distinct_keys
    (q : QueryResult) (rest : list QueryResult) (r : jsobj) :
  In r (parseSqlResult (q :: rest)) ->
  NoDup (obj_keys r) /\ incl (obj_keys r) (columns q).
Proof.
  cbn [parseSqlResult]. rewrite in_map_iff. intros (row & <- & _). split.
  - apply fill_row_nodup. constructor.
  - intros k Hin. now apply fill_row_keys in Hin as [[]|Hin].
Qed.

Lemma parsed_rows_distinct_keys_example :
  NoDup (obj_keys [("a", SqlNum (integer 1))])
  /\ incl (obj_keys [("a", SqlNum (integer 1))]) ["a"; "a"].
Proof.
  apply (parsed_rows_have_distinct_keys
           (mkQueryResult ["a"; "a"]
              [[SqlNum (integer 7); SqlNum (integer 1)]; [SqlNum (integer 7)]]) []
           [("a", SqlNum (integer 1))]).
  vm_compute. now left.
Defined.

Lemma fill_row_plain (o : jsobj) (cols : list string) (row : list sqlval) :
  NoDup (obj_keys o ++ cols) ->
  Forall (fun c => array_index c = None) cols ->
  ~ In "__proto__" cols ->
  (List.length cols <= List.length row)%nat ->
  fill_row true o cols row = o ++ combine cols row.
Proof.
  revert o row. induction cols as [|col cols IH]; intros o row Hnd Hplain Hproto Hlen.
  - cbn. now rewrite List.app_nil_r.
  - destruct row as [|v row]; cbn [List.length] in Hlen; [lia|].
    inversion Hplain as [|? ? Hcol Hplain']; subst.
    cbn [fill_row hd_error tl combine].
    assert (Hne : String.eqb col "__proto__" = false).
    { apply String.eqb_neq. intros ->. apply Hproto. now left. }
    rewrite Hne. cbn [andb].
    assert (Hset : obj_set o col v = o ++ [(col, v)]).
    { unfold obj_set. rewrite Hcol.
      destruct (obj_has o col) eqn:Hhas; [|reflexivity].
      apply obj_has_keys in Hhas. apply NoDup_remove_2 in Hnd.
      exfalso. apply Hnd, in_or_app. now left. }
    rewrite Hset, IH; [now rewrite <- List.app_assoc| |exact Hplain'| |lia].
    + unfold obj_keys in *. rewrite map_app. cbn [map fst].
      rewrite <- List.app_assoc. exact Hnd.
    + intros Hin. apply Hproto. now right.
Qed.

(** X3. When the column names are distinct, none of them is written
    like an array index or is __proto__, and the row holds one value per
    column, the row object lists the columns in their order, each with its
    value. *)
Theorem parsed_row_keeps_column_order (cols : list string) (row : list sqlval) :
  NoDup cols ->
  Forall (fun c => array_index c = None) cols ->
  ~ In "__proto__" cols ->
  List.length row = List.length cols ->
  fill_row true [] cols row = combine cols row
  /\ obj_keys (fill_row true [] cols row) = cols.
Proof.
  intros Hnd Hplain Hproto Hlen.
  rewrite (fill_row_plain [] cols row) by (assumption || lia).
  split; [reflexivity|].
  unfold obj_keys. cbn [app]. revert row Hlen. clear Hnd Hplain Hproto.
  induction cols as [|c cols IH]; intros [|v row] Hlen; try discriminate;
    [reflexivity|].
  cbn [combine map fst]. f_equal. apply IH. now injection Hlen.
Qed.

Lemma parsed_row_keeps_column_order_example :
  fill_row true [] ["id"; "name"] [SqlNum (integer 7); SqlText "ann"]
  = combine ["id"; "name"] [SqlNum (integer 7); SqlText "ann"]
  /\ obj_keys (fill_row true [] ["id"; "name"] [SqlNum (integer 7); SqlText "ann"])
     = ["id"; "name"].
Proof.
  apply (parsed_row_keeps_column_order ["id"; "name"]
           [SqlNum (integer 7); SqlText "ann"]).
  - repeat constructor; cbn; intuition discriminate.
  - repeat constructor.
  - cbn. intuition discriminate.
  - reflexivity.
Defined.

(** * Splitting the data statements *)

Lemma string_of_list_ascii_app (a b : text) :
  string_of_list_ascii (a ++ b)
  = (string_of_list_ascii a ++ string_of_list_ascii b)%string.
Proof. induction a as [|c a IH]; cbn; [reflexivity|now rewrite IH]. Qed.

(** X4. Joining the pieces of split with the separator gives the text
    back: splitting loses nothing and invents nothing. *)
Theorem split_join_round_trip (sep : ascii) (s : string) :
  String.concat (String sep "") (split_on sep s) = s.
Proof.
  unfold split_on.
  set (go := fix go (cur rest : text) {struct rest} : list string :=
         match rest with
         | [] => [string_of_list_ascii (rev cur)]
         | c :: rest' =>
             if Ascii.eqb c sep
             then string_of_list_ascii (rev cur) :: go [] rest'
             else go (c :: cur) rest'
         end).
  assert (Hne : forall rest cur, go cur rest <> []).
  { induction rest as [|c rest IH]; intros cur; cbn; [discriminate|].
    destruct (Ascii.eqb c sep); [discriminate|apply IH]. }
  assert (H : forall rest cur,
             String.concat (String sep "") (go cur rest)
             = string_of_list_ascii (rev cur ++ rest)).
  { induction rest as [|c rest IH]; intros cur.
    - cbn. now rewrite List.app_nil_r.
    - cbn [go]. destruct (Ascii.eqb_spec c sep) as [->|Hc].
      + specialize (IH []). specialize (Hne rest []).
        cbn [String.concat]. destruct (go [] rest) as [|x xs]; [congruence|].
        rewrite IH. cbn [rev app].
        rewrite string_of_list_ascii_app. reflexivity.
      + rewrite IH. cbn [rev]. now rewrite <- List.app_assoc. }
  rewrite H. cbn [rev app]. apply string_of_list_ascii_of_string.
Qed.

Lemma split_pieces (sep : ascii) (s x : string) :
  In x (split_on sep s) ->
  ~ In sep (list_ascii_of_string x)
  /\ incl (list_ascii_of_string x) (list_ascii_of_string s).
Proof.
  unfold split_on.
  set (go := fix go (cur rest : text) {struct rest} : list string :=
         match rest with
         | [] => [string_of_list_ascii (rev cur)]
         | c :: rest' =>
             if Ascii.eqb c sep
             then string_of_list_ascii (rev cur) :: go [] rest'
             else go (c :: cur) rest'
         end).
  assert (H : forall rest cur,
             ~ In sep cur -> In x (go cur rest) ->
             ~ In sep (list_ascii_of_string x)
             /\ incl (list_ascii_of_string x) (rev cur ++ rest)).
  { induction rest as [|c rest IH]; intros cur Hcur Hx.
    - cbn in Hx. destruct Hx as [<-|[]].
      rewrite list_ascii_of_string_of_list_ascii, List.app_nil_r. split.
      + now rewrite <- in_rev.
      + apply incl_refl.
    - cbn [go] in Hx. destruct (Ascii.eqb_spec c sep) as [->|Hc].
      + destruct Hx as [<-|Hx].
        * rewrite list_ascii_of_string_of_list_ascii. split.
          -- now rewrite <- in_rev.
          -- now apply incl_appl, incl_refl.
        * destruct (IH [] (fun f => f) Hx) as [H1 H2]. split; [exact H1|].
          cbn [rev app] in H2. now apply incl_appr, incl_tl.
      + destruct (IH (c :: cur)) as [H1 H2]; auto.
        * intros [->|Hin]; [now apply Hc|now apply Hcur].
        * split; [exact H1|]. cbn [rev] in H2.
          now rewrite <- List.app_assoc in H2. }
  intros Hx. destruct (H (list_ascii_of_string s) [] (fun f => f) Hx) as [H1 H2].
  split; [exact H1|exact H2].
Qed.

Lemma insertStmts_pieces (data_sql stmt : string) :
  In stmt (SqlPad.insertStmts data_sql) ->
  is_blank stmt = false
  /\ ~ In ";"%char (list_ascii_of_string stmt)
  /\ incl (list_ascii_of_string stmt) (list_ascii_of_string data_sql).
Proof.
  unfold SqlPad.insertStmts. rewrite filter_In. intros [Hin Hb].
  apply negb_true_iff in Hb. split; [exact Hb|].
  now apply split_pieces.
Qed.

(** X5. Every statement that generateChallenge runs from data_sql holds
    a character that is no white space, holds no semicolon, and is made of
    characters of data_sql. *)
Theorem insert_statements_are_nonblank_pieces (data_sql stmt : string) :
  In stmt (SqlPad.insertStmts data_sql) ->
  is_blank stmt = false
  /\ ~ In ";"%char (list_ascii_of_string stmt)
  /\ incl (list_ascii_of_string stmt) (list_ascii_of_string data_sql).
Proof. apply insertStmts_pieces. Qed.

Lemma insert_statements_example :
  is_blank "INSERT INTO t VALUES (1)" = false
  /\ ~ In ";"%char (list_ascii_of_string "INSERT INTO t VALUES (1)")
  /\ incl (list_ascii_of_string "INSERT INTO t VALUES (1)")
          (list_ascii_of_string "INSERT INTO t VALUES (1);").
Proof.
  apply (insert_statements_are_nonblank_pieces "INSERT INTO t VALUES (1);").
  vm_compute. now left.
Defined.

Lemma drop_ws_all (s : text) : forallb is_ws s = true -> drop_ws s = [].
Proof.
  induction s as [|c s IH]; [reflexivity|]. cbn [forallb drop_ws].
  intros H. apply andb_prop in H as [-> H]. now apply IH.
Qed.

(** X6. A data_sql made of white space and semicolons only yields no
    statement: the data step leaves the database as the schema left it. *)
Theorem blank_data_runs_nothing (E : Engine) (db : DB E) (data_sql : string) :
  forallb (fun c => is_ws c || Ascii.eqb c ";")
          (list_ascii_of_string data_sql) = true ->
  SqlPad.insertStmts data_sql = []
  /\ SqlPad.applyData db (SqlPad.insertStmts data_sql) = db.
Proof.
  intros Hall.
  assert (Hnone : SqlPad.insertStmts data_sql = []).
  { destruct (SqlPad.insertStmts data_sql) as [|stmt l] eqn:Hs; [reflexivity|].
    assert (Hin : In stmt (SqlPad.insertStmts data_sql)) by (rewrite Hs; now left).
    apply insertStmts_pieces in Hin as (Hb & Hsemi & Hincl).
    exfalso. unfold is_blank, trim in Hb.
    rewrite drop_ws_all in Hb; [discriminate|].
    apply forallb_forall. intros c Hc.
    rewrite forallb_forall in Hall. specialize (Hall c (Hincl c Hc)).
    apply orb_prop in Hall as [Hw|Hsc]; [exact Hw|].
    apply Ascii.eqb_eq in Hsc. subst c. contradiction. }
  rewrite Hnone. split; reflexivity.
Qed.

Lemma blank_data_example :
  SqlPad.insertStmts " ; ;" = []
  /\ SqlPad.applyData (Some [1%Z] : DB Toy.sqljs) (SqlPad.insertStmts " ; ;")
     = Some [1%Z].
Proof.
  apply (blank_data_runs_nothing Toy.sqljs (Some [1%Z]) " ; ;"). reflexivity.
Defined.

(** * Normalising twice *)

Lemma normalizeChallenge_twice (doc : ChallengeDoc) :
  normalizeChallenge (normalizeChallenge doc) = normalizeChallenge doc.
Proof.
  unfold normalizeChallenge.
  destruct (questions doc) as [qs|] eqn:Hq; [now rewrite Hq|].
  destruct (truthy (question (flat doc))) eqn:Ht; cbn [questions].
  - reflexivity.
  - now rewrite Hq, Ht.
Qed.

(** X7. Normalising is idempotent, and a document that has a questions
    array, be it empty, is left as it is. *)
Theorem normalizeChallenge_idempotent (doc : ChallengeDoc) :
  normalizeChallenge (normalizeChallenge doc) = normalizeChallenge doc
  /\ (questions doc <> None -> normalizeChallenge doc = doc).
Proof.
  split; [apply normalizeChallenge_twice|].
  unfold normalizeChallenge. destruct (questions doc); [reflexivity|congruence].
Qed.

(** * Text without fences *)

Lemma strip_without_backtick (s : text) :
  ~ In "`"%char s -> strip s = s.
Proof.
  induction s as [|c s IH]; [reflexivity|]. intros Hno.
  assert (Hc : Ascii.eqb "`" c = false).
  { apply Ascii.eqb_neq. intros <-. apply Hno. now left. }
  rewrite strip_keep, IH; auto.
  - intros Hin. apply Hno. now right.
  - unfold fence_open. cbn [list_ascii_of_string starts_with]. now rewrite Hc.
  - assert (Hsub : forall l : text, incl (drop_ws l) l).
    { induction l as [|x l IHl]; [apply incl_refl|]. cbn [drop_ws].
      destruct (is_ws x); [now apply incl_tl|apply incl_refl]. }
    destruct (drop_ws (c :: s)) as [|x r] eqn:Hd; [reflexivity|].
    unfold fence_close. cbn [list_ascii_of_string starts_with].
    destruct (Ascii.eqb_spec "`" x) as [<-|]; [|reflexivity].
    exfalso. apply Hno, (Hsub (c :: s)). rewrite Hd. now left.
Qed.

Lemma unescape_without_backslash (s : text) :
  ~ In "\"%char s -> replace_all re_escaped_quote ["'"%char] s = s.
Proof.
  unfold replace_all. induction s as [|c s IH]; [reflexivity|]. intros Hno.
  rewrite replace_from_miss, IH; auto.
  - intros Hin. apply Hno. now right.
  - unfold re_escaped_quote.
    destruct (Ascii.eqb_spec c "\") as [->|Hc].
    + exfalso. apply Hno. now left.
    + destruct c as [[] [] [] [] [] [] [] []]; try reflexivity.
      now contradiction Hc.
Qed.

Lemma rtrim_incl (s : text) : incl (rtrim s) s.
Proof.
  induction s as [|c s IH]; [apply incl_refl|]. cbn [rtrim].
  destruct (rtrim s) as [|x r].
  - destruct (is_ws c); [intros y []|]. intros y [<-|[]]. now left.
  - intros y [<-|Hy]; [now left|]. right. now apply IH.
Qed.

Lemma trim_incl (s : text) : incl (trim s) s.
Proof.
  unfold trim. intros y Hy. apply rtrim_incl in Hy.
  induction s as [|c s IH]; [exact Hy|]. cbn [drop_ws] in Hy.
  destruct (is_ws c); [right; now apply IH|exact Hy].
Qed.

(** X8. On a text with no backtick and no backslash cleanJson only trims:
    the fence removal and the quote replacement change nothing. *)
Theorem cleanJson_plain_text_is_trimmed (t : string) :
  ~ In "`"%char (list_ascii_of_string t) ->
  ~ In "\"%char (list_ascii_of_string t) ->
  cleanJson t = string_of_list_ascii (trim (list_ascii_of_string t)).
Proof.
  intros Hb Hs. unfold cleanJson. cbv zeta. f_equal.
  rewrite strip_without_backtick by exact Hb.
  apply unescape_without_backslash. intros Hin. apply Hs.
  now apply trim_incl.
Qed.

Lemma cleanJson_plain_text_example :
  cleanJson " {a:1} " = string_of_list_ascii (trim (list_ascii_of_string " {a:1} ")).
Proof.
  apply (cleanJson_plain_text_is_trimmed " {a:1} ");
    vm_compute; intuition discriminate.
Defined.

(** * More on the SQL pad *)

Section SqlPadMore.

Import SqlPad.

Variable E : Engine.
Variable JSON_parse : string -> outcome ChallengeDoc.

Ltac fields :=
  cbn [apiKey mode topic companyName difficulty isLoading isSqlReady dbRef sqlJsRef challenge currentQIndex tablePreviews expectedResult expectedError userQuery queryResult feedback activeTab showApiKey
       set_apiKey set_mode set_topic set_companyName set_difficulty set_isLoading set_isSqlReady set_dbRef set_sqlJsRef set_challenge set_currentQIndex set_tablePreviews set_expectedResult set_expectedError set_userQuery set_queryResult set_feedback set_activeTab set_showApiKey
       resetSession initEngine fst snd] in *.

(** ** The input checks *)

(** X9. A request in manual mode without a topic, or in company mode
    without a company name, is turned down before anything else happens:
    only the feedback changes, the challenge on display and the database
    stay, and the answer of the network plays no part. *)
Theorem incomplete_inputs_only_set_feedback (reply : Reply) (s : AppState E) :
  inputsComplete s = false ->
  generateChallenge JSON_parse reply s
  = set_feedback
      (Some (mkFeedback error
               (if Mode_eqb (mode s) manual then "Please enter a topic."
                else "Please enter a company name."))) s.
Proof.
  unfold inputsComplete, generateChallenge. intros H.
  destruct (mode s); cbn [Mode_eqb andb negb] in *.
  - destruct (String.eqb (topic s) ""); [reflexivity|discriminate H].
  - discriminate H.
  - destruct (String.eqb (companyName s) ""); [reflexivity|discriminate H].
Qed.

(** ** The state after a generation *)

Lemma referenceRun_exclusive (q : Question) (d : option (DB E)) :
  snd (fst (referenceRun q d)) = None \/ snd (referenceRun q d) = None.
Proof.
  unfold referenceRun. destruct d as [db|]; [|now left].
  destruct (exec (solution_sql q) db) as [[res|msg] db']; [now right|now left].
Qed.

Lemma referenceRun_db (q : Question) (d : option (DB E)) :
  d <> None -> fst (fst (referenceRun q d)) <> None.
Proof.
  unfold referenceRun. destruct d as [db|]; [|congruence]. intros _.
  destruct (exec (solution_sql q) db) as [[res|msg] db']; discriminate.
Qed.

Lemma obj_has_get {V} (o : list (string * V)) (k : string) :
  obj_has o k = match obj_get o k with Some _ => true | None => false end.
Proof.
  unfold obj_has. induction o as [|[k' v'] o IH]; [reflexivity|].
  cbn [existsb obj_get fst]. destruct (String.eqb k' k); [reflexivity|exact IH].
Qed.

Lemma obj_has_set {V} (o : list (string * V)) (k k0 : string) (v : V) :
  obj_has (obj_set o k v) k0 = if String.eqb k k0 then true else obj_has o k0.
Proof.
  rewrite !obj_has_get, obj_get_set. now destruct (String.eqb k k0).
Qed.

Lemma table_key_not_sequence (tableName : option sqlval) :
  is_sqlite_sequence tableName = false ->
  String.eqb (sqlval_text tableName) "sqlite_sequence" = false.
Proof.
  destruct tableName as [[|n|name]|]; cbn [is_sqlite_sequence sqlval_text];
    try reflexivity; [|auto].
  intros _. apply String.eqb_neq. intros Heq.
  apply (f_equal list_ascii_of_string) in Heq.
  rewrite list_ascii_of_string_of_list_ascii in Heq.
  change (list_ascii_of_string "sqlite_sequence")
    with ("s"%char :: list_ascii_of_string "qlite_sequence") in Heq.
  destruct n as [|neg|neg|neg s e]; try discriminate Heq;
    [destruct neg; discriminate Heq|].
  pose proof (JsonFacts.magnitude_bare_chars s e) as Hb.
  destruct neg; cbn [Number_toString] in Heq; [discriminate Heq|].
  rewrite Heq in Hb. vm_compute in Hb. discriminate Hb.
Qed.

Lemma previewTables_no_sequence (tables : list (list sqlval))
      (previews p : list (string * list jsobj)) (db db' : DB E) :
  obj_has previews "sqlite_sequence" = false ->
  previewTables tables previews db = (Returned p, db') ->
  obj_has p "sqlite_sequence" = false.
Proof.
  revert previews db. induction tables as [|row rest IH]; intros previews db Hno.
  - cbn. now intros [= <- _].
  - cbn [previewTables].
    destruct (is_sqlite_sequence (hd_error row)) eqn:Hseq; [now apply IH|].
    destruct (exec _ db) as [[res|msg] db1]; [|discriminate].
    apply IH. unfold previews_set.
    destruct (String.eqb (sqlval_text (hd_error row)) "__proto__"); [exact Hno|].
    rewrite obj_has_set, (table_key_not_sequence _ Hseq). exact Hno.
Qed.

Lemma loadPreviews_no_sequence (db db' : DB E) (p : list (string * list jsobj)) :
  loadPreviews db = (Returned p, db') ->
  obj_has p "sqlite_sequence" = false.
Proof.
  unfold loadPreviews.
  destruct (exec _ db) as [[[|r rest]|msg] db1]; [| |discriminate].
  - now intros [= <- _].
  - now apply previewTables_no_sequence.
Qed.

Ltac leaf :=
  eexists _, _, _, _, _, _, _;
  split; [apply state_ext; fields; reflexivity|].

Ltac facts :=
  repeat split;
  try (intros; discriminate);
  try (intros ? [= <-]; apply normalizeChallenge_twice);
  auto using referenceRun_exclusive;
  try (eapply loadPreviews_no_sequence; eassumption);
  try (intros _; apply referenceRun_db; discriminate).

(** The state after generateChallenge, field by field. *)
Lemma generation_outcome (reply : Reply) (s : AppState E) :
  inputsComplete s = true ->
  exists (db : option (DB E)) (ch : option ChallengeDoc)
         (previews : list (string * list jsobj))
         (r : option (list jsobj)) (e : option string) (u : string)
         (f : option Feedback),
    generateChallenge JSON_parse reply s
    = set_isLoading false
        (set_feedback f
           (set_userQuery u
              (set_expectedError e
                 (set_expectedResult r
                    (set_challenge ch
                       (set_tablePreviews previews
                          (set_dbRef db (resetSession s))))))))
    /\ (r = None \/ e = None)
    /\ (ch = None -> previews = [] /\ r = None /\ e = None)
    /\ (dbRef s <> None -> db <> None)
    /\ (forall c, ch = Some c -> normalizeChallenge c = c)
    /\ obj_has previews "sqlite_sequence" = false.
Proof.
  intros Hin.
  rewrite (generateChallenge_eval E JSON_parse reply s Hin), generateBody_eval.
  destruct (reply_text reply) as [text|msg]; [|leaf; facts].
  destruct (JSON_parse (cleanJson text)) as [parsed|msg]; [|leaf; facts].
  rewrite loadChallenge_stages. unfold databaseForLoad. cbv zeta.
  change (sqlJsRef (resetSession s)) with (sqlJsRef s).
  change (dbRef (resetSession s)) with (dbRef s).
  assert (Hstage : forall (db0 : DB E) (s1 : AppState E),
    (forall v, set_dbRef v s1 = set_dbRef v (resetSession s)) ->
    exists db ch previews r e u f,
      set_isLoading false
        (let (o, s') :=
           match db_run E db0 (schema_sql (normalizeChallenge parsed)) with
           | (Some msg, db1) => (Threw msg, set_dbRef (Some db1) s1)
           | (None, db1) =>
               match data_sql (normalizeChallenge parsed) with
               | Some d =>
                   match loadPreviews (applyData db1 (insertStmts d)) with
                   | (Returned previews, db3) =>
                       match questions (normalizeChallenge parsed) with
                       | Some [] =>
                           (Returned tt,
                            set_feedback
                              (Some (mkFeedback success (readyMessage (mode s))))
                              (set_userQuery "SELECT * FROM ..."
                                 (set_challenge (Some (normalizeChallenge parsed))
                                    (set_tablePreviews previews
                                       (set_dbRef (Some db3) s1)))))
                       | Some (firstQ :: _) =>
                           (Returned tt,
                            set_feedback
                              (Some (mkFeedback success (readyMessage (mode s))))
                              (set_userQuery "SELECT * FROM ..."
                                 (computeExpected firstQ
                                    (set_challenge (Some (normalizeChallenge parsed))
                                       (set_tablePreviews previews
                                          (set_dbRef (Some db3) s1))))))
                       | None =>
                           (Threw (undefined_read "length"),
                            set_challenge (Some (normalizeChallenge parsed))
                              (set_tablePreviews previews
                                 (set_dbRef (Some db3) s1)))
                       end
                   | (Threw msg, db3) => (Threw msg, set_dbRef (Some db3) s1)
                   end
               | None => (Threw (undefined_read "split"), set_dbRef (Some db1) s1)
               end
           end in
         match o with
         | Returned _ => s'
         | Threw msg =>
             set_feedback
               (Some (mkFeedback error ("Generation failed: " ++ msg)%string)) s'
         end)
      = set_isLoading false
          (set_feedback f
             (set_userQuery u
                (set_expectedError e
                   (set_expectedResult r
                      (set_challenge ch
                         (set_tablePreviews previews
                            (set_dbRef db (resetSession s))))))))
      /\ (r = None \/ e = None)
      /\ (ch = None -> previews = [] /\ r = None /\ e = None)
      /\ (dbRef s <> None -> db <> None)
      /\ (forall c, ch = Some c -> normalizeChallenge c = c)
      /\ obj_has previews "sqlite_sequence" = false).
  { intros db0 s1 Hs1.
    destruct (db_run E db0 (schema_sql (normalizeChallenge parsed)))
      as [[msg|] db1]; [rewrite Hs1; leaf; facts|].
    destruct (data_sql (normalizeChallenge parsed)) as [d|];
      [|rewrite Hs1; leaf; facts].
    destruct (loadPreviews (applyData db1 (insertStmts d)))
      as [[previews|msg] db3] eqn:Hprev; [|rewrite Hs1; leaf; facts].
    destruct (questions (normalizeChallenge parsed)) as [[|firstQ qs]|].
    - rewrite Hs1; leaf; facts.
    - rewrite computeExpected_shape. fields. rewrite Hs1. leaf. facts.
    - rewrite Hs1; leaf; facts. }
  destruct (sqlJsRef s).
  - apply Hstage. intros v. apply state_ext; fields; reflexivity.
  - destruct (dbRef s) as [db0|] eqn:Hdb.
    + apply Hstage. reflexivity.
    + leaf. fields. rewrite Hdb. facts.
Qed.

(** ** What every session satisfies *)

Lemma in_range_index (i : Z) (qs : list Question) :
  (i <? 0)%Z || (i >=? Z.of_nat (List.length qs))%Z = false ->
  (0 <= i < Z.of_nat (List.length qs))%Z.
Proof.
  intros H. apply orb_false_elim in H as [H1 H2].
  apply Z.ltb_ge in H1. rewrite Z.geb_leb in H2. apply Z.leb_gt in H2. lia.
Qed.

Lemma sessionInvariant_initial : sessionInvariant (initialState E).
Proof.
  unfold sessionInvariant. cbn. repeat split; auto; try discriminate.
Qed.

Lemma sessionInvariant_generate (reply : Reply) (s : AppState E) :
  sessionInvariant s -> sessionInvariant (generateChallenge JSON_parse reply s).
Proof.
  intros (I1 & I2 & I3 & I4 & I5 & I6).
  destruct (inputsComplete s) eqn:Hin.
  - destruct (generation_outcome reply s Hin)
      as (db & ch & previews & r & e & u & f & -> & F1 & F2 & F3 & F4 & F5).
    unfold sessionInvariant. fields. repeat split; auto.
    + apply F3. now apply I2.
    + now apply I2.
    + destruct qs; [congruence|cbn [List.length]; lia].
    + destruct qs; [congruence|cbn [List.length]; lia].
    + now apply F2.
    + now apply F2.
    + now apply F2.
  - destruct (rejected_inputs_feedback E JSON_parse reply s Hin) as [msg ->].
    unfold sessionInvariant. fields. repeat split; auto; try apply I2; try apply I3;
      try apply I4; auto.
    all: intros; eapply I3; eauto.
Qed.

Lemma sessionInvariant_question (i : Z) (s : AppState E) :
  sessionInvariant s -> sessionInvariant (handleQuestionChange i s).
Proof.
  intros Hs. pose proof Hs as (I1 & I2 & I3 & I4 & I5 & I6).
  unfold handleQuestionChange.
  destruct (challenge s) as [ch|] eqn:Hch; [|exact Hs].
  destruct (questions ch) as [qs|] eqn:Hqs; [|exact Hs].
  destruct ((i <? 0)%Z || (i >=? Z.of_nat (List.length qs))%Z) eqn:Hi; [exact Hs|].
  apply in_range_index in Hi.
  assert (Hidx : forall ch' qs', Some ch = Some ch' -> questions ch' = Some qs' ->
                                 (0 <= i < Z.of_nat (List.length qs'))%Z).
  { intros ch' qs' [= <-] Hq. rewrite Hqs in Hq. now injection Hq as <-. }
  destruct (nth_question qs i) as [q|].
  - rewrite computeExpected_shape. unfold sessionInvariant. fields.
    rewrite Hch. repeat split; auto using referenceRun_exclusive;
      try discriminate; try (now apply I2); try (eapply Hidx; eassumption).
    apply referenceRun_db. now apply I2.
  - unfold sessionInvariant. fields.
    rewrite Hch. repeat split; auto; try discriminate; try (now apply I2);
      try (eapply Hidx; eassumption).
Qed.

Lemma sessionInvariant_run (s : AppState E) :
  sessionInvariant s -> sessionInvariant (handleRunQuery s).
Proof.
  intros Hs. pose proof Hs as (I1 & I2 & I3 & I4 & I5 & I6).
  unfold handleRunQuery, executeSql, validate, same_text.
  destruct (challenge s) as [ch|] eqn:Hch; [|exact Hs].
  destruct (questions ch) as [qs|] eqn:Hqs; [|exact Hs].
  assert (Hidx : forall ch' qs', Some ch = Some ch' -> questions ch' = Some qs' ->
                                 qs' <> [] ->
                                 (0 <= currentQIndex s < Z.of_nat (List.length qs'))%Z).
  { intros ch' qs' [= <-]. now apply I3. }
  assert (Hnorm : forall ch', Some ch = Some ch' -> normalizeChallenge ch' = ch').
  { intros ch' [= <-]. now apply I5. }
  destruct (dbRef s) as [db|] eqn:Hdb.
  - destruct (exec (Some (userQuery s)) db) as [[res|msg] db1];
      [|destruct (String.eqb msg "")];
      [destruct (nth_question qs (currentQIndex s)) as [q|]; fields;
       [destruct (exec (solution_sql q) db1) as [[sol|msg'] db2];
        [destruct (results_match _ _)|]|]
      |destruct (nth_question qs (currentQIndex s)) as [q|]; fields;
       [destruct (exec (solution_sql q) db1) as [[sol|msg'] db2]|]
      |];
      unfold sessionInvariant; fields; rewrite Hch;
      repeat split; auto; try discriminate; try (now apply I2);
      try (eapply Hidx; eassumption).
  - cbn [String.eqb].
    unfold sessionInvariant; fields; rewrite Hch, ?Hdb;
      repeat split; auto; try discriminate; try (now apply I2);
      try (eapply Hidx; eassumption).
Qed.

Lemma sessionInvariant_reachable (s : AppState E) :
  reachable JSON_parse s -> sessionInvariant s.
Proof.
  induction 1 as [|a s Hr IH]; [apply sessionInvariant_initial|].
  destruct a as [o| | | | | | | | | | |]; cbn [step];
    auto using sessionInvariant_generate, sessionInvariant_question,
      sessionInvariant_run; try exact IH.
  destruct IH as (I1 & I2 & I3 & I4 & I5 & I6).
  destruct o; unfold sessionInvariant; fields; repeat split; intros; auto;
    try discriminate; try (now apply I2); try (now apply I4);
    try (eapply I3; eassumption).
Qed.

(** X10. In every session reached from the initial state the expected
    result and the expected error are never both present. *)
Theorem expected_result_and_error_never_both (s : AppState E) :
  reachable JSON_parse s ->
  expectedResult s = None \/ expectedError s = None.
Proof.
  intros Hr. apply sessionInvariant_reachable in Hr.
  destruct Hr as (I1 & _). exact I1.
Qed.

(** X11. In every session reached from the initial state, once the
    engine is marked ready there is a database and sql.js is loaded,
    whatever has failed since. *)
Theorem ready_session_has_database (s : AppState E) :
  reachable JSON_parse s ->
  isSqlReady s = true ->
  (exists db, dbRef s = Some db) /\ sqlJsRef s = true.
Proof.
  intros Hr Hready. apply sessionInvariant_reachable in Hr.
  destruct Hr as (_ & I2 & _). destruct (I2 Hready) as [Hdb Hjs].
  split; [|exact Hjs]. destruct (dbRef s) as [db|]; [now exists db|congruence].
Qed.

(** X12. In every session reached from the initial state the current
    question index points at a question of the challenge on display, as
    soon as that challenge has any question. *)
Theorem current_question_exists
    (s : AppState E) (ch : ChallengeDoc) (qs : list Question) :
  reachable JSON_parse s ->
  challenge s = Some ch -> questions ch = Some qs -> qs <> [] ->
  exists q, nth_question qs (currentQIndex s) = Some q.
Proof.
  intros Hr Hch Hqs Hne. apply sessionInvariant_reachable in Hr.
  destruct Hr as (_ & _ & I3 & _). specialize (I3 ch qs Hch Hqs Hne).
  unfold nth_question. replace (currentQIndex s <? 0)%Z with false
    by (symmetry; apply Z.ltb_ge; lia).
  destruct (nth_error qs (Z.to_nat (currentQIndex s))) as [q|] eqn:Hn;
    [now exists q|].
  apply nth_error_None in Hn. lia.
Qed.

(** X13. In every session reached from the initial state, while no
    challenge is on display there are no table previews, no expected
    result or error, no query result, and the question index is 0. *)
Theorem no_challenge_means_empty_session (s : AppState E) :
  reachable JSON_parse s ->
  challenge s = None ->
  tablePreviews s = [] /\ expectedResult s = None /\ expectedError s = None
  /\ queryResult s = None /\ currentQIndex s = 0%Z.
Proof.
  intros Hr Hch. apply sessionInvariant_reachable in Hr.
  destruct Hr as (_ & _ & _ & I4 & _). now apply I4.
Qed.

(** X14. In every session reached from the initial state the challenge
    on display is in normal form, and the table previews hold no entry for
    sqlite_sequence. *)
Theorem displayed_challenge_is_normalised (s : AppState E) :
  reachable JSON_parse s ->
  (forall ch, challenge s = Some ch -> normalizeChallenge ch = ch)
  /\ obj_get (tablePreviews s) "sqlite_sequence" = None.
Proof.
  intros Hr. apply sessionInvariant_reachable in Hr.
  destruct Hr as (_ & _ & _ & _ & I5 & I6). split; [exact I5|].
  now apply obj_get_none.
Qed.

(** ** What a generation leaves alone *)

(** X15. A generation that passes the input checks always ends with
    loading off, whether it succeeds or fails, and never changes the inputs
    of the form, the active tab, or the engine flags. *)
Theorem generation_ends_loading_and_keeps_inputs (reply : Reply) (s : AppState E) :
  inputsComplete s = true ->
  isLoading (generateChallenge JSON_parse reply s) = false
  /\ apiKey (generateChallenge JSON_parse reply s) = apiKey s
  /\ mode (generateChallenge JSON_parse reply s) = mode s
  /\ topic (generateChallenge JSON_parse reply s) = topic s
  /\ companyName (generateChallenge JSON_parse reply s) = companyName s
  /\ difficulty (generateChallenge JSON_parse reply s) = difficulty s
  /\ activeTab (generateChallenge JSON_parse reply s) = activeTab s
  /\ showApiKey (generateChallenge JSON_parse reply s) = showApiKey s
  /\ isSqlReady (generateChallenge JSON_parse reply s) = isSqlReady s
  /\ sqlJsRef (generateChallenge JSON_parse reply s) = sqlJsRef s.
Proof.
  intros Hin.
  destruct (generation_outcome reply s Hin)
    as (db & ch & previews & r & e & u & f & -> & _).
  repeat split; reflexivity.
Qed.

(** ** Documents that break the load late *)

Lemma generation_after_previews
    (reply : Reply) (s : AppState E) (text d : string) (parsed : ChallengeDoc)
    (db1 db3 : DB E) (previews : list (string * list jsobj)) :
  inputsComplete s = true ->
  sqlJsRef s = true ->
  reply_text reply = Returned text ->
  JSON_parse (cleanJson text) = Returned parsed ->
  db_run E (newDatabase E) (schema_sql (normalizeChallenge parsed)) = (None, db1) ->
  data_sql (normalizeChallenge parsed) = Some d ->
  loadPreviews (applyData db1 (insertStmts d)) = (Returned previews, db3) ->
  generateChallenge JSON_parse reply s
  = set_isLoading false
      (let s2 :=
         set_challenge (Some (normalizeChallenge parsed))
           (set_tablePreviews previews
              (set_dbRef (Some db3) (resetSession s))) in
       match questions (normalizeChallenge parsed) with
       | None =>
           set_feedback
             (Some (mkFeedback error
                      ("Generation failed: " ++ undefined_read "length")%string)) s2
       | Some [] =>
           set_feedback (Some (mkFeedback success (readyMessage (mode s))))
             (set_userQuery "SELECT * FROM ..." s2)
       | Some (firstQ :: _) =>
           set_feedback (Some (mkFeedback success (readyMessage (mode s))))
             (set_userQuery "SELECT * FROM ..." (computeExpected firstQ s2))
       end).
Proof.
  intros Hin Hjs Hr Hp Hschema Hd Hprev.
  rewrite (generateChallenge_eval E JSON_parse reply s Hin), generateBody_eval.
  rewrite Hr, Hp, loadChallenge_stages.
  unfold databaseForLoad.
  replace (sqlJsRef (resetSession s)) with true by (rewrite <- Hjs; reflexivity).
  rewrite Hschema, Hd, Hprev. cbv zeta. f_equal.
  destruct (questions (normalizeChallenge parsed)) as [[|firstQ qs]|].
  - apply state_ext; fields; reflexivity.
  - rewrite !computeExpected_shape. apply state_ext; fields; reflexivity.
  - apply state_ext; fields; reflexivity.
Qed.

(** X16. A document without questions (no questions array and no flat
    question text) fails the generation only after setChallenge has been
    called with it: the state is left with the failure as feedback, the
    new document, its table previews and no expected result. The render
    of that state throws where it reads the current question, so none of
    it is shown. *)
Theorem document_without_questions_is_half_installed
    (reply : Reply) (s : AppState E) (text d : string) (parsed : ChallengeDoc)
    (db1 db3 : DB E) (previews : list (string * list jsobj)) :
  inputsComplete s = true ->
  sqlJsRef s = true ->
  reply_text reply = Returned text ->
  JSON_parse (cleanJson text) = Returned parsed ->
  db_run E (newDatabase E) (schema_sql (normalizeChallenge parsed)) = (None, db1) ->
  data_sql (normalizeChallenge parsed) = Some d ->
  loadPreviews (applyData db1 (insertStmts d)) = (Returned previews, db3) ->
  questions (normalizeChallenge parsed) = None ->
  failedWith (undefined_read "length") (generateChallenge JSON_parse reply s)
  /\ challenge (generateChallenge JSON_parse reply s)
     = Some (normalizeChallenge parsed)
  /\ tablePreviews (generateChallenge JSON_parse reply s) = previews
  /\ expectedResult (generateChallenge JSON_parse reply s) = None
  /\ userQuery (generateChallenge JSON_parse reply s) = ""
  /\ currentQuestion (generateChallenge JSON_parse reply s)
     = Threw (undefined_read "0").
Proof.
  intros Hin Hjs Hr Hp Hschema Hd Hprev Hqs. unfold failedWith, currentQuestion.
  rewrite (generation_after_previews reply s text d parsed db1 db3 previews)
    by assumption.
  rewrite Hqs. cbv beta iota zeta. fields. rewrite Hqs.
  repeat split; reflexivity.
Qed.

(** X17. A document without data_sql fails the generation after its
    schema has been run on the new database: no challenge is shown and the
    database is the one the schema left. *)
Theorem document_without_data_fails_after_schema
    (reply : Reply) (s : AppState E) (text : string) (parsed : ChallengeDoc)
    (db db1 : DB E) :
  inputsComplete s = true ->
  reply_text reply = Returned text ->
  JSON_parse (cleanJson text) = Returned parsed ->
  databaseForLoad s = Some db ->
  db_run E db (schema_sql (normalizeChallenge parsed)) = (None, db1) ->
  data_sql (normalizeChallenge parsed) = None ->
  failedWith (undefined_read "split") (generateChallenge JSON_parse reply s)
  /\ challenge (generateChallenge JSON_parse reply s) = None
  /\ dbRef (generateChallenge JSON_parse reply s) = Some db1.
Proof.
  intros Hin Hr Hp Hdb Hrun Hd. unfold failedWith.
  rewrite (generateChallenge_eval E JSON_parse reply s Hin), generateBody_eval.
  rewrite Hr, Hp, loadChallenge_stages.
  replace (databaseForLoad (resetSession s)) with (Some db)
    by (rewrite <- Hdb; reflexivity).
  rewrite Hrun, Hd. cbv zeta. destruct (sqlJsRef (resetSession s));
    repeat split; reflexivity.
Qed.

(** X18. A first reference solution that fails does not fail the
    generation: the challenge is installed with success feedback, and the
    failure is kept as the expected error, with no expected result. *)
Theorem failing_first_solution_is_recorded
    (reply : Reply) (s : AppState E) (text d msg : string) (parsed : ChallengeDoc)
    (firstQ : Question) (qs : list Question) (db1 db3 db4 : DB E)
    (previews : list (string * list jsobj)) :
  inputsComplete s = true ->
  sqlJsRef s = true ->
  reply_text reply = Returned text ->
  JSON_parse (cleanJson text) = Returned parsed ->
  db_run E (newDatabase E) (schema_sql (normalizeChallenge parsed)) = (None, db1) ->
  data_sql (normalizeChallenge parsed) = Some d ->
  loadPreviews (applyData db1 (insertStmts d)) = (Returned previews, db3) ->
  questions (normalizeChallenge parsed) = Some (firstQ :: qs) ->
  exec (solution_sql firstQ) db3 = (Threw msg, db4) ->
  feedback (generateChallenge JSON_parse reply s)
  = Some (mkFeedback success (readyMessage (mode s)))
  /\ challenge (generateChallenge JSON_parse reply s)
     = Some (normalizeChallenge parsed)
  /\ expectedError (generateChallenge JSON_parse reply s) = Some msg
  /\ expectedResult (generateChallenge JSON_parse reply s) = None.
Proof.
  intros Hin Hjs Hr Hp Hschema Hd Hprev Hqs Hx.
  rewrite (generation_after_previews reply s text d parsed db1 db3 previews)
    by assumption.
  rewrite Hqs. cbv beta iota zeta. rewrite computeExpected_shape. fields.
  unfold referenceRun. rewrite Hx. repeat split; reflexivity.
Qed.

(** ** Running a query, continued *)

(** X19. When the user's query fails with a message, the message is
    shown and the reference solution is not run: the database is the one
    the failed statement left. The handler tests [result.error] for
    truthiness, so a failure with an empty message is not noticed: the
    check goes on without rows and never reports a correct answer. In both
    cases no query result is shown. *)
Theorem failing_user_query_is_reported
    (s : AppState E) (ch : ChallengeDoc) (qs : list Question)
    (db db1 : DB E) (msg : string) :
  challenge s = Some ch ->
  questions ch = Some qs ->
  dbRef s = Some db ->
  exec (Some (userQuery s)) db = (Threw msg, db1) ->
  queryResult (handleRunQuery s) = None
  /\ (msg <> "" ->
      feedback (handleRunQuery s)
      = Some (mkFeedback error ("SQL Error: " ++ msg)%string)
      /\ dbRef (handleRunQuery s) = Some db1)
  /\ (msg = "" ->
      feedback (handleRunQuery s) = Some (mkFeedback error incorrectMessage)
      \/ feedback (handleRunQuery s)
         = Some (mkFeedback error "Could not validate. Check logic manually.")).
Proof.
  intros Hch Hqs Hdb Hx. unfold handleRunQuery, executeSql, validate, same_text.
  rewrite Hch, Hqs, Hdb, Hx.
  destruct (String.eqb_spec msg "") as [->|Hmsg].
  - destruct (nth_question qs (currentQIndex s)) as [q|]; fields;
      [destruct (exec (solution_sql q) db1) as [[sol|msg'] db2]|]; fields;
      (split; [reflexivity|split; [congruence|intros _; auto]]).
  - fields. split; [reflexivity|split; [now split|congruence]].
Qed.

(** X20. Running a query never changes the challenge, the current
    question, the text of the query, the expected result shown, the table
    previews or the active tab. *)
Theorem run_query_leaves_the_challenge_alone (s : AppState E) :
  challenge (handleRunQuery s) = challenge s
  /\ currentQIndex (handleRunQuery s) = currentQIndex s
  /\ userQuery (handleRunQuery s) = userQuery s
  /\ expectedResult (handleRunQuery s) = expectedResult s
  /\ expectedError (handleRunQuery s) = expectedError s
  /\ tablePreviews (handleRunQuery s) = tablePreviews s
  /\ activeTab (handleRunQuery s) = activeTab s.
Proof.
  unfold handleRunQuery, executeSql, validate, same_text.
  destruct (challenge s) as [ch|] eqn:Hch;
    [|repeat split; (reflexivity || congruence)].
  destruct (questions ch) as [qs|];
    [|repeat split; (reflexivity || congruence)].
  destruct (dbRef s) as [db|].
  - destruct (exec (Some (userQuery s)) db) as [[res|msg] db1];
      [|destruct (String.eqb msg "");
        [|fields; repeat split; (reflexivity || congruence)]];
      (destruct (nth_question qs (currentQIndex s)) as [q|]; fields;
       [|repeat split; (reflexivity || congruence)]);
      (destruct (exec (solution_sql q) db1) as [[sol|msg'] db2];
       [try destruct (results_match _ _)|]);
      fields; repeat split; (reflexivity || congruence).
  - cbn [String.eqb]. fields. repeat split; (reflexivity || congruence).
Qed.

Lemma run_query_verdict
    (s : AppState E) (ch : ChallengeDoc) (qs : list Question) (q : Question)
    (db db1 db2 : DB E) (res sol : list QueryResult) :
  challenge s = Some ch ->
  questions ch = Some qs ->
  nth_question qs (currentQIndex s) = Some q ->
  dbRef s = Some db ->
  exec (Some (userQuery s)) db = (Returned res, db1) ->
  exec (solution_sql q) db1 = (Returned sol, db2) ->
  feedback (handleRunQuery s)
  = Some (if results_match (parseSqlResult res) (parseSqlResult sol)
          then mkFeedback success correctMessage
          else mkFeedback error incorrectMessage).
Proof.
  intros Hch Hqs Hq Hdb Hu Hs.
  unfold handleRunQuery, executeSql, validate, same_text.
  rewrite Hch, Hqs, Hq, Hdb, Hu. fields. rewrite Hs.
  now destruct (results_match _ _).
Qed.

(** X21. When both the user's query and the reference solution run, the
    answer is reported correct exactly when the two results are written
    alike: the same number of rows and, position by position, rows with
    the same keys in the same order and values with the same JSON text. *)
Theorem verdict_is_success_iff_rows_are_equal
    (s : AppState E) (ch : ChallengeDoc) (qs : list Question) (q : Question)
    (db db1 db2 : DB E) (res sol : list QueryResult) :
  challenge s = Some ch ->
  questions ch = Some qs ->
  nth_question qs (currentQIndex s) = Some q ->
  dbRef s = Some db ->
  exec (Some (userQuery s)) db = (Returned res, db1) ->
  exec (solution_sql q) db1 = (Returned sol, db2) ->
  feedback (handleRunQuery s) = Some (mkFeedback success correctMessage)
  <-> map json_members (parseSqlResult res) = map json_members (parseSqlResult sol).
Proof.
  intros Hch Hqs Hq Hdb Hu Hs.
  rewrite (run_query_verdict s ch qs q db db1 db2 res sol) by assumption.
  rewrite <- results_match_iff.
  destruct (results_match _ _); split; congruence.
Qed.

(** X22. Submitting the reference solution of the current question is
    reported correct whenever that solution runs without changing the
    database. *)
Theorem submitting_the_solution_is_correct
    (s : AppState E) (ch : ChallengeDoc) (qs : list Question) (q : Question)
    (db : DB E) (res : list QueryResult) :
  challenge s = Some ch ->
  questions ch = Some qs ->
  nth_question qs (currentQIndex s) = Some q ->
  solution_sql q = Some (userQuery s) ->
  dbRef s = Some db ->
  exec (Some (userQuery s)) db = (Returned res, db) ->
  feedback (handleRunQuery s) = Some (mkFeedback success correctMessage)
  /\ dbRef (handleRunQuery s) = Some db.
Proof.
  intros Hch Hqs Hq Hsol Hdb Hx. split.
  - rewrite (run_query_verdict s ch qs q db db db res res);
      try assumption; [|now rewrite Hsol].
    now rewrite results_match_same.
  - unfold handleRunQuery, executeSql, validate, same_text.
    rewrite Hch, Hqs, Hq, Hdb, Hx. fields. rewrite Hsol, Hx.
    now destruct (results_match _ _).
Qed.

(** X23. When the reference solution fails after the user's query has
    run, the user's rows are shown and the answer is left unjudged. *)
Theorem failing_reference_leaves_answer_unjudged
    (s : AppState E) (ch : ChallengeDoc) (qs : list Question) (q : Question)
    (db db1 db2 : DB E) (res : list QueryResult) (msg : string) :
  challenge s = Some ch ->
  questions ch = Some qs ->
  nth_question qs (currentQIndex s) = Some q ->
  dbRef s = Some db ->
  exec (Some (userQuery s)) db = (Returned res, db1) ->
  exec (solution_sql q) db1 = (Threw msg, db2) ->
  feedback (handleRunQuery s)
  = Some (mkFeedback error "Could not validate. Check logic manually.")
  /\ queryResult (handleRunQuery s) = Some (parseSqlResult res).
Proof.
  intros Hch Hqs Hq Hdb Hu Hs.
  unfold handleRunQuery, executeSql, validate, same_text.
  rewrite Hch, Hqs, Hq, Hdb, Hu. fields. rewrite Hs.
  split; reflexivity.
Qed.

End SqlPadMore.



Section SqlPadMoreExamples.

Import SqlPad.

Lemma incomplete_inputs_example :
  generateChallenge Toy.parse (CandidateText "{B}") (set_topic "" Toy.loaded)
  = set_feedback
      (Some (mkFeedback error
               (if Mode_eqb (mode (set_topic "" Toy.loaded)) manual
                then "Please enter a topic."
                else "Please enter a company name.")))
      (set_topic "" Toy.loaded).
Proof.
  apply (incomplete_inputs_only_set_feedback Toy.sqljs Toy.parse
           (CandidateText "{B}") (set_topic "" Toy.loaded)).
  vm_compute; reflexivity.
Defined.

Lemma expected_never_both_example :
  expectedResult Toy.loaded = None \/ expectedError Toy.loaded = None.
Proof.
  apply (expected_result_and_error_never_both Toy.sqljs Toy.parse Toy.loaded).
  exact loaded_reachable.
Defined.

Lemma ready_session_example :
  (exists db, dbRef Toy.loaded = Some db) /\ sqlJsRef Toy.loaded = true.
Proof.
  apply (ready_session_has_database Toy.sqljs Toy.parse Toy.loaded).
  - exact loaded_reachable.
  - vm_compute; reflexivity.
Defined.

Lemma current_question_example :
  exists q, nth_question [Toy.allRows] (currentQIndex Toy.loaded) = Some q.
Proof.
  apply (current_question_exists Toy.sqljs Toy.parse Toy.loaded Toy.docA).
  - exact loaded_reachable.
  - vm_compute; reflexivity.
  - reflexivity.
  - discriminate.
Defined.

Lemma no_challenge_example :
  tablePreviews (initialState Toy.sqljs) = []
  /\ expectedResult (initialState Toy.sqljs) = None
  /\ expectedError (initialState Toy.sqljs) = None
  /\ queryResult (initialState Toy.sqljs) = None
  /\ currentQIndex (initialState Toy.sqljs) = 0%Z.
Proof.
  apply (no_challenge_means_empty_session Toy.sqljs Toy.parse
           (initialState Toy.sqljs)).
  - constructor.
  - reflexivity.
Defined.

Lemma displayed_challenge_example :
  (forall ch, challenge Toy.loaded = Some ch -> normalizeChallenge ch = ch)
  /\ obj_get (tablePreviews Toy.loaded) "sqlite_sequence" = None.
Proof.
  apply (displayed_challenge_is_normalised Toy.sqljs Toy.parse Toy.loaded).
  exact loaded_reachable.
Defined.

Lemma generation_keeps_inputs_example :
  isLoading (generateChallenge Toy.parse (CandidateText "{B}") Toy.loaded) = false
  /\ apiKey (generateChallenge Toy.parse (CandidateText "{B}") Toy.loaded)
     = apiKey Toy.loaded
  /\ mode (generateChallenge Toy.parse (CandidateText "{B}") Toy.loaded)
     = mode Toy.loaded
  /\ topic (generateChallenge Toy.parse (CandidateText "{B}") Toy.loaded)
     = topic Toy.loaded
  /\ companyName (generateChallenge Toy.parse (CandidateText "{B}") Toy.loaded)
     = companyName Toy.loaded
  /\ difficulty (generateChallenge Toy.parse (CandidateText "{B}") Toy.loaded)
     = difficulty Toy.loaded
  /\ activeTab (generateChallenge Toy.parse (CandidateText "{B}") Toy.loaded)
     = activeTab Toy.loaded
  /\ showApiKey (generateChallenge Toy.parse (CandidateText "{B}") Toy.loaded)
     = showApiKey Toy.loaded
  /\ isSqlReady (generateChallenge Toy.parse (CandidateText "{B}") Toy.loaded)
     = isSqlReady Toy.loaded
  /\ sqlJsRef (generateChallenge Toy.parse (CandidateText "{B}") Toy.loaded)
     = sqlJsRef Toy.loaded.
Proof.
  apply (generation_ends_loading_and_keeps_inputs Toy.sqljs Toy.parse
           (CandidateText "{B}") Toy.loaded).
  vm_compute; reflexivity.
Defined.

Lemma document_without_questions_example :
  failedWith (undefined_read "length")
    (generateChallenge ToyMore.parse (CandidateText "{no questions}") Toy.loaded)
  /\ challenge
       (generateChallenge ToyMore.parse (CandidateText "{no questions}") Toy.loaded)
     = Some (normalizeChallenge ToyMore.docNoQuestions)
  /\ tablePreviews
       (generateChallenge ToyMore.parse (CandidateText "{no questions}") Toy.loaded)
     = [("t", [[("a", SqlNum (integer 1))]])]
  /\ expectedResult
       (generateChallenge ToyMore.parse (CandidateText "{no questions}") Toy.loaded)
     = None
  /\ userQuery
       (generateChallenge ToyMore.parse (CandidateText "{no questions}") Toy.loaded)
     = ""
  /\ currentQuestion
       (generateChallenge ToyMore.parse (CandidateText "{no questions}") Toy.loaded)
     = Threw (undefined_read "0").
Proof.
  apply (document_without_questions_is_half_installed Toy.sqljs ToyMore.parse
           (CandidateText "{no questions}") Toy.loaded "{no questions}"
           "INSERT INTO t VALUES (1)" ToyMore.docNoQuestions
           (Some []) (Some [1%Z]));
    vm_compute; reflexivity.
Defined.

Lemma document_without_data_example :
  failedWith (undefined_read "split")
    (generateChallenge ToyMore.parse (CandidateText "{no data}") Toy.loaded)
  /\ challenge
       (generateChallenge ToyMore.parse (CandidateText "{no data}") Toy.loaded)
     = None
  /\ dbRef (generateChallenge ToyMore.parse (CandidateText "{no data}") Toy.loaded)
     = Some (Some []).
Proof.
  apply (document_without_data_fails_after_schema Toy.sqljs ToyMore.parse
           (CandidateText "{no data}") Toy.loaded "{no data}" ToyMore.docNoData None);
    vm_compute; reflexivity.
Defined.

Lemma failing_first_solution_example :
  feedback (generateChallenge ToyMore.parse (CandidateText "{bad solution}") Toy.loaded)
  = Some (mkFeedback success (readyMessage (mode Toy.loaded)))
  /\ challenge
       (generateChallenge ToyMore.parse (CandidateText "{bad solution}") Toy.loaded)
     = Some (normalizeChallenge ToyMore.docBadSolution)
  /\ expectedError
       (generateChallenge ToyMore.parse (CandidateText "{bad solution}") Toy.loaded)
     = Some "syntax error"
  /\ expectedResult
       (generateChallenge ToyMore.parse (CandidateText "{bad solution}") Toy.loaded)
     = None.
Proof.
  apply (failing_first_solution_is_recorded Toy.sqljs ToyMore.parse
           (CandidateText "{bad solution}") Toy.loaded "{bad solution}"
           "INSERT INTO t VALUES (1)" "syntax error" ToyMore.docBadSolution
           ToyMore.badSolution [] (Some []) (Some [1%Z]) (Some [1%Z])
           [("t", [[("a", SqlNum (integer 1))]])]);
    vm_compute; reflexivity.
Defined.

Lemma failing_user_query_example :
  queryResult (handleRunQuery (set_userQuery "SELEC" Toy.loaded)) = None
  /\ feedback (handleRunQuery (set_userQuery "SELEC" Toy.loaded))
     = Some (mkFeedback error ("SQL Error: " ++ "syntax error")%string)
  /\ dbRef (handleRunQuery (set_userQuery "SELEC" Toy.loaded))
     = Some (Some [1; 2]%Z).
Proof.
  destruct (failing_user_query_is_reported Toy.sqljs
              (set_userQuery "SELEC" Toy.loaded) Toy.docA [Toy.allRows]
              (Some [1; 2]%Z) (Some [1; 2]%Z) "syntax error")
    as (Hres & Hmsg & _); try (vm_compute; reflexivity).
  split; [exact Hres|]. apply Hmsg. discriminate.
Defined.

Lemma verdict_example :
  feedback (handleRunQuery (set_userQuery "SELECT * FROM t LIMIT 5" Toy.loaded))
  = Some (mkFeedback success correctMessage)
  <-> map json_members (parseSqlResult (Toy.select [1; 2]%Z))
      = map json_members (parseSqlResult (Toy.select [1; 2]%Z)).
Proof.
  apply (verdict_is_success_iff_rows_are_equal Toy.sqljs
           (set_userQuery "SELECT * FROM t LIMIT 5" Toy.loaded) Toy.docA
           [Toy.allRows] Toy.allRows (Some [1; 2]%Z) (Some [1; 2]%Z)
           (Some [1; 2]%Z));
    vm_compute; reflexivity.
Defined.

Lemma submitting_the_solution_example :
  feedback (handleRunQuery (set_userQuery "SELECT a FROM t" Toy.loaded))
  = Some (mkFeedback success correctMessage)
  /\ dbRef (handleRunQuery (set_userQuery "SELECT a FROM t" Toy.loaded))
     = Some (Some [1; 2]%Z).
Proof.
  apply (submitting_the_solution_is_correct Toy.sqljs
           (set_userQuery "SELECT a FROM t" Toy.loaded) Toy.docA
           [Toy.allRows] Toy.allRows (Some [1; 2]%Z) (Toy.select [1; 2]%Z));
    vm_compute; reflexivity.
Defined.

Lemma failing_reference_example :
  feedback (handleRunQuery ToyMore.brokenLoaded)
  = Some (mkFeedback error "Could not validate. Check logic manually.")
  /\ queryResult (handleRunQuery ToyMore.brokenLoaded)
     = Some (parseSqlResult (Toy.select [1%Z])).
Proof.
  apply (failing_reference_leaves_answer_unjudged Toy.sqljs
           ToyMore.brokenLoaded ToyMore.docBadSolution [ToyMore.badSolution]
           ToyMore.badSolution (Some [1%Z]) (Some [1%Z]) (Some [1%Z])
           (Toy.select [1%Z]) "syntax error");
    vm_compute; reflexivity.
Defined.

End SqlPadMoreExamples.

(** * More on the proxy *)

Section ProxyMore.

Import Proxy.

Variable Payload : Type.
Variable statusError : nat -> string.
Variable fetch : Call -> outcome (ProviderResponse Payload).

(** X24. The proxy sends at most one request to the AI provider, never
    a second one, and none at all when the body of the incoming request
    cannot be read; the request it sends carries the caller's prompt as it
    came. *)
Theorem proxy_sends_at_most_one_request
    (GEMINI_API_KEY : option string) (request_json : outcome RequestBody) :
  (List.length (snd (POST statusError fetch GEMINI_API_KEY request_json)) <= 1)%nat
  /\ (forall call, In call (snd (POST statusError fetch GEMINI_API_KEY request_json)) ->
      exists req, request_json = Returned req /\ text call = prompt req)
  /\ (forall msg, request_json = Threw msg ->
      POST statusError fetch GEMINI_API_KEY request_json = (internalError msg, [])).
Proof.
  assert (H : snd (POST statusError fetch GEMINI_API_KEY request_json) = []
              \/ exists req call,
                   request_json = Returned req /\ text call = prompt req
                   /\ snd (POST statusError fetch GEMINI_API_KEY request_json) = [call]).
  { unfold POST. destruct request_json as [req|msg0]; [|now left].
    destruct (negb (truthy (keyToUse (apiKey req) GEMINI_API_KEY)));
      [now left|].
    right. exists req.
    exists (mkCall (endpoint
                    ++ match keyToUse (apiKey req) GEMINI_API_KEY with
                       | Some k => k
                       | None => "undefined"
                       end)%string (prompt req)).
    split; [reflexivity|].
    destruct (fetch _) as [response|msg];
      [destruct (json response) as [data|msg];
       [destruct (ok response); [|destruct (NextResponse_json _ _ _)]|]|];
      split; reflexivity. }
  split; [|split].
  - destruct H as [->|(req & call & _ & _ & ->)]; cbn; lia.
  - intros call Hin.
    destruct H as [H|(req & call' & Hreq & Htext & H)]; rewrite H in Hin.
    + destruct Hin.
    + destruct Hin as [<-|[]]. now exists req.
  - intros msg ->. reflexivity.
Qed.

(** X25. An answer of the AI provider whose body can be read is relayed
    as it is: with status 200 when the provider reported success, and with
    the provider's own status when that is one a response with a body may
    be given. For any other status the response cannot be built, and the
    proxy answers 500 with the message of that failure. *)
Theorem provider_answer_is_relayed
    (GEMINI_API_KEY : option string) (req : RequestBody) (key : string)
    (response : ProviderResponse Payload) (data : Payload) :
  keyToUse (apiKey req) GEMINI_API_KEY = Some key ->
  key <> "" ->
  fetch (mkCall (endpoint ++ key)%string (prompt req)) = Returned response ->
  json response = Returned data ->
  (ok response = true ->
   fst (POST statusError fetch GEMINI_API_KEY (Returned req))
   = mkNextResponse 200 (Relayed data))
  /\ (ok response = false ->
      carries_body (provider_status response) = true ->
      fst (POST statusError fetch GEMINI_API_KEY (Returned req))
      = mkNextResponse (provider_status response) (Relayed data))
  /\ (ok response = false ->
      carries_body (provider_status response) = false ->
      fst (POST statusError fetch GEMINI_API_KEY (Returned req))
      = internalError (statusError (provider_status response))).
Proof.
  intros Hkey Hne Hfetch Hjson. unfold POST. rewrite Hkey. unfold truthy.
  apply String.eqb_neq in Hne. rewrite Hne. cbn [negb].
  rewrite Hfetch, Hjson. unfold NextResponse_json.
  split; [|split]; intros Hok; rewrite Hok; [reflexivity| |];
    intros Hc; rewrite Hc; reflexivity.
Qed.

(** X26. When the caller supplies no key, or an empty one, the request
    to the AI provider carries the server's key. *)
Theorem server_key_is_the_fallback
    (GEMINI_API_KEY : option string) (req : RequestBody) (key : string) :
  truthy (apiKey req) = false ->
  GEMINI_API_KEY = Some key ->
  key <> "" ->
  snd (POST statusError fetch GEMINI_API_KEY (Returned req))
  = [mkCall (endpoint ++ key)%string (prompt req)].
Proof.
  intros Hno -> Hne. unfold POST, keyToUse. rewrite Hno. unfold truthy.
  apply String.eqb_neq in Hne. rewrite Hne. cbn [negb].
  destruct (fetch _) as [response|msg]; [|reflexivity].
  destruct (json response) as [data|msg]; [|reflexivity].
  destruct (ok response); [reflexivity|].
  destruct (NextResponse_json _ _ _); reflexivity.
Qed.

End ProxyMore.

Lemma provider_answer_example :
  fst (Proxy.POST (fun _ => "invalid status")
         (fun _ => Returned (Proxy.mkProviderResponse 429 (Returned "quota")))
         (Some "server-key")
         (Returned (Proxy.mkRequestBody "Generate a challenge" (Some "user-key"))))
  = Proxy.mkNextResponse 429 (Proxy.Relayed "quota")
  /\ fst (Proxy.POST (fun _ => "invalid status")
            (fun _ => Returned (Proxy.mkProviderResponse 304 (Returned "cached")))
            (Some "server-key")
            (Returned (Proxy.mkRequestBody "Generate a challenge" (Some "user-key"))))
     = Proxy.mkNextResponse 500 (Proxy.ErrorBody "invalid status").
Proof.
  split.
  - destruct (provider_answer_is_relayed string (fun _ => "invalid status")
                (fun _ => Returned (Proxy.mkProviderResponse 429 (Returned "quota")))
                (Some "server-key")
                (Proxy.mkRequestBody "Generate a challenge" (Some "user-key"))
                "user-key" (Proxy.mkProviderResponse 429 (Returned "quota")) "quota")
      as (_ & Hrelay & _); [reflexivity|discriminate|reflexivity|reflexivity|].
    apply Hrelay; reflexivity.
  - destruct (provider_answer_is_relayed string (fun _ => "invalid status")
                (fun _ => Returned (Proxy.mkProviderResponse 304 (Returned "cached")))
                (Some "server-key")
                (Proxy.mkRequestBody "Generate a challenge" (Some "user-key"))
                "user-key" (Proxy.mkProviderResponse 304 (Returned "cached")) "cached")
      as (_ & _ & Hfail); [reflexivity|discriminate|reflexivity|reflexivity|].
    apply Hfail; reflexivity.
Defined.

Lemma server_key_example :
  snd (Proxy.POST (fun _ => "invalid status")
         (fun _ => Returned (Proxy.mkProviderResponse 200 (Returned "ok")))
         (Some "server-key")
         (Returned (Proxy.mkRequestBody "Generate a challenge" (Some ""))))
  = [Proxy.mkCall (Proxy.endpoint ++ "server-key")%string "Generate a challenge"].
Proof.
  apply (server_key_is_the_fallback string (fun _ => "invalid status")
           (fun _ => Returned (Proxy.mkProviderResponse 200 (Returned "ok")))
           (Some "server-key")
           (Proxy.mkRequestBody "Generate a challenge" (Some "")) "server-key");
    [reflexivity|reflexivity|discriminate].
Defined.

(** * More on the Python pad *)

Section PythonPadMore.

Import PythonPad.

Variable R : Runtime.
Variable JSON_parse : string -> outcome Challenge.

Ltac pad :=
  cbn [apiKey pyodide isEnvReady envLoadingText selectedDataset selectedStage
       challenge userCode output plotImage isRunning isGenerating activeTab
       showApiKey set_challenge set_userCode set_output set_plotImage
       set_isRunning set_isGenerating set_activeTab set_pyodide] in *.

Lemma loadDataset_interpreter (dataset : Dataset) (csv : outcome string)
      (s : PadState R) :
  pyodide (loadDatasetToPython dataset csv s) = pyodide s
  \/ exists py py' csvText e,
       pyodide s = Some py
       /\ FS_writeFile R py (id dataset ++ ".csv")%string csvText = (e, py')
       /\ pyodide (loadDatasetToPython dataset csv s) = Some py'.
Proof.
  unfold loadDatasetToPython. destruct (pyodide s) as [py|] eqn:Hpy; [|now left].
  destruct csv as [csvText|msg]; [|left; pad; exact Hpy].
  destruct (FS_writeFile R py (id dataset ++ ".csv")%string csvText) as [e py'] eqn:Hw.
  right. exists py, py', csvText, e. repeat split; auto.
  destruct e; reflexivity.
Qed.

Lemma loadDataset_frame (dataset : Dataset) (csv : outcome string) (s : PadState R) :
  challenge (loadDatasetToPython dataset csv s) = challenge s
  /\ userCode (loadDatasetToPython dataset csv s) = userCode s
  /\ plotImage (loadDatasetToPython dataset csv s) = plotImage s
  /\ activeTab (loadDatasetToPython dataset csv s) = activeTab s.
Proof.
  unfold loadDatasetToPython. destruct (pyodide s) as [py|]; [|now repeat split].
  destruct csv as [csvText|msg]; [|now repeat split].
  destruct (FS_writeFile R py _ csvText) as [[msg|] py']; now repeat split.
Qed.

(** X27. Generating a challenge in the Python pad never runs Python
    code and never replaces the interpreter: the interpreter afterwards is
    the one before, or the one before after a single write of the selected
    dataset's csv file. *)
Theorem python_generation_only_writes_the_dataset
    (csv : outcome string) (reply : Reply) (s : PadState R) :
  pyodide (generateChallenge JSON_parse csv reply s) = pyodide s
  \/ exists dataset py py' csvText e,
       In dataset DATASETS
       /\ id dataset = selectedDataset s
       /\ pyodide s = Some py
       /\ FS_writeFile R py (id dataset ++ ".csv")%string csvText = (e, py')
       /\ pyodide (generateChallenge JSON_parse csv reply s) = Some py'.
Proof.
  unfold generateChallenge.
  set (s0 := set_activeTab editor
               (set_plotImage None
                  (set_output "" (set_challenge None (set_isGenerating true s))))).
  assert (H0 : pyodide s0 = pyodide s) by reflexivity.
  destruct (find (fun d => String.eqb (id d) (selectedDataset s)) DATASETS)
    as [dataset|] eqn:Hfind.
  - apply find_some in Hfind as [Hin Hid]. apply String.eqb_eq in Hid.
    destruct (loadDataset_interpreter dataset csv s0)
      as [Hsame|(py & py' & csvText & e & Hpy & Hw & Hafter)].
    + left. rewrite <- H0, <- Hsame.
      destruct (match reply_text reply with
                | Returned text => _
                | Threw msg => Threw msg
                end); reflexivity.
    + right. exists dataset, py, py', csvText, e.
      split; [exact Hin|]. split; [exact Hid|].
      split; [now rewrite <- H0|]. split; [exact Hw|].
      rewrite <- Hafter.
      destruct (match reply_text reply with
                | Returned text => _
                | Threw msg => Threw msg
                end); reflexivity.
  - left. rewrite <- H0.
    destruct (match reply_text reply with
              | Returned text => _
              | Threw msg => Threw msg
              end); reflexivity.
Qed.

(** X28. A generation that fails in the Python pad leaves no challenge
    on display and reports the failure in the output, but keeps the code
    the user had in the editor. *)
Theorem python_failed_generation_keeps_the_code
    (csv : outcome string) (reply : Reply) (s : PadState R) (msg : string) :
  (reply_text reply = Threw msg
   \/ exists text,
        reply_text reply = Returned text
        /\ JSON_parse
             (string_of_list_ascii
                (trim (replace_all re_fence [] (list_ascii_of_string text))))
           = Threw msg) ->
  challenge (generateChallenge JSON_parse csv reply s) = None
  /\ output (generateChallenge JSON_parse csv reply s)
     = ("Generation Error: " ++ msg)%string
  /\ userCode (generateChallenge JSON_parse csv reply s) = userCode s
  /\ plotImage (generateChallenge JSON_parse csv reply s) = None
  /\ isGenerating (generateChallenge JSON_parse csv reply s) = false.
Proof.
  intros Hfail. unfold generateChallenge.
  set (s0 := set_activeTab editor
               (set_plotImage None
                  (set_output "" (set_challenge None (set_isGenerating true s))))).
  set (s1 := match find _ DATASETS with
             | Some dataset => loadDatasetToPython dataset csv s0
             | None => s0
             end).
  assert (H1 : challenge s1 = None /\ userCode s1 = userCode s
               /\ plotImage s1 = None).
  { subst s1. destruct (find _ DATASETS) as [dataset|].
    - destruct (loadDataset_frame dataset csv s0) as (-> & -> & -> & _).
      now repeat split.
    - now repeat split. }
  destruct H1 as (Hc & Hu & Hp).
  destruct Hfail as [Hr|(text & Hr & Hparse)]; rewrite Hr; [|rewrite Hparse];
    pad; now repeat split.
Qed.

(** X29. A generation whose answer parses installs the challenge and
    puts its starter code in the editor, whether or not the dataset could
    be fetched and written. *)
Theorem python_generation_succeeds_without_dataset
    (csv : outcome string) (reply : Reply) (s : PadState R)
    (text : string) (json : Challenge) :
  reply_text reply = Returned text ->
  JSON_parse
    (string_of_list_ascii
       (trim (replace_all re_fence [] (list_ascii_of_string text))))
  = Returned json ->
  challenge (generateChallenge JSON_parse csv reply s) = Some json
  /\ userCode (generateChallenge JSON_parse csv reply s) = starter_code json
  /\ activeTab (generateChallenge JSON_parse csv reply s) = editor
  /\ isGenerating (generateChallenge JSON_parse csv reply s) = false.
Proof.
  intros Hr Hparse. unfold generateChallenge. rewrite Hr, Hparse.
  set (s0 := set_activeTab editor
               (set_plotImage None
                  (set_output "" (set_challenge None (set_isGenerating true s))))).
  pad. repeat split; try reflexivity.
  destruct (find _ DATASETS) as [dataset|]; [|reflexivity].
  now destruct (loadDataset_frame dataset csv s0) as (_ & _ & _ & ->).
Qed.

(** X30. When the user's code raises, the run ends there: the output
    is the traceback, no plot is shown, the plot check is not run, and
    running is switched off. *)
Theorem python_exception_ends_the_run
    (s : PadState R) (py py1 py2 : Py R) (out msg : string) :
  pyodide s = Some py ->
  runPythonAsync R py resetStdout = (Returned out, py1) ->
  runPythonAsync R py1 (userCode s) = (Threw msg, py2) ->
  output (handleRunCode s) = ("Traceback:" ++ nl ++ msg)%string
  /\ plotImage (handleRunCode s) = None
  /\ isRunning (handleRunCode s) = false
  /\ pyodide (handleRunCode s) = Some py2
  /\ challenge (handleRunCode s) = challenge s
  /\ userCode (handleRunCode s) = userCode s.
Proof.
  intros Hpy H1 H2. unfold handleRunCode. rewrite Hpy, H1, H2.
  now repeat split.
Qed.

End PythonPadMore.

Section PythonPadMoreExamples.

Import PythonPad.

Lemma python_failed_generation_example :
  challenge (generateChallenge Toy.parsePy (Returned "a,b")
               (FetchRejected "Failed to fetch") Toy.padAfterSecondChallenge)
  = None
  /\ output (generateChallenge Toy.parsePy (Returned "a,b")
               (FetchRejected "Failed to fetch") Toy.padAfterSecondChallenge)
     = ("Generation Error: " ++ "Failed to fetch")%string
  /\ userCode (generateChallenge Toy.parsePy (Returned "a,b")
                 (FetchRejected "Failed to fetch") Toy.padAfterSecondChallenge)
     = userCode Toy.padAfterSecondChallenge
  /\ plotImage (generateChallenge Toy.parsePy (Returned "a,b")
                  (FetchRejected "Failed to fetch") Toy.padAfterSecondChallenge)
     = None
  /\ isGenerating (generateChallenge Toy.parsePy (Returned "a,b")
                     (FetchRejected "Failed to fetch") Toy.padAfterSecondChallenge)
     = false.
Proof.
  apply (python_failed_generation_keeps_the_code Toy.pyodide Toy.parsePy
           (Returned "a,b") (FetchRejected "Failed to fetch")
           Toy.padAfterSecondChallenge "Failed to fetch").
  left. reflexivity.
Defined.

Lemma python_generation_without_dataset_example :
  challenge (generateChallenge Toy.parsePy (Threw "404")
               (CandidateText (fenced "{exercise}")) Toy.padStart)
  = Some Toy.exercise
  /\ userCode (generateChallenge Toy.parsePy (Threw "404")
                 (CandidateText (fenced "{exercise}")) Toy.padStart)
     = starter_code Toy.exercise
  /\ activeTab (generateChallenge Toy.parsePy (Threw "404")
                  (CandidateText (fenced "{exercise}")) Toy.padStart)
     = editor
  /\ isGenerating (generateChallenge Toy.parsePy (Threw "404")
                     (CandidateText (fenced "{exercise}")) Toy.padStart)
     = false.
Proof.
  apply (python_generation_succeeds_without_dataset Toy.pyodide Toy.parsePy
           (Threw "404") (CandidateText (fenced "{exercise}")) Toy.padStart
           (fenced "{exercise}") Toy.exercise);
    vm_compute; reflexivity.
Defined.

Lemma python_exception_example :
  output (handleRunCode ToyMore.padDividing)
  = ("Traceback:" ++ nl ++ "ZeroDivisionError: division by zero")%string
  /\ plotImage (handleRunCode ToyMore.padDividing) = None
  /\ isRunning (handleRunCode ToyMore.padDividing) = false
  /\ pyodide (handleRunCode ToyMore.padDividing) = Some (Toy.mkPy [] [])
  /\ challenge (handleRunCode ToyMore.padDividing) = challenge ToyMore.padDividing
  /\ userCode (handleRunCode ToyMore.padDividing) = userCode ToyMore.padDividing.
Proof.
  apply (python_exception_ends_the_run ToyMore.pyodideRaising
           ToyMore.padDividing (Toy.mkPy [] []) (Toy.mkPy [] []) (Toy.mkPy [] [])
           "" "ZeroDivisionError: division by zero");
    vm_compute; reflexivity.
Defined.

End PythonPadMoreExamples.
